(** * skynet-js: registry entries and the SkyDB layer

    A shallow embedding of the registry client ([dist/cjs/registry.js]), the
    SkyDB layer ([dist/cjs/skydb.js], and the older TypeScript sources of the
    same module) and of [MySky.setEntryData] ([mysky/index.js]).

    Asynchronous functions are modelled in a writer/error monad: a computation
    yields a result (a value or a thrown error) together with the list of the
    network and RPC events it caused.  The portal, the MySky delegate and the
    helper modules that the functions import (encodings, hashing, tweetnacl)
    are parameters of the development, collected in the class [External]. *)

From Stdlib Require Import ZArith List String Ascii Bool Lia DecimalString.
From Stdlib.Strings Require Import Byte.
Import ListNotations.

Set Warnings "-register-all".

Local Open Scope string_scope.
Local Open Scope Z_scope.
Local Open Scope list_scope.

(** ** JavaScript values *)

(** A [Uint8Array]. *)
Definition Uint8Array := list byte.

(** [new Uint8Array(n)]: [n] zero bytes. *)
Definition new_Uint8Array (n : nat) : Uint8Array := repeat x00 n.

(** The values that [JSON.parse] produces and [JSON.stringify] consumes.
    Numbers are restricted to integers: the functions below only test a
    number for truthiness or print the elements of a byte array. *)
Inductive json : Type :=
| JNull
| JBool (b : bool)
| JNum (n : Z)
| JStr (s : string)
| JArr (xs : list json)
| JObj (kvs : list (string * json)).

Fixpoint assoc {A} (k : string) (kvs : list (string * A)) : option A :=
  match kvs with
  | [] => None
  | (k', v) :: rest => if String.eqb k k' then Some v else assoc k rest
  end.

(** [v[k]]: property access by a string key that no array or string has
    ([None] is [undefined]). *)
Definition get_prop (v : json) (k : string) : option json :=
  match v with
  | JObj kvs => assoc k kvs
  | _ => None
  end.

(** JavaScript truthiness; [None] is [undefined]. *)
Definition truthy (v : option json) : bool :=
  match v with
  | None => false
  | Some JNull => false
  | Some (JBool b) => b
  | Some (JNum n) => negb (n =? 0)
  | Some (JStr s) => negb (String.eqb s "")
  | Some (JArr _) => true
  | Some (JObj _) => true
  end.

(** [typeof v !== "object" || v === null]. *)
Definition not_an_object (v : json) : bool :=
  match v with
  | JArr _ | JObj _ => false
  | _ => true
  end.

(** ** Errors and results *)

(** An error of the HTTP transport (axios): the response, when there is one,
    and its status, when it has one. *)
Record AxiosResponse := { status : option Z }.
Record AxiosError := { response : option AxiosResponse }.

Inductive Error : Type :=
| ValidationError (name : string)
| IncompleteEntryResponse
| IntegrityError
| RevisionExhausted
| NotUint64
| NotJSON
| DataNotJSON
| ErrorResponseNotFound
| ErrorStatusNotFound
| Thrown (err : AxiosError)
| BuiltinError (what : string).

Inductive Result (A : Type) : Type :=
| Ok (a : A)
| Throw (e : Error).
Arguments Ok {A} a.
Arguments Throw {A} e.

(** ** Registry types ([registry.d.ts]) *)

Record RegistryEntry := {
  dataKey : string;
  data : Uint8Array;
  revision : Z;
}.

Record SignedRegistryEntry := {
  entry : option RegistryEntry;
  signature : option Uint8Array;
}.

Record File := {
  file_content : string;
  file_name : string;
  file_type : string;
}.

Record JSONResponse := {
  json_data : option json;
  dataLink : option string;
}.

(** The options bag, after the defaults, the client's options and the call's
    options have been merged; [extractOptions] keeps the fields a callee
    knows. *)
Record Options := {
  hashedDataKeyHex : bool;
  cachedDataLink : option string;
  endpointGetEntry : string;
  endpointSetEntry : string;
}.

Definition DEFAULT_OPTIONS : Options :=
  {| hashedDataKeyHex := false;
     cachedDataLink := None;
     endpointGetEntry := "/skynet/registry";
     endpointSetEntry := "/skynet/registry" |}.

(** ** Events and the monad of asynchronous functions *)

Inductive Operation : Type :=
| RegistryGet (url : string)
| RegistryPost (endpoint : string) (body : string)
| Upload (file : File)
| Download (link : string)
| UserID
| SignRegistryEntry (e : RegistryEntry) (path : string).

Inductive Event : Type :=
| Start (op : Operation)
| Done (op : Operation).

Definition M (A : Type) : Type := (Result A * list Event)%type.

Definition ret {A} (a : A) : M A := (Ok a, []).
Definition throw {A} (e : Error) : M A := (Throw e, []).
Definition lift {A} (r : Result A) : M A := (r, []).

Definition bind {A B} (m : M A) (f : A -> M B) : M B :=
  match m with
  | (Ok a, t) => let '(r, t') := f a in (r, t ++ t')
  | (Throw e, t) => (Throw e, t)
  end.

(** An awaited request: it starts, then the response arrives. *)
Definition await {A} (op : Operation) (r : Result A) : M A :=
  (r, [Start op; Done op]).

Declare Scope js_scope.
Delimit Scope js_scope with js.
Notation "x <- m ;; k" := (bind m (fun x => k))
  (at level 61, m at next level, right associativity) : js_scope.
Notation "m ;;; k" := (bind m (fun _ => k))
  (at level 61, right associativity) : js_scope.
Local Open Scope js_scope.

(** *** Promises that are not awaited at once

    A response arrives in a later task than the one that issued the request,
    and what a function does between two responses is not interrupted by
    another task. *)

Definition is_response (ev : Event) : bool :=
  match ev with
  | Done _ => true
  | Start _ => false
  end.

(** The events up to the next response, and the events from that response
    on. *)
Fixpoint until_response (t : list Event) : list Event * list Event :=
  match t with
  | [] => ([], [])
  | ev :: t' =>
      if is_response ev then ([], t)
      else let '(now, later) := until_response t' in (ev :: now, later)
  end.

(** Calling an asynchronous function without awaiting it: the function runs
    until it first waits for a response; the promise it returns stands for
    the result and for what remains to be done. *)
Definition start {A} (m : M A) : M (M A) :=
  let '(now, later) := until_response (snd m) in (Ok (fst m, later), now).

(** One step of a pending promise: a response arrives, and the function goes
    on until it waits again. *)
Definition next_step (t : list Event) : list Event * list Event :=
  match t with
  | [] => ([], [])
  | ev :: t' => let '(now, later) := until_response t' in (ev :: now, later)
  end.

(** The steps of two pending promises, merged in the order that the schedule
    chooses ([true]: the next response is for the first promise); per
    promise, the order is kept. *)
Fixpoint interleave (sched : list bool) (l1 l2 : list Event) : list Event :=
  match sched with
  | [] => l1 ++ l2
  | true :: sched' =>
      match l1 with
      | [] => l2
      | _ :: _ => let '(step, l1') := next_step l1 in step ++ interleave sched' l1' l2
      end
  | false :: sched' =>
      match l2 with
      | [] => l1
      | _ :: _ => let '(step, l2') := next_step l2 in step ++ interleave sched' l1 l2'
      end
  end.

(** Whether the first of two pending promises settles before the second,
    under the schedule of [interleave].  A promise settles with its last
    step; one that has nothing left to do has settled already. *)
Fixpoint settles_first (sched : list bool) (l1 l2 : list Event) : bool :=
  match l1, l2 with
  | [], _ => true
  | _ :: _, [] => false
  | _ :: _, _ :: _ =>
      match sched with
      | [] => true
      | true :: sched' => settles_first sched' (snd (next_step l1)) l2
      | false :: sched' => settles_first sched' l1 (snd (next_step l2))
      end
  end.

(** [Promise.all([a, b])] on two pending promises: the steps of both are
    taken; the result is the pair of the values, or the error of the promise
    that is rejected first. *)
Definition Promise_all {A B} (sched : list bool) (a : M A) (b : M B) : M (A * B) :=
  let '(ra, ta) := a in
  let '(rb, tb) := b in
  (match ra, rb with
   | Ok x, Ok y => Ok (x, y)
   | Throw e, Ok _ => Throw e
   | Ok _, Throw e => Throw e
   | Throw ea, Throw eb => if settles_first sched ta tb then Throw ea else Throw eb
   end, interleave sched ta tb).

(** ** Strings, [BigInt.toString], [JSON.stringify] and the two regular
    expressions of [registry.js]

    A string is a sequence of code units below 256. *)

Definition QUOTE : ascii := "034"%char.
Definition BACKSLASH : ascii := "092"%char.

(** The text ["revision":] that both regular expressions start with. *)
Definition REVISION_KEY : string :=
  String QUOTE ("revision" ++ String QUOTE ":")%string.

Definition is_digit (c : ascii) : bool :=
  let n := nat_of_ascii c in (48 <=? n)%nat && (n <=? 57)%nat.

(** The class [\s] on code units below 256. *)
Definition is_space (c : ascii) : bool :=
  let n := nat_of_ascii c in
  ((9 <=? n)%nat && (n <=? 13)%nat) || (n =? 32)%nat || (n =? 160)%nat.

Fixpoint strip_prefix (p s : string) : option string :=
  match p, s with
  | EmptyString, _ => Some s
  | String a p', String b s' => if Ascii.eqb a b then strip_prefix p' s' else None
  | String _ _, EmptyString => None
  end.

(** [\s*], greedy. *)
Fixpoint skip_spaces (s : string) : string :=
  match s with
  | String c s' => if is_space c then skip_spaces s' else s
  | EmptyString => EmptyString
  end.

(** [[0-9]*], greedy: the digits and what follows them. *)
Fixpoint span_digits (s : string) : string * string :=
  match s with
  | String c s' =>
      if is_digit c
      then let '(d, r) := span_digits s' in (String c d, r)
      else (EmptyString, s)
  | EmptyString => (EmptyString, EmptyString)
  end.

(** A match of [/"revision":\s*([0-9]+)/] at the start of [s]: the captured
    group and the text after the match. *)
Definition match_REVISION_NO_QUOTES (s : string) : option (string * string) :=
  match strip_prefix REVISION_KEY s with
  | None => None
  | Some s1 =>
      match span_digits (skip_spaces s1) with
      | (EmptyString, _) => None
      | (d, rest) => Some (d, rest)
      end
  end.

(** A match of [/"revision":\s*"([0-9]+)"/] at the start of [s]. *)
Definition match_REVISION_WITH_QUOTES (s : string) : option (string * string) :=
  match strip_prefix REVISION_KEY s with
  | None => None
  | Some s1 =>
      match skip_spaces s1 with
      | String q s2 =>
          if Ascii.eqb q QUOTE then
            match span_digits s2 with
            | (EmptyString, _) => None
            | (d, String q' rest) => if Ascii.eqb q' QUOTE then Some (d, rest) else None
            | (_, EmptyString) => None
            end
          else None
      | EmptyString => None
      end
  end.

(** [s.replace(re, tpl)] for a regular expression without the [g] flag: the
    leftmost match is replaced, the text around it is kept. *)
Fixpoint replace_first (re : string -> option (string * string))
    (tpl : string -> string) (s : string) : string :=
  match re s with
  | Some (group, rest) => (tpl group ++ rest)%string
  | None =>
      match s with
      | EmptyString => EmptyString
      | String c s' => String c (replace_first re tpl s')
      end
  end.

(** [data.replace(REGEX_REVISION_NO_QUOTES, '"revision":"$1"')] *)
Definition add_revision_quotes (s : string) : string :=
  replace_first match_REVISION_NO_QUOTES
    (fun d => REVISION_KEY ++ String QUOTE (d ++ String QUOTE ""))%string s.

(** [json.replace(REGEX_REVISION_WITH_QUOTES, '"revision":$1')] *)
Definition strip_revision_quotes (s : string) : string :=
  replace_first match_REVISION_WITH_QUOTES
    (fun d => REVISION_KEY ++ d)%string s.

(** [n.toString()] for a bigint. *)
Definition bigint_toString (n : Z) : string :=
  DecimalString.NilZero.string_of_int (Z.to_int n).

Definition hex_digit (n : nat) : ascii :=
  ascii_of_nat (if (n <? 10)%nat then 48 + n else 87 + n).

(** [QuoteJSONString], one code unit. *)
Definition escape_char (c : ascii) : string :=
  let n := nat_of_ascii c in
  if Ascii.eqb c QUOTE then String BACKSLASH (String QUOTE "")
  else if Ascii.eqb c BACKSLASH then String BACKSLASH (String BACKSLASH "")
  else if (n =? 8)%nat then String BACKSLASH "b"
  else if (n =? 9)%nat then String BACKSLASH "t"
  else if (n =? 10)%nat then String BACKSLASH "n"
  else if (n =? 12)%nat then String BACKSLASH "f"
  else if (n =? 13)%nat then String BACKSLASH "r"
  else if (n <? 32)%nat then
    String BACKSLASH
      (String "u" (String "0" (String "0"
        (String (hex_digit (n / 16)) (String (hex_digit (n mod 16)) "")))))
  else String c "".

Fixpoint escape_string (s : string) : string :=
  match s with
  | EmptyString => EmptyString
  | String c s' => (escape_char c ++ escape_string s')%string
  end.

Definition quote_string (s : string) : string :=
  String QUOTE (escape_string s ++ String QUOTE "")%string.

Fixpoint join (sep : string) (parts : list string) : string :=
  match parts with
  | [] => EmptyString
  | [p] => p
  | p :: rest => (p ++ sep ++ join sep rest)%string
  end.

(** [JSON.stringify(v)] (no indentation). *)
Fixpoint JSON_stringify (v : json) : string :=
  match v with
  | JNull => "null"
  | JBool true => "true"
  | JBool false => "false"
  | JNum n => bigint_toString n
  | JStr s => quote_string s
  | JArr xs => ("[" ++ join "," (map JSON_stringify xs) ++ "]")%string
  | JObj kvs =>
      ("{" ++ join ","
         (map (fun kv => quote_string (fst kv) ++ ":" ++ JSON_stringify (snd kv)) kvs)
       ++ "}")%string
  end.

(** [Array.from(bytes)]: the array of the numbers. *)
Definition Array_from (b : Uint8Array) : json :=
  JArr (map (fun x => JNum (Z.of_N (Byte.to_N x))) b).

(** ** The imported modules and the environment *)

(** The outcome of [executeRequest] for the registry GET: the promise is
    fulfilled with the raw response body (if any) or rejected. *)
Inductive AxiosOutcome : Type :=
| Fulfilled (body : option string)
| Rejected (err : AxiosError).

(** What [registry.js], [skydb.js] and [mysky/index.js] import and call but do
    not define: helper modules of the library, tweetnacl, built-ins, and the
    remote parties (the portal behind [executeRequest], [uploadFile] and
    [getFileContent], and the MySky delegate).  A function that can throw
    returns a [Result]. *)
Class External : Type := {
  (* utils/string *)
  isHexString : string -> bool;
  hexToUint8Array : string -> Result Uint8Array;
  toHexString : Uint8Array -> string;
  trimPrefix : string -> string -> string;
  ensurePrefix : string -> string -> string;
  trimUriPrefix : string -> string -> string;
  stringToUint8ArrayUtf8 : string -> Uint8Array;
  uint8ArrayToStringUtf8 : Uint8Array -> string;
  (* utils/url *)
  URI_SKYNET_PREFIX : string;
  makeUrl : string -> string -> string;
  addUrlQuery : string -> list (string * json) -> string;
  (* crypto *)
  hashDataKey : string -> Uint8Array;
  hashRegistryEntry : RegistryEntry -> bool -> Result Uint8Array;
  (* tweetnacl: sign(msg, secretKey), sign.detached.verify(msg, sig, publicKey),
     sign.keyPair.fromSecretKey(secretKey).publicKey *)
  nacl_sign : Uint8Array -> Uint8Array -> Result Uint8Array;
  nacl_sign_detached_verify : Uint8Array -> Uint8Array -> Uint8Array -> Result bool;
  nacl_sign_keyPair_fromSecretKey : Uint8Array -> Result Uint8Array;
  (* skylink/sia, skylink/format, utils/encoding, utils/validation *)
  encodeSkylinkBase64 : Uint8Array -> string;
  decodeSkylinkBase64 : string -> Result Uint8Array;
  decodeSkylink : string -> Result Uint8Array;
  formatSkylink : string -> string;
  validateSkylinkString : string -> Result string;
  (* built-ins *)
  BigInt : string -> Result Z;
  JSON_parse : string -> option json;
  (* mysky/tweak *)
  deriveDiscoverableFileTweak : string -> string;
  (* the portal and the MySky delegate *)
  portalUrl : string;
  portal_get : string -> AxiosOutcome;
  portal_post : string -> string -> option AxiosError;
  uploadFile : File -> Result string;
  getFileContent : string -> Result json;
  mysky_userID : Result string;
  mysky_signRegistryEntry : RegistryEntry -> string -> Result Uint8Array;
  (* the order in which the events of two concurrent requests occur *)
  schedule : list bool;
}.

(** Modelled from the spec: [MAX_REVISION] of [utils/number], which is not
    among the sources; the largest unsigned 64-bit integer. *)
Definition MAX_REVISION : Z := 2 ^ 64 - 1.

(** Modelled from the spec: [assertUint64] of [utils/number], which is not
    among the sources; it throws unless the value fits in 64 unsigned bits. *)
Definition assertUint64 (n : Z) : Result unit :=
  if (n <? 0) || (MAX_REVISION <? n) then Throw NotUint64 else Ok tt.

(** Modelled from the spec: [RAW_SKYLINK_SIZE] of [skylink/sia], which is not
    among the sources; the fixed raw length of a skylink, 34 bytes. *)
Definition RAW_SKYLINK_SIZE : nat := 34.

(** Modelled from the spec: [BASE64_ENCODED_SKYLINK_SIZE] of [skylink/sia],
    which is not among the sources; the length of the bare base64-url form of
    a skylink, 46 characters. *)
Definition BASE64_ENCODED_SKYLINK_SIZE : nat := 46.

(** Modelled from the spec: [EMPTY_SKYLINK] of [skylink/sia], which is not
    among the sources; the all-zero sentinel of the raw skylink length. *)
Definition EMPTY_SKYLINK : Uint8Array := new_Uint8Array RAW_SKYLINK_SIZE.

(** Modelled from the spec: [areEqualUint8Arrays] of [utils/array], which is
    not among the sources; equality of length and of every byte. *)
Fixpoint areEqualUint8Arrays (a b : Uint8Array) : bool :=
  match a, b with
  | [], [] => true
  | x :: a', y :: b' => Byte.eqb x y && areEqualUint8Arrays a' b'
  | _, _ => false
  end.

(** Modelled from the spec: [validateUint8ArrayLen] of [utils/validation],
    which is not among the sources; it throws unless the array has the given
    length. *)
Definition validateUint8ArrayLen (name : string) (value : Uint8Array) (len : nat)
  : Result unit :=
  if (List.length value =? len)%nat then Ok tt else Throw (ValidationError name).

(** [MAX_ENTRY_LENGTH] of [mysky/index.js]. *)
Definition MAX_ENTRY_LENGTH : nat := 70.

Definition JSON_RESPONSE_VERSION : Z := 2.
Definition DEFAULT_GET_ENTRY_TIMEOUT : Z := 5.
Definition ED25519_PREFIX : string := "ed25519:".

(** The same environment under another schedule of concurrent requests. *)
Definition with_schedule (E : External) (sched : list bool) : External :=
  {| isHexString := @isHexString E;
     hexToUint8Array := @hexToUint8Array E;
     toHexString := @toHexString E;
     trimPrefix := @trimPrefix E;
     ensurePrefix := @ensurePrefix E;
     trimUriPrefix := @trimUriPrefix E;
     stringToUint8ArrayUtf8 := @stringToUint8ArrayUtf8 E;
     uint8ArrayToStringUtf8 := @uint8ArrayToStringUtf8 E;
     URI_SKYNET_PREFIX := @URI_SKYNET_PREFIX E;
     makeUrl := @makeUrl E;
     addUrlQuery := @addUrlQuery E;
     hashDataKey := @hashDataKey E;
     hashRegistryEntry := @hashRegistryEntry E;
     nacl_sign := @nacl_sign E;
     nacl_sign_detached_verify := @nacl_sign_detached_verify E;
     nacl_sign_keyPair_fromSecretKey := @nacl_sign_keyPair_fromSecretKey E;
     encodeSkylinkBase64 := @encodeSkylinkBase64 E;
     decodeSkylinkBase64 := @decodeSkylinkBase64 E;
     decodeSkylink := @decodeSkylink E;
     formatSkylink := @formatSkylink E;
     validateSkylinkString := @validateSkylinkString E;
     BigInt := @BigInt E;
     JSON_parse := @JSON_parse E;
     deriveDiscoverableFileTweak := @deriveDiscoverableFileTweak E;
     portalUrl := @portalUrl E;
     portal_get := @portal_get E;
     portal_post := @portal_post E;
     uploadFile := @uploadFile E;
     getFileContent := @getFileContent E;
     mysky_userID := @mysky_userID E;
     mysky_signRegistryEntry := @mysky_signRegistryEntry E;
     schedule := sched |}.

(** [typeof v === "object"] and [v === null]. *)
Definition typeof_object (v : json) : bool :=
  match v with
  | JNull | JArr _ | JObj _ => true
  | _ => false
  end.

Definition is_null (v : json) : bool :=
  match v with
  | JNull => true
  | _ => false
  end.

(** The [data] object that [postSignedEntry] hands to [executeRequest]
    ([registry.js], lines 269-280). *)
Definition post_data (key : Uint8Array) (datakey : string) (rev : Z)
    (entryData sig : Uint8Array) : json :=
  JObj [ ("publickey", JObj [ ("algorithm", JStr "ed25519"); ("key", Array_from key) ]);
         ("datakey", JStr datakey);
         ("revision", JStr (bigint_toString rev));
         ("data", Array_from entryData);
         ("signature", Array_from sig) ].

(** [transformRequest] of [postSignedEntry] ([registry.js], lines 288-293). *)
Definition transformRequest (d : json) : string :=
  strip_revision_quotes (JSON_stringify d).

(** [getNextRevisionFromEntry] ([skydb.js], lines 360-374). *)
Definition getNextRevisionFromEntry (e : option RegistryEntry) : Result Z :=
  let rev :=
    match e with
    | None => 0
    | Some e => revision e + 1
    end in
  if MAX_REVISION <? rev then Throw RevisionExhausted else Ok rev.

(** [getRevisionFromSignedEntry] (the TypeScript source of the SkyDB module,
    lines 312-329). *)
Definition getRevisionFromSignedEntry (signedEntry : SignedRegistryEntry) : Result Z :=
  let rev :=
    match entry signedEntry with
    | None => 0
    | Some e => revision e + 1
    end in
  if MAX_REVISION <? rev then Throw RevisionExhausted
  else
    match assertUint64 rev with
    | Throw e => Throw e
    | Ok _ => Ok rev
    end.

(** [handleGetEntryErrResponse] ([registry.js], lines 304-318). *)
Definition handleGetEntryErrResponse (err : AxiosError) : Result SignedRegistryEntry :=
  match response err with
  | None => Throw ErrorResponseNotFound
  | Some r =>
      match status r with
      | None => Throw ErrorStatusNotFound
      | Some s =>
          if s =? 0 then Throw ErrorStatusNotFound
          else if s =? 404 then Ok {| entry := None; signature := None |}
          else Throw (Thrown err)
      end
  end.

(** The sanity check of [getEntry] on one response field: [validateString],
    any failure rethrown as the incomplete-response error. *)
Definition entry_response_field (d : json) (k : string) : Result string :=
  match d with
  | JNull => Throw IncompleteEntryResponse
  | _ =>
      match get_prop d k with
      | Some (JStr s) => Ok s
      | _ => Throw IncompleteEntryResponse
      end
  end.

Section Client.

Context `{Ext : External}.

(** Modelled from the spec: [validateHexString] of [utils/validation], which is
    not among the sources; it throws unless the value is a hex string. *)
Definition validateHexString (name s : string) : Result unit :=
  if isHexString s then Ok tt else Throw (ValidationError name).

(** Modelled from the spec: [validateObject] of [utils/validation], which is
    not among the sources; it throws unless the value is a non-null object. *)
Definition validateObject (name : string) (v : json) : Result unit :=
  if typeof_object v && negb (is_null v) then Ok tt else Throw (ValidationError name).

(** *** registry.js *)

Definition validatePublicKey (name publicKey : string) : Result unit :=
  if isHexString (trimPrefix publicKey ED25519_PREFIX) then Ok tt
  else Throw (ValidationError name).

Definition getEntryUrlForPortal (portal publicKey dataKey : string)
    (customOptions : Options) : Result string :=
  match validatePublicKey "publicKey" publicKey with
  | Throw e => Throw e
  | Ok _ =>
      let opts := customOptions in
      let dataKeyHashHex :=
        if hashedDataKeyHex opts then dataKey
        else toHexString (hashDataKey dataKey) in
      let query :=
        [ ("publickey", JStr (ensurePrefix publicKey ED25519_PREFIX));
          ("datakey", JStr dataKeyHashHex);
          ("timeout", JNum DEFAULT_GET_ENTRY_TIMEOUT) ] in
      Ok (addUrlQuery (makeUrl portal (endpointGetEntry opts)) query)
  end.

Definition getEntryUrl (publicKey dataKey : string) (customOptions : Options)
  : Result string :=
  getEntryUrlForPortal portalUrl publicKey dataKey customOptions.

(** [transformResponse] of [getEntry] (lines 61-75). *)
Definition transformResponse (body : option string) : json :=
  match body with
  | None => JObj []
  | Some s =>
      let s' := add_revision_quotes s in
      match JSON_parse s' with
      | Some v => v
      | None => JStr s'
      end
  end.

(** The signed entry that [getEntry] builds from a successful response
    (lines 81-105): the sanity check, then the conversions. *)
Definition signedEntryOfResponse (dataKey : string) (response_data : json)
  : Result (RegistryEntry * Uint8Array) :=
  (* Sanity check. *)
  match entry_response_field response_data "data" with
  | Throw e => Throw e
  | Ok dataHex =>
  match entry_response_field response_data "revision" with
  | Throw e => Throw e
  | Ok revisionStr =>
  match entry_response_field response_data "signature" with
  | Throw e => Throw e
  | Ok signatureHex =>
  (* Convert the revision from a string to bigint. *)
  match BigInt revisionStr with
  | Throw e => Throw e
  | Ok rev =>
  match hexToUint8Array signatureHex with
  | Throw e => Throw e
  | Ok sig =>
  (* Use empty array if the data is empty. *)
  match (if String.eqb dataHex "" then Ok [] else hexToUint8Array dataHex) with
  | Throw e => Throw e
  | Ok entryData =>
      Ok ({| dataKey := dataKey; data := entryData; revision := rev |}, sig)
  end end end end end end.

(** The verification of [getEntry] (line 107):
    [sign.detached.verify(hashRegistryEntry(entry, hashedDataKeyHex),
    signature, hexToUint8Array(publicKey))]. *)
Definition verifySignedEntry (publicKey : string) (e : RegistryEntry)
    (sig : Uint8Array) (hashed : bool) : Result bool :=
  match hashRegistryEntry e hashed with
  | Throw err => Throw err
  | Ok digest =>
      match hexToUint8Array publicKey with
      | Throw err => Throw err
      | Ok publicKeyArray => nacl_sign_detached_verify digest sig publicKeyArray
      end
  end.

(** [getEntry] (lines 44-113). *)
Definition getEntry (publicKey dataKey : string) (customOptions : Options)
  : M SignedRegistryEntry :=
  let opts := customOptions in
  url <- lift (getEntryUrl publicKey dataKey opts) ;;
  outcome <- await (RegistryGet url) (Ok (portal_get url)) ;;
  match outcome with
  | Rejected err => lift (handleGetEntryErrResponse err)
  | Fulfilled body =>
      signed <- lift (signedEntryOfResponse dataKey (transformResponse body)) ;;
      let '(e, sig) := signed in
      (* Try verifying the returned data. *)
      verified <- lift (verifySignedEntry publicKey e sig (hashedDataKeyHex opts)) ;;
      if verified then ret {| entry := Some e; signature := Some sig |}
      else
        (* The response could not be verified. *)
        throw IntegrityError
  end.

Definition signEntry (privateKey : string) (e : RegistryEntry) (hashed : bool)
  : M Uint8Array :=
  privateKeyArray <- lift (hexToUint8Array privateKey) ;;
  digest <- lift (hashRegistryEntry e hashed) ;;
  lift (nacl_sign digest privateKeyArray).

Definition postSignedEntry (publicKey : string) (e : RegistryEntry)
    (sig : Uint8Array) (customOptions : Options) : M unit :=
  _ <- lift (validateHexString "publicKey" publicKey) ;;
  let opts := customOptions in
  let datakey :=
    if hashedDataKeyHex opts then dataKey e
    else toHexString (hashDataKey (dataKey e)) in
  key <- lift (hexToUint8Array publicKey) ;;
  let d := post_data key datakey (revision e) (data e) sig in
  let body := transformRequest d in
  await (RegistryPost (endpointSetEntry opts) body)
    (match portal_post (endpointSetEntry opts) body with
     | None => Ok tt
     | Some err => Throw (Thrown err)
     end).

Definition setEntry (privateKey : string) (e : RegistryEntry)
    (customOptions : Options) : M unit :=
  _ <- lift (validateHexString "privateKey" privateKey) ;;
  (* Assert the input is 64 bits. *)
  _ <- lift (assertUint64 (revision e)) ;;
  let opts := customOptions in
  privateKeyArray <- lift (hexToUint8Array privateKey) ;;
  sig <- signEntry privateKey e (hashedDataKeyHex opts) ;;
  publicKeyArray <- lift (nacl_sign_keyPair_fromSecretKey privateKeyArray) ;;
  postSignedEntry (toHexString publicKeyArray) e sig opts.

(** *** skydb.js *)

(** [getSkyDBRegistryEntry] (lines 400-407). *)
Definition getSkyDBRegistryEntry (publicKey dataKey : string) (opts : Options)
  : M (option RegistryEntry) :=
  signedEntry <- getEntry publicKey dataKey opts ;;
  match entry signedEntry with
  | None => ret None
  | Some e =>
      if areEqualUint8Arrays (data e) EMPTY_SKYLINK then ret None else ret (Some e)
  end.

(** [parseDataLink] (lines 416-430): the raw and the formatted data link. *)
Definition parseDataLink (d : Uint8Array) (legacy : bool) : Result (string * string) :=
  if legacy && (List.length d =? BASE64_ENCODED_SKYLINK_SIZE)%nat then
    let rawDataLink := uint8ArrayToStringUtf8 d in
    Ok (rawDataLink, formatSkylink rawDataLink)
  else if (List.length d =? RAW_SKYLINK_SIZE)%nat then
    let rawDataLink := encodeSkylinkBase64 d in
    Ok (rawDataLink, formatSkylink rawDataLink)
  else Throw (ValidationError "entry.data").

(** [checkCachedDataLink] (lines 383-390); an absent or empty cached link is
    falsy. *)
Definition checkCachedDataLink (rawDataLink : string) (cached : option string)
  : Result bool :=
  match cached with
  | None => Ok false
  | Some c =>
      if String.eqb c "" then Ok false
      else
        match validateSkylinkString c with
        | Throw e => Throw e
        | Ok c' => Ok (String.eqb rawDataLink c')
        end
  end.

(** What [getJSON] returns for a downloaded payload (lines 74-85). *)
Definition jsonOfDownload (d : json) (link : string) : Result JSONResponse :=
  if negb (typeof_object d) || is_null d then Throw NotJSON
  else if negb (truthy (get_prop d "_data") && truthy (get_prop d "_v")) then
    (* Legacy data prior to skynet-js v4, return as-is. *)
    Ok {| json_data := Some d; dataLink := Some link |}
  else
    match get_prop d "_data" with
    | None => Throw DataNotJSON
    | Some actualData =>
        if negb (typeof_object actualData) || is_null d then Throw DataNotJSON
        else Ok {| json_data := Some actualData; dataLink := Some link |}
    end.

(** [getJSON] (lines 51-87). *)
Definition getJSON (publicKey dataKey : string) (customOptions : Options)
  : M JSONResponse :=
  let opts := customOptions in
  (* Lookup the registry entry. *)
  found <- getSkyDBRegistryEntry publicKey dataKey opts ;;
  match found with
  | None => ret {| json_data := None; dataLink := None |}
  | Some e =>
      (* Determine the data link. *)
      links <- lift (parseDataLink (data e) true) ;;
      let '(rawDataLink, link) := links in
      (* If a cached data link is provided and the data link hasn't changed, return. *)
      unchanged <- lift (checkCachedDataLink rawDataLink (cachedDataLink opts)) ;;
      if unchanged then ret {| json_data := None; dataLink := Some link |}
      else
        (* Download the data in the returned data link. *)
        d <- await (Download link) (getFileContent link) ;;
        lift (jsonOfDownload d link)
  end.

(** [getNextRegistryEntry] (lines 281-300). *)
Definition getNextRegistryEntry (publicKey dataKey : string) (d : Uint8Array)
    (customOptions : Options) : M RegistryEntry :=
  let opts := customOptions in
  (* Get the latest entry. *)
  signedEntry <- getEntry publicKey dataKey opts ;;
  rev <- lift (getNextRevisionFromEntry (entry signedEntry)) ;;
  ret {| dataKey := dataKey; data := d; revision := rev |}.

(** [getOrCreateRegistryEntry] (lines 312-352): the upload is started, then
    the registry read, and the two promises are joined by [Promise.all]. *)
Definition getOrCreateRegistryEntry (publicKey dataKey : string) (j : json)
    (customOptions : Options) : M (RegistryEntry * string) :=
  let opts := customOptions in
  (* Set the hidden _data and _v fields. *)
  let fullData := JObj [ ("_data", j); ("_v", JNum JSON_RESPONSE_VERSION) ] in
  let dataKeyHex :=
    if hashedDataKeyHex opts then dataKey
    else toHexString (stringToUint8ArrayUtf8 dataKey) in
  let file :=
    {| file_content := JSON_stringify fullData;
       file_name := ("dk:" ++ dataKeyHex)%string;
       file_type := "application/json" |} in
  (* Start file upload, do not block. *)
  skyfilePromise <- start (await (Upload file) (uploadFile file)) ;;
  (* Start getEntry, do not block. *)
  entryPromise <- start (getEntry publicKey dataKey opts) ;;
  (* Block until both getEntry and uploadFile are finished. *)
  both <- Promise_all schedule entryPromise skyfilePromise ;;
  let '(signedEntry, skylink) := both in
  rev <- lift (getNextRevisionFromEntry (entry signedEntry)) ;;
  let link := trimUriPrefix skylink URI_SKYNET_PREFIX in
  d <- lift (decodeSkylinkBase64 link) ;;
  _ <- lift (validateUint8ArrayLen "data" d RAW_SKYLINK_SIZE) ;;
  ret ({| dataKey := dataKey; data := d; revision := rev |}, formatSkylink link).

(** The file that [getOrCreateRegistryEntry] uploads. *)
Definition uploaded_file (dk : string) (j : json) (opts : Options) : File :=
  {| file_content :=
       JSON_stringify (JObj [ ("_data", j); ("_v", JNum JSON_RESPONSE_VERSION) ]);
     file_name :=
       ("dk:" ++ (if hashedDataKeyHex opts then dk
                  else toHexString (stringToUint8ArrayUtf8 dk)))%string;
     file_type := "application/json" |}.

(** [setJSON] (lines 99-116). *)
Definition setJSON (privateKey dataKey : string) (j : json) (customOptions : Options)
  : M JSONResponse :=
  _ <- lift (validateHexString "privateKey" privateKey) ;;
  _ <- lift (validateObject "json" j) ;;
  let opts := customOptions in
  privateKeyArray <- lift (hexToUint8Array privateKey) ;;
  publicKeyArray <- lift (nacl_sign_keyPair_fromSecretKey privateKeyArray) ;;
  created <- getOrCreateRegistryEntry (toHexString publicKeyArray) dataKey j opts ;;
  let '(e, link) := created in
  (* Update the registry. *)
  _ <- setEntry privateKey e opts ;;
  ret {| json_data := Some j; dataLink := Some (formatSkylink link) |}.

(** [deleteJSON] (lines 126-142). *)
Definition deleteJSON (privateKey dataKey : string) (customOptions : Options)
  : M unit :=
  _ <- lift (validateHexString "privateKey" privateKey) ;;
  let opts := customOptions in
  privateKeyArray <- lift (hexToUint8Array privateKey) ;;
  publicKeyArray <- lift (nacl_sign_keyPair_fromSecretKey privateKeyArray) ;;
  e <- getNextRegistryEntry (toHexString publicKeyArray) dataKey
         (new_Uint8Array RAW_SKYLINK_SIZE) opts ;;
  (* Update the registry. *)
  setEntry privateKey e opts.

(** [setDataLink] (lines 153-170). *)
Definition setDataLink (privateKey dataKey link : string) (customOptions : Options)
  : M unit :=
  _ <- lift (validateHexString "privateKey" privateKey) ;;
  let opts := customOptions in
  privateKeyArray <- lift (hexToUint8Array privateKey) ;;
  publicKeyArray <- lift (nacl_sign_keyPair_fromSecretKey privateKeyArray) ;;
  raw <- lift (decodeSkylink link) ;;
  e <- getNextRegistryEntry (toHexString publicKeyArray) dataKey raw opts ;;
  (* Update the registry. *)
  setEntry privateKey e opts.

(** *** mysky/index.js *)

Definition with_hashedDataKeyHex (o : Options) : Options :=
  {| hashedDataKeyHex := true;
     cachedDataLink := cachedDataLink o;
     endpointGetEntry := endpointGetEntry o;
     endpointSetEntry := endpointSetEntry o |}.

(** [MySky.setEntryData] (lines 372-393).  The validations of [path], of the
    type of [data] and of the options hold by typing. *)
Definition MySky_setEntryData (path : string) (d : Uint8Array)
    (customOptions : Options) : M Uint8Array :=
  if (MAX_ENTRY_LENGTH <? List.length d)%nat then throw (ValidationError "data")
  else
    publicKey <- await UserID mysky_userID ;;
    let dataKey := deriveDiscoverableFileTweak path in
    (* Do not hash the tweak anymore. *)
    let opts := with_hashedDataKeyHex customOptions in
    e <- getNextRegistryEntry publicKey dataKey d opts ;;
    sig <- await (SignRegistryEntry e path) (mysky_signRegistryEntry e path) ;;
    _ <- postSignedEntry publicKey e sig opts ;;
    ret (data e).

End Client.

(** ** A reference environment

    Executable stand-ins for the imported helpers, so that the model can be
    run on concrete inputs.  The encodings are the obvious ones; the
    signature scheme is a test double with the interface of tweetnacl (a
    64-byte secret key ending in the 32-byte public key, [sign] returning the
    64-byte signature followed by the message, [sign.detached.verify]
    rejecting signatures that are not 64 bytes long). *)
Module Reference.

Definition hex_value (c : ascii) : option N :=
  let n := N_of_ascii c in
  (if (48 <=? n) && (n <=? 57) then Some (n - 48)
   else if (97 <=? n) && (n <=? 102) then Some (n - 87)
   else if (65 <=? n) && (n <=? 70) then Some (n - 55)
   else None)%N.

Fixpoint isHexString (s : string) : bool :=
  match s with
  | EmptyString => true
  | String c s' =>
      match hex_value c with
      | Some _ => isHexString s'
      | None => false
      end
  end.

Definition byte_of (n : N) : byte :=
  match Byte.of_N n with
  | Some b => b
  | None => x00
  end.

Fixpoint hex_decode (s : string) : option Uint8Array :=
  match s with
  | EmptyString => Some []
  | String a EmptyString => option_map (fun x => [byte_of x]) (hex_value a)
  | String a (String b s') =>
      match hex_value a, hex_value b, hex_decode s' with
      | Some x, Some y, Some r => Some (byte_of (16 * x + y) :: r)
      | _, _, _ => None
      end
  end.

Definition hexToUint8Array (s : string) : Result Uint8Array :=
  match hex_decode s with
  | Some b => Ok b
  | None => Throw (ValidationError "str")
  end.

Fixpoint toHexString (b : Uint8Array) : string :=
  match b with
  | [] => EmptyString
  | x :: b' =>
      let n := N.to_nat (Byte.to_N x) in
      String (hex_digit (n / 16)) (String (hex_digit (n mod 16)) (toHexString b'))
  end.

Definition trimPrefix (s p : string) : string :=
  match strip_prefix p s with
  | Some r => r
  | None => s
  end.

Definition ensurePrefix (s p : string) : string :=
  match strip_prefix p s with
  | Some _ => s
  | None => (p ++ s)%string
  end.

Definition stringToUint8ArrayUtf8 (s : string) : Uint8Array :=
  map byte_of_ascii (list_ascii_of_string s).

Definition uint8ArrayToStringUtf8 (b : Uint8Array) : string :=
  string_of_list_ascii (map ascii_of_byte b).

Definition makeUrl (base path : string) : string := (base ++ path)%string.

Definition addUrlQuery (url : string) (query : list (string * json)) : string :=
  (url ++ "?" ++
   join "&" (map (fun kv =>
                    fst kv ++ "=" ++
                    match snd kv with
                    | JStr s => s
                    | v => JSON_stringify v
                    end) query))%string.

Definition pad (n : nat) (b : Uint8Array) : Uint8Array :=
  firstn n (b ++ repeat x00 n).

Definition hashDataKey (k : string) : Uint8Array :=
  pad 32 (stringToUint8ArrayUtf8 k).

Definition hashRegistryEntry (e : RegistryEntry) (hashed : bool) : Result Uint8Array :=
  Ok (pad 32 (byte_of (Z.to_N (revision e) mod 256) :: data e)).

Definition detached (msg publicKey : Uint8Array) : Uint8Array :=
  pad 64 (publicKey ++ msg).

Definition nacl_sign (msg secretKey : Uint8Array) : Result Uint8Array :=
  if (List.length secretKey =? 64)%nat
  then Ok (detached msg (skipn 32 secretKey) ++ msg)
  else Throw (BuiltinError "bad secret key size").

Definition nacl_sign_detached_verify (msg sig publicKey : Uint8Array) : Result bool :=
  if negb (List.length sig =? 64)%nat then Throw (BuiltinError "bad signature size")
  else if negb (List.length publicKey =? 32)%nat
  then Throw (BuiltinError "bad public key size")
  else Ok (areEqualUint8Arrays sig (detached msg publicKey)).

Definition nacl_sign_keyPair_fromSecretKey (secretKey : Uint8Array) : Result Uint8Array :=
  if (List.length secretKey =? 64)%nat then Ok (skipn 32 secretKey)
  else Throw (BuiltinError "bad secret key size").

Definition URI_SKYNET_PREFIX : string := "sia:".

Definition formatSkylink (s : string) : string := ensurePrefix s URI_SKYNET_PREFIX.

Definition decodeSkylink (s : string) : Result Uint8Array :=
  hexToUint8Array (trimPrefix s URI_SKYNET_PREFIX).

(** A skylink string: the encoding of 34 bytes, with or without the prefix. *)
Definition validateSkylinkString (s : string) : Result string :=
  let bare := trimPrefix s URI_SKYNET_PREFIX in
  match hex_decode bare with
  | Some b =>
      if (List.length b =? RAW_SKYLINK_SIZE)%nat then Ok bare
      else Throw (ValidationError "cachedDataLink")
  | None => Throw (ValidationError "cachedDataLink")
  end.

Fixpoint parse_decimal (acc : Z) (s : string) : option Z :=
  match s with
  | EmptyString => Some acc
  | String c s' =>
      if is_digit c
      then parse_decimal (10 * acc + Z.of_nat (nat_of_ascii c - 48)) s'
      else None
  end.

Definition BigInt (s : string) : Result Z :=
  match parse_decimal 0 s with
  | Some z => Ok z
  | None => Throw (BuiltinError "SyntaxError")
  end.

Fixpoint until_quote (s : string) : option (string * string) :=
  match s with
  | EmptyString => None
  | String c s' =>
      if Ascii.eqb c QUOTE then Some (EmptyString, s')
      else
        match until_quote s' with
        | Some (a, r) => Some (String c a, r)
        | None => None
        end
  end.

(** The fields of a flat object whose values are strings without escapes. *)
Fixpoint parse_fields (fuel : nat) (s : string) : option (list (string * json)) :=
  match fuel, s with
  | S fuel', String q s1 =>
      if Ascii.eqb q QUOTE then
        match until_quote s1 with
        | Some (k, String ":" (String q2 s2)) =>
            if Ascii.eqb q2 QUOTE then
              match until_quote s2 with
              | Some (v, String "," s3) =>
                  option_map (cons (k, JStr v)) (parse_fields fuel' s3)
              | Some (v, String "}" EmptyString) => Some [(k, JStr v)]
              | _ => None
              end
            else None
        | _ => None
        end
      else None
  | _, _ => None
  end.

Definition JSON_parse (s : string) : option json :=
  match s with
  | String "{" s' => option_map JObj (parse_fields (String.length s) s')
  | _ => None
  end.

End Reference.

(** The environment with the given portal and delegate. *)
Definition reference_env (get : string -> AxiosOutcome)
    (post : string -> string -> option AxiosError)
    (upload : File -> Result string) (download : string -> Result json)
    (userID : Result string)
    (signRegistryEntry : RegistryEntry -> string -> Result Uint8Array)
    (sched : list bool) : External :=
  {| isHexString := Reference.isHexString;
     hexToUint8Array := Reference.hexToUint8Array;
     toHexString := Reference.toHexString;
     trimPrefix := Reference.trimPrefix;
     ensurePrefix := Reference.ensurePrefix;
     trimUriPrefix := Reference.trimPrefix;
     stringToUint8ArrayUtf8 := Reference.stringToUint8ArrayUtf8;
     uint8ArrayToStringUtf8 := Reference.uint8ArrayToStringUtf8;
     URI_SKYNET_PREFIX := Reference.URI_SKYNET_PREFIX;
     makeUrl := Reference.makeUrl;
     addUrlQuery := Reference.addUrlQuery;
     hashDataKey := Reference.hashDataKey;
     hashRegistryEntry := Reference.hashRegistryEntry;
     nacl_sign := Reference.nacl_sign;
     nacl_sign_detached_verify := Reference.nacl_sign_detached_verify;
     nacl_sign_keyPair_fromSecretKey := Reference.nacl_sign_keyPair_fromSecretKey;
     encodeSkylinkBase64 := Reference.toHexString;
     decodeSkylinkBase64 := Reference.hexToUint8Array;
     decodeSkylink := Reference.decodeSkylink;
     formatSkylink := Reference.formatSkylink;
     validateSkylinkString := Reference.validateSkylinkString;
     BigInt := Reference.BigInt;
     JSON_parse := Reference.JSON_parse;
     deriveDiscoverableFileTweak := fun path => Reference.toHexString (Reference.hashDataKey path);
     portalUrl := "https://siasky.net";
     portal_get := get;
     portal_post := post;
     uploadFile := upload;
     getFileContent := download;
     mysky_userID := userID;
     mysky_signRegistryEntry := signRegistryEntry;
     schedule := sched |}.

(** ** A concrete environment for the runs *)

Module Example.

Fixpoint repeat_string (s : string) (n : nat) : string :=
  match n with
  | O => EmptyString
  | S n' => (s ++ repeat_string s n')%string
  end.

(** A 64-byte secret key (in hex) and its public key. *)
Definition publicKey : string := repeat_string "11" 32.
Definition privateKey : string := (repeat_string "00" 32 ++ publicKey)%string.

Definition publicKeyArray : Uint8Array := repeat x11 32.

(** An entry under the data key ["app"]. *)
Definition stored (d : Uint8Array) (rev : Z) : RegistryEntry :=
  {| dataKey := "app"; data := d; revision := rev |}.

Definition digest (e : RegistryEntry) : Uint8Array :=
  match Reference.hashRegistryEntry e false with
  | Ok h => h
  | Throw _ => []
  end.

(** The response body of the portal for an entry and a signature. *)
Definition response_body (e : RegistryEntry) (sig : Uint8Array) : string :=
  JSON_stringify
    (JObj [ ("data", JStr (Reference.toHexString (data e)));
            ("revision", JNum (revision e));
            ("signature", JStr (Reference.toHexString sig)) ]).

(** The portal serves the entry with its valid signature. *)
Definition served (e : RegistryEntry) : AxiosOutcome :=
  Fulfilled (Some (response_body e (Reference.detached (digest e) publicKeyArray))).

(** The portal serves the entry with the signature of another entry. *)
Definition tampered (e other : RegistryEntry) : AxiosOutcome :=
  Fulfilled (Some (response_body e (Reference.detached (digest other) publicKeyArray))).

Definition failing (code : Z) : AxiosError :=
  {| response := Some {| status := Some code |} |}.

Definition not_found : AxiosOutcome := Rejected (failing 404).

Definition skylink : Uint8Array := repeat xab 34.
Definition skylink_string : string := repeat_string "ab" 34.

(** The environment in which the registry GET has the given outcome and a
    download returns the given payload; uploads return [skylink]. *)
Definition env (get : AxiosOutcome) (payload : json) (sched : list bool) : External :=
  reference_env (fun _ => get) (fun _ _ => None)
    (fun _ => Ok ("sia:" ++ skylink_string)%string)
    (fun _ => Ok payload)
    (Ok publicKey)
    (fun e _ => Ok (Reference.detached (digest e) publicKeyArray))
    sched.

(** The environment in which the registry GET and the upload both fail,
    with the given statuses. *)
Definition offline (get_status upload_status : Z) : External :=
  reference_env (fun _ => Rejected (failing get_status)) (fun _ _ => None)
    (fun _ => Throw (Thrown (failing upload_status)))
    (fun _ => Ok JNull)
    (Ok publicKey)
    (fun e _ => Ok (Reference.detached (digest e) publicKeyArray))
    [].

Definition url : string :=
  ("https://siasky.net/skynet/registry?publickey=ed25519:" ++ publicKey
   ++ "&datakey=" ++ Reference.toHexString (Reference.hashDataKey "app")
   ++ "&timeout=5")%string.

Definition with_cached (c : string) : Options :=
  {| hashedDataKeyHex := false;
     cachedDataLink := Some c;
     endpointGetEntry := "/skynet/registry";
     endpointSetEntry := "/skynet/registry" |}.

End Example.

(** ** Notions used in the statements *)

(** An event of the registry endpoints (GET or POST of an entry). *)
Definition registry_event (ev : Event) : Prop :=
  match ev with
  | Start (RegistryGet _) | Done (RegistryGet _)
  | Start (RegistryPost _ _) | Done (RegistryPost _ _) => True
  | _ => False
  end.

Definition registry_only (t : list Event) : Prop := Forall registry_event t.

(** A payload that has both keys, with the falsy version number 0. *)
Definition wrapper_v0 : json :=
  JObj [ ("_data", JObj [ ("a", JNum 1) ]); ("_v", JNum 0) ].

Fixpoint all_digits (s : string) : bool :=
  match s with
  | EmptyString => true
  | String c s' => is_digit c && all_digits s'
  end.

Fixpoint all_spaces (s : string) : bool :=
  match s with
  | EmptyString => true
  | String c s' => is_space c && all_spaces s'
  end.

(** The request payload with the revision as a JSON number: what the portal
    is meant to receive. *)
Definition post_data_number (key : Uint8Array) (datakey : string) (rev : Z)
    (entryData sig : Uint8Array) : json :=
  JObj [ ("publickey", JObj [ ("algorithm", JStr "ed25519"); ("key", Array_from key) ]);
         ("datakey", JStr datakey);
         ("revision", JNum rev);
         ("data", Array_from entryData);
         ("signature", Array_from sig) ].

(** The body of a registry GET response (section 6 of the spec), with the
    revision as the given JSON value. *)
Definition entry_response (dataHex : string) (rev : json) (signatureHex : string) : json :=
  JObj [ ("data", JStr dataHex); ("revision", rev); ("signature", JStr signatureHex) ].

(** The data key as it goes over the wire: hashed and hex-encoded, unless
    the options say that it is a hex-encoded hash already. *)
Definition wire_datakey `{Ext : External} (dk : string) (opts : Options) : string :=
  if hashedDataKeyHex opts then dk else toHexString (hashDataKey dk).

(** The URL of the registry read for a public key and a data key as it goes
    over the wire. *)
Definition entry_url `{Ext : External} (publicKey datakey : string) (opts : Options)
  : string :=
  addUrlQuery (makeUrl portalUrl (endpointGetEntry opts))
    [ ("publickey", JStr (ensurePrefix publicKey ED25519_PREFIX));
      ("datakey", JStr datakey);
      ("timeout", JNum DEFAULT_GET_ENTRY_TIMEOUT) ].

(** The events of one registry read and of one registry write. *)
Definition GET (url : string) : list Event :=
  [Start (RegistryGet url); Done (RegistryGet url)].

Definition POST (endpoint body : string) : list Event :=
  [Start (RegistryPost endpoint body); Done (RegistryPost endpoint body)].



Section TextNotions.

Local Open Scope string_scope.

(** No match of either regular expression starts where the text
    ["revision":] does not. *)
Definition no_key_at (s : string) : Prop := strip_prefix REVISION_KEY s = None.

Definition key_anchored (re : string -> option (string * string)) : Prop :=
  forall s, no_key_at s -> re s = None.

(** No occurrence of ["revision":] starts inside [t] when [rest] follows. *)
Fixpoint safe (t rest : string) : Prop :=
  match t with
  | EmptyString => True
  | String c t' => no_key_at (String c (t' ++ rest)) /\ safe t' rest
  end.

Fixpoint no_quote (s : string) : bool :=
  match s with
  | EmptyString => true
  | String c s' => negb (Ascii.eqb c QUOTE) && no_quote s'
  end.

(** A literal text inside which every attempt to read ["revision":] fails
    before the text ends. *)
Fixpoint mismatch_within (p s : string) : bool :=
  match p, s with
  | String a p', String b s' => if Ascii.eqb a b then mismatch_within p' s' else true
  | _, _ => false
  end.

Fixpoint safe_literal (t : string) : bool :=
  match t with
  | EmptyString => true
  | String c t' => mismatch_within REVISION_KEY t && safe_literal t'
  end.

Fixpoint plain (w : string) : bool :=
  match w with
  | EmptyString => true
  | String a w' =>
      negb (Ascii.eqb a QUOTE) && negb (Ascii.eqb a BACKSLASH) && plain w'
  end.

(** A quoted string with the comma after it: no occurrence of ["revision":]
    starts inside, whatever the string and whatever follows. *)
Definition quoted_then_comma (s : string) : string :=
  String QUOTE (escape_string s ++ String QUOTE ",").

(** The text of the request payload, cut where the revision stands. *)
Definition REQUEST_PREFIX : string :=
  "{" ++ quote_string "publickey" ++ ":{" ++ quote_string "algorithm" ++ ":"
  ++ quote_string "ed25519" ++ "," ++ quote_string "key" ++ ":".

Definition REQUEST_MIDDLE : string := "}," ++ quote_string "datakey" ++ ":".

Definition request_head (key : Uint8Array) (datakey : string) : string :=
  REQUEST_PREFIX ++ JSON_stringify (Array_from key) ++ REQUEST_MIDDLE
  ++ quoted_then_comma datakey.

Definition request_tail (entryData sig : Uint8Array) : string :=
  "," ++ quote_string "data" ++ ":" ++ JSON_stringify (Array_from entryData)
  ++ "," ++ quote_string "signature" ++ ":" ++ JSON_stringify (Array_from sig) ++ "}".

Definition RESPONSE_PREFIX : string := "{" ++ quote_string "data" ++ ":".

Definition response_tail (signatureHex : string) : string :=
  "," ++ quote_string "signature" ++ ":" ++ quote_string signatureHex ++ "}".

(** *** The two regular expressions, as relations on texts *)

Definition starts_with_digit (s : string) : bool :=
  match s with
  | String c _ => is_digit c
  | EmptyString => false
  end.

(** [x] starts with a match of [/"revision":\s*"([0-9]+)"/]: the key, white
    space, and in quotes the digits [d]; [post] is what follows the match. *)
Definition WITH_QUOTES_at (x d post : string) : Prop :=
  exists ws,
    x = REVISION_KEY ++ ws ++ String QUOTE (d ++ String QUOTE post)
    /\ all_spaces ws = true /\ all_digits d = true /\ d <> "".

(** [x] starts with a match of [/"revision":\s*([0-9]+)/]: the key, white
    space, and the digits [d], as many as there are; [post] is what follows
    the match. *)
Definition NO_QUOTES_at (x d post : string) : Prop :=
  exists ws,
    x = REVISION_KEY ++ ws ++ d ++ post
    /\ all_spaces ws = true /\ all_digits d = true /\ d <> ""
    /\ starts_with_digit post = false.

Definition matches_WITH_QUOTES (x : string) : Prop :=
  exists d post, WITH_QUOTES_at x d post.

Definition matches_NO_QUOTES (x : string) : Prop :=
  exists d post, NO_QUOTES_at x d post.

(** No match starts anywhere in [s]. *)
Definition no_match (matches : string -> Prop) (s : string) : Prop :=
  forall p q, s = p ++ q -> ~ matches q.

(** No match starts inside [pre] when [x] follows: a match at the start of
    [x] is the leftmost one of [pre ++ x]. *)
Definition no_earlier_match (matches : string -> Prop) (pre x : string) : Prop :=
  forall p q, pre = p ++ q -> q <> "" -> ~ matches (q ++ x).

(** The same, decided by trying every position of [pre]. *)
Fixpoint no_match_starts_in (re : string -> option (string * string))
    (pre x : string) : bool :=
  match pre with
  | EmptyString => true
  | String _ pre' =>
      match re (pre ++ x) with
      | None => no_match_starts_in re pre' x
      | Some _ => false
      end
  end.

End TextNotions.

(** ** Raw bytes, the MySky methods and the file API *)

(** What [getRawBytes] returns. *)
Record RawBytesResponse := {
  raw_data : option Uint8Array;
  raw_dataLink : option string;
}.

(** What [getEntryData] returns. *)
Record EntryData := { entry_data : option Uint8Array }.

Section RawBytes.

Context `{Ext : External}.

(** [getFileContent] with [responseType: "arraybuffer"]: the bytes of the
    file at the link. *)
Variable getFileContent_arraybuffer : string -> Result Uint8Array.

(** [getRawBytes] ([skydb.js], lines 184-212). *)
Definition getRawBytes (publicKey dataKey : string) (customOptions : Options)
  : M RawBytesResponse :=
  let opts := customOptions in
  (* Lookup the registry entry. *)
  found <- getSkyDBRegistryEntry publicKey dataKey opts ;;
  match found with
  | None => ret {| raw_data := None; raw_dataLink := None |}
  | Some e =>
      (* Determine the data link. *)
      links <- lift (parseDataLink (data e) false) ;;
      let '(rawDataLink, link) := links in
      (* If a cached data link is provided and the data link hasn't changed, return. *)
      unchanged <- lift (checkCachedDataLink rawDataLink (cachedDataLink opts)) ;;
      if unchanged then ret {| raw_data := None; raw_dataLink := Some link |}
      else
        (* Download the data in the returned data link. *)
        buffer <- await (Download link) (getFileContent_arraybuffer link) ;;
        ret {| raw_data := Some buffer; raw_dataLink := Some link |}
  end.

End RawBytes.

Section MySkyMethods.

Context `{Ext : External}.

(** [MySky.getJSON] ([mysky/index.js], lines 225-237). *)
Definition MySky_getJSON (path : string) (customOptions : Options) : M JSONResponse :=
  publicKey <- await UserID mysky_userID ;;
  let dataKey := deriveDiscoverableFileTweak path in
  (* Do not hash the tweak anymore. *)
  let opts := with_hashedDataKeyHex customOptions in
  getJSON publicKey dataKey opts.

(** [MySky.setJSON] ([mysky/index.js], lines 263-279). *)
Definition MySky_setJSON (path : string) (j : json) (customOptions : Options)
  : M JSONResponse :=
  _ <- lift (validateObject "json" j) ;;
  publicKey <- await UserID mysky_userID ;;
  let dataKey := deriveDiscoverableFileTweak path in
  (* Do not hash the tweak anymore. *)
  let opts := with_hashedDataKeyHex customOptions in
  created <- getOrCreateRegistryEntry publicKey dataKey j opts ;;
  let '(e, link) := created in
  sig <- await (SignRegistryEntry e path) (mysky_signRegistryEntry e path) ;;
  _ <- postSignedEntry publicKey e sig opts ;;
  ret {| json_data := Some j; dataLink := Some link |}.

(** [MySky.setDataLink] ([mysky/index.js], lines 290-306). *)
Definition MySky_setDataLink (path link : string) (customOptions : Options) : M unit :=
  publicKey <- await UserID mysky_userID ;;
  let dataKey := deriveDiscoverableFileTweak path in
  (* Do not hash the tweak anymore. *)
  let opts := with_hashedDataKeyHex customOptions in
  raw <- lift (decodeSkylink link) ;;
  e <- getNextRegistryEntry publicKey dataKey raw opts ;;
  sig <- await (SignRegistryEntry e path) (mysky_signRegistryEntry e path) ;;
  postSignedEntry publicKey e sig opts.

(** [MySky.deleteJSON] ([mysky/index.js], lines 318-334). *)
Definition MySky_deleteJSON (path : string) (customOptions : Options) : M unit :=
  publicKey <- await UserID mysky_userID ;;
  let dataKey := deriveDiscoverableFileTweak path in
  (* Do not hash the tweak anymore. *)
  let opts := with_hashedDataKeyHex customOptions in
  e <- getNextRegistryEntry publicKey dataKey (new_Uint8Array RAW_SKYLINK_SIZE) opts ;;
  sig <- await (SignRegistryEntry e path) (mysky_signRegistryEntry e path) ;;
  postSignedEntry publicKey e sig opts.

(** [MySky.getEntryData] ([mysky/index.js], lines 344-360). *)
Definition MySky_getEntryData (path : string) (customOptions : Options) : M EntryData :=
  publicKey <- await UserID mysky_userID ;;
  let dataKey := deriveDiscoverableFileTweak path in
  (* Do not hash the tweak anymore. *)
  let opts := with_hashedDataKeyHex customOptions in
  signedEntry <- getEntry publicKey dataKey opts ;;
  match entry signedEntry with
  | None => ret {| entry_data := None |}
  | Some e => ret {| entry_data := Some (data e) |}
  end.

(** [getJSON] of the file API ([file.js], lines 19-31). *)
Definition file_getJSON (userID path : string) (customOptions : Options)
  : M JSONResponse :=
  let dataKey := deriveDiscoverableFileTweak path in
  (* Do not hash the tweak anymore. *)
  let opts := with_hashedDataKeyHex customOptions in
  getJSON userID dataKey opts.

(** [getEntryData] of the file API ([file.js], lines 63-79). *)
Definition file_getEntryData (userID path : string) (customOptions : Options)
  : M EntryData :=
  let dataKey := deriveDiscoverableFileTweak path in
  (* Do not hash the tweak anymore. *)
  let opts := with_hashedDataKeyHex customOptions in
  signedEntry <- getEntry userID dataKey opts ;;
  match entry signedEntry with
  | None => ret {| entry_data := None |}
  | Some e => ret {| entry_data := Some (data e) |}
  end.

End MySkyMethods.

(** The wrapper that [getOrCreateRegistryEntry] uploads around the JSON. *)
Definition fullData (j : json) : json :=
  JObj [ ("_data", j); ("_v", JNum JSON_RESPONSE_VERSION) ].

(** No registry write occurs in the trace. *)
Definition no_post (t : list Event) : Prop :=
  forall endpoint body, ~ In (Start (RegistryPost endpoint body)) t.

(** Every registry write in the trace comes after the MySky delegate has
    answered a [signRegistryEntry] call for the path with a signature, and
    carries the public key of the user, that entry and that signature. *)
Definition signed_by_delegate `{Ext : External} (path : string) (t : list Event) : Prop :=
  forall pre endpoint body post,
    t = pre ++ Start (RegistryPost endpoint body) :: post ->
    exists userID e sig key,
      mysky_userID = Ok userID
      /\ hexToUint8Array userID = Ok key
      /\ mysky_signRegistryEntry e path = Ok sig
      /\ In (Done (SignRegistryEntry e path)) pre
      /\ dataKey e = deriveDiscoverableFileTweak path
      /\ body = transformRequest
                  (post_data key (dataKey e) (revision e) (data e) sig).

(** ** The client and its portal URL ([client.js]) *)

(** The fields of a request configuration that [resolvePortalUrl] sets. *)
Record RequestConfig := {
  config_method : string;
  config_url : string;
  config_endpointPath : string;
}.

(** The response to the request of [resolvePortalUrl]: its headers, when it
    has any. *)
Record PortalResponse := { response_headers : option (list (string * string)) }.

Inductive ClientError : Type :=
| RequestFailed (err : AxiosError)
| NoHeaders
| NoPortalUrl.

(** A settled promise. *)
Inductive Settled (A : Type) : Type :=
| FulfilledWith (a : A)
| RejectedWith (e : ClientError).
Arguments FulfilledWith {A} a.
Arguments RejectedWith {A} e.

(** The fields of a [SkynetClient] that its portal URL depends on. *)
Record SkynetClient := {
  customPortalUrl : option string;
  initialPortalUrl : string;
}.

(** The static field [SkynetClient.resolvedPortalUrl]: unset, or the promise
    of the resolved URL, shared by all clients. *)
Definition Static : Type := option (Settled string).

(** A method of the client: it reads and writes the static field and makes
    requests. *)
Definition ClientM (A : Type) : Type :=
  Static -> Settled A * Static * list RequestConfig.

(** A string that is set and not empty. *)
Definition truthy_string (s : option string) : option string :=
  match s with
  | Some u => if String.eqb u "" then None else Some u
  | None => None
  end.

Section ClientJs.

(** [defaultPortalUrl()] of [utils/url] and [trimSuffix] of [utils/string]. *)
Variable defaultPortalUrl : string.
Variable trimSuffix : string -> string -> string.

(** What [this.executeRequest(config)] settles with. *)
Variable executeRequest : RequestConfig -> Settled PortalResponse.

(** The constructor (lines 23-85), as far as the portal URL goes. *)
Definition new_SkynetClient (initial : string) : SkynetClient :=
  if String.eqb initial "" then
    (* Portal was not given, use the default portal URL. *)
    {| customPortalUrl := None; initialPortalUrl := defaultPortalUrl |}
  else
    (* Portal was given, don't make the request for the resolved portal URL. *)
    {| customPortalUrl := Some initial; initialPortalUrl := initial |}.

(** [resolvePortalUrl] (lines 168-183). *)
Definition resolvePortalUrl (c : SkynetClient) : Settled string * list RequestConfig :=
  let config :=
    {| config_method := "head";
       config_url := initialPortalUrl c;
       config_endpointPath := "/" |} in
  (match executeRequest config with
   | RejectedWith e => RejectedWith e
   | FulfilledWith response =>
       match response_headers response with
       | None => RejectedWith NoHeaders
       | Some headers =>
           match truthy_string (assoc "skynet-portal-api" headers) with
           | None => RejectedWith NoPortalUrl
           | Some portalUrl => FulfilledWith (trimSuffix portalUrl "/")
           end
       end
   end, [config]).

(** [initPortalUrl] (lines 92-102). *)
Definition initPortalUrl (c : SkynetClient) : ClientM unit := fun resolved =>
  match truthy_string (customPortalUrl c) with
  | Some _ => (FulfilledWith tt, resolved, [])
  | None =>
      let '(resolved', t) :=
        match resolved with
        | None => let '(r, t) := resolvePortalUrl c in (Some r, t)
        | Some _ => (resolved, [])
        end in
      (* await SkynetClient.resolvedPortalUrl *)
      (match resolved' with
       | Some (RejectedWith e) => RejectedWith e
       | _ => FulfilledWith tt
       end, resolved', t)
  end.

(** [portalUrl] (lines 109-116).  The result is [None] for [undefined]. *)
Definition SkynetClient_portalUrl (c : SkynetClient) : ClientM (option string) :=
  fun resolved =>
  match truthy_string (customPortalUrl c) with
  | Some u => (FulfilledWith (Some u), resolved, [])
  | None =>
      (* Make the request if needed and not done so. *)
      let '(r, resolved', t) := initPortalUrl c resolved in
      match r with
      | RejectedWith e => (RejectedWith e, resolved', t)
      | FulfilledWith _ =>
          (match resolved' with
           | Some (FulfilledWith u) => FulfilledWith (Some u)
           | Some (RejectedWith e) => RejectedWith e
           | None => FulfilledWith None
           end, resolved', t)
      end
  end.

(** What awaiting the shared promise gives. *)
Definition awaited (r : Settled string) : Settled (option string) :=
  match r with
  | FulfilledWith u => FulfilledWith (Some u)
  | RejectedWith e => RejectedWith e
  end.

(** Calls of [portalUrl] on a sequence of clients, one after the other. *)
Fixpoint portalUrl_calls (cs : list SkynetClient) (resolved : Static)
  : list (Settled (option string)) * Static * list RequestConfig :=
  match cs with
  | [] => ([], resolved, [])
  | c :: cs' =>
      let '(r, resolved1, t1) := SkynetClient_portalUrl c resolved in
      let '(rs, resolved2, t2) := portalUrl_calls cs' resolved1 in
      (r :: rs, resolved2, t1 ++ t2)
  end.

End ClientJs.

(** * Properties *)

(** ** The monad *)

Lemma bind_Ok_inv {A B} (m : M A) (f : A -> M B) (b : B) (t : list Event) :
  bind m f = (Ok b, t) ->
  exists a t1 t2, m = (Ok a, t1) /\ f a = (Ok b, t2) /\ t = t1 ++ t2.
Proof.
  unfold bind. destruct m as [[a | e] t1].
  - destruct (f a) as [r t2] eqn:Hf. intros H. inversion H; subst.
    exists a, t1, t2. auto.
  - discriminate.
Qed.

Lemma bind_Ok {A B} (m : M A) (f : A -> M B) (a : A) (t : list Event) :
  m = (Ok a, t) -> bind m f = (fst (f a), t ++ snd (f a)).
Proof. intros ->. unfold bind. destruct (f a); reflexivity. Qed.

Lemma bind_Throw {A B} (m : M A) (f : A -> M B) (e : Error) (t : list Event) :
  m = (Throw e, t) -> bind m f = (Throw e, t).
Proof. intros ->. reflexivity. Qed.

Lemma bind_lift_Ok {A B} (r : Result A) (f : A -> M B) (a : A) :
  r = Ok a -> bind (lift r) f = f a.
Proof. intros ->. unfold bind, lift. destruct (f a); reflexivity. Qed.

Lemma bind_lift_Throw {A B} (r : Result A) (f : A -> M B) (e : Error) :
  r = Throw e -> bind (lift r) f = (Throw e, []).
Proof. intros ->. reflexivity. Qed.

Lemma lift_Ok_inv {A} (r : Result A) (a : A) (t : list Event) :
  lift r = (Ok a, t) -> r = Ok a /\ t = [].
Proof. unfold lift. intros H. inversion H. auto. Qed.

Lemma fst_bind_Ok_inv {A B} (m : M A) (f : A -> M B) (b : B) :
  fst (bind m f) = Ok b -> exists a, fst m = Ok a /\ fst (f a) = Ok b.
Proof.
  destruct (bind m f) as [r t] eqn:Hb. simpl. intros ->.
  apply bind_Ok_inv in Hb as (a & t1 & t2 & Hm & Hf & _).
  exists a. rewrite Hm, Hf. auto.
Qed.

(** ** Revisions *)

Lemma MAX_REVISION_value : MAX_REVISION = 18446744073709551615.
Proof. reflexivity. Qed.

Lemma getNextRevisionFromEntry_absent : getNextRevisionFromEntry None = Ok 0.
Proof. reflexivity. Qed.

Lemma getNextRevisionFromEntry_present e :
  revision e < 2 ^ 64 - 1 ->
  getNextRevisionFromEntry (Some e) = Ok (revision e + 1).
Proof.
  change (2 ^ 64 - 1) with MAX_REVISION. unfold getNextRevisionFromEntry. intros He.
  destruct (Z.ltb_spec MAX_REVISION (revision e + 1)); [lia | reflexivity].
Qed.

Lemma getNextRevisionFromEntry_exhausted e :
  revision e = 2 ^ 64 - 1 ->
  getNextRevisionFromEntry (Some e) = Throw RevisionExhausted.
Proof.
  change (2 ^ 64 - 1) with MAX_REVISION. unfold getNextRevisionFromEntry. intros He.
  destruct (Z.ltb_spec MAX_REVISION (revision e + 1)); [reflexivity | lia].
Qed.

(** ** The registry read *)

Section RegistryRead.

Context `{Ext : External}.

Lemma getEntry_rejected pk dk opts url err :
  getEntryUrl pk dk opts = Ok url ->
  portal_get url = Rejected err ->
  getEntry pk dk opts
  = (handleGetEntryErrResponse err, [Start (RegistryGet url); Done (RegistryGet url)]).
Proof.
  intros Hurl Hget. unfold getEntry.
  rewrite (bind_lift_Ok _ _ _ Hurl).
  unfold await, bind. rewrite Hget. unfold lift.
  rewrite app_nil_r. reflexivity.
Qed.

Lemma getEntry_fulfilled pk dk opts url body :
  getEntryUrl pk dk opts = Ok url ->
  portal_get url = Fulfilled body ->
  getEntry pk dk opts
  = (match signedEntryOfResponse dk (transformResponse body) with
     | Throw err => Throw err
     | Ok (e, sig) =>
         match verifySignedEntry pk e sig (hashedDataKeyHex opts) with
         | Throw err => Throw err
         | Ok true => Ok {| entry := Some e; signature := Some sig |}
         | Ok false => Throw IntegrityError
         end
     end, [Start (RegistryGet url); Done (RegistryGet url)]).
Proof.
  intros Hurl Hget. unfold getEntry.
  rewrite (bind_lift_Ok _ _ _ Hurl).
  unfold await, bind. rewrite Hget. unfold lift, ret, throw.
  destruct (signedEntryOfResponse dk (transformResponse body)) as [[e sig] | err];
    [| reflexivity].
  destruct (verifySignedEntry pk e sig (hashedDataKeyHex opts)) as [[|] | err];
    reflexivity.
Qed.

Lemma getEntry_no_url pk dk opts err :
  getEntryUrl pk dk opts = Throw err ->
  getEntry pk dk opts = (Throw err, []).
Proof. intros Hurl. unfold getEntry. now rewrite (bind_lift_Throw _ _ _ Hurl). Qed.

(** [getEntry] issues at most one request: the GET of the entry URL. *)
Lemma getEntry_trace pk dk opts :
  snd (getEntry pk dk opts) = []
  \/ exists url, getEntryUrl pk dk opts = Ok url
       /\ snd (getEntry pk dk opts) = [Start (RegistryGet url); Done (RegistryGet url)].
Proof.
  destruct (getEntryUrl pk dk opts) as [url | err] eqn:Hurl.
  - right. exists url. split; [reflexivity |].
    destruct (portal_get url) as [body | e] eqn:Hget.
    + now rewrite (getEntry_fulfilled _ _ _ _ _ Hurl Hget).
    + now rewrite (getEntry_rejected _ _ _ _ _ Hurl Hget).
  - left. now rewrite (getEntry_no_url _ _ _ _ Hurl).
Qed.

(** C3 (verification on read).  On a successful (2xx) response of the
    registry GET, [getEntry] builds the entry from the response, recomputes
    its digest and checks the returned signature against the given public
    key.  It returns a signed entry only when that check succeeded, and that
    entry is the verified one; when the check fails it throws the integrity
    error. *)
Theorem getEntry_returns_only_verified pk dk opts url body :
  getEntryUrl pk dk opts = Ok url ->
  portal_get url = Fulfilled body ->
  (forall signedEntry,
      fst (getEntry pk dk opts) = Ok signedEntry ->
      exists e sig digest publicKeyArray,
        signedEntryOfResponse dk (transformResponse body) = Ok (e, sig)
        /\ signedEntry = {| entry := Some e; signature := Some sig |}
        /\ hashRegistryEntry e (hashedDataKeyHex opts) = Ok digest
        /\ hexToUint8Array pk = Ok publicKeyArray
        /\ nacl_sign_detached_verify digest sig publicKeyArray = Ok true)
  /\ (forall e sig digest publicKeyArray,
        signedEntryOfResponse dk (transformResponse body) = Ok (e, sig) ->
        hashRegistryEntry e (hashedDataKeyHex opts) = Ok digest ->
        hexToUint8Array pk = Ok publicKeyArray ->
        nacl_sign_detached_verify digest sig publicKeyArray = Ok false ->
        fst (getEntry pk dk opts) = Throw IntegrityError)
  /\ (forall e sig digest publicKeyArray,
        signedEntryOfResponse dk (transformResponse body) = Ok (e, sig) ->
        hashRegistryEntry e (hashedDataKeyHex opts) = Ok digest ->
        hexToUint8Array pk = Ok publicKeyArray ->
        nacl_sign_detached_verify digest sig publicKeyArray = Ok true ->
        fst (getEntry pk dk opts) = Ok {| entry := Some e; signature := Some sig |}).
Proof.
  intros Hurl Hget. rewrite (getEntry_fulfilled _ _ _ _ _ Hurl Hget). simpl fst.
  split; [| split].
  - intros signedEntry H.
    destruct (signedEntryOfResponse dk (transformResponse body))
      as [[e sig] | err] eqn:Hs; [| discriminate].
    unfold verifySignedEntry in H.
    destruct (hashRegistryEntry e (hashedDataKeyHex opts)) as [digest | err] eqn:Hh;
      [| discriminate].
    destruct (hexToUint8Array pk) as [pka | err] eqn:Hp; [| discriminate].
    destruct (nacl_sign_detached_verify digest sig pka) as [[|] | err] eqn:Hv;
      try discriminate.
    inversion H; subst. exists e, sig, digest, pka. auto.
  - intros e sig digest pka Hs Hh Hp Hv. rewrite Hs.
    unfold verifySignedEntry. rewrite Hh, Hp, Hv. reflexivity.
  - intros e sig digest pka Hs Hh Hp Hv. rewrite Hs.
    unfold verifySignedEntry. rewrite Hh, Hp, Hv. reflexivity.
Qed.


(** C4 (not found is not an error).  When the portal answers the registry
    GET with status 404, [getEntry] returns [{entry: null, signature: null}];
    when it answers with any other failing status, [getEntry] throws the
    very error it received.  In both cases the GET is the only request
    made. *)
Theorem getEntry_not_found_or_propagated pk dk opts url err r :
  getEntryUrl pk dk opts = Ok url ->
  portal_get url = Rejected err ->
  response err = Some r ->
  (status r = Some 404 ->
   getEntry pk dk opts
   = (Ok {| entry := None; signature := None |},
      [Start (RegistryGet url); Done (RegistryGet url)]))
  /\ (forall s, status r = Some s -> s <> 0 -> s <> 404 ->
      getEntry pk dk opts
      = (Throw (Thrown err), [Start (RegistryGet url); Done (RegistryGet url)])).
Proof.
  intros Hurl Hget Hr. rewrite (getEntry_rejected _ _ _ _ _ Hurl Hget).
  unfold handleGetEntryErrResponse. rewrite Hr. split.
  - intros ->. reflexivity.
  - intros s -> H0 H404.
    destruct (Z.eqb_spec s 0); [contradiction |].
    destruct (Z.eqb_spec s 404); [contradiction | reflexivity].
Qed.

End RegistryRead.

(** ** Traces *)

Lemma snd_bind {A B} (m : M A) (f : A -> M B) :
  snd (bind m f)
  = snd m ++ match fst m with
             | Ok a => snd (f a)
             | Throw _ => []
             end.
Proof.
  unfold bind. destruct m as [[a | e] t]; simpl.
  - destruct (f a); reflexivity.
  - now rewrite app_nil_r.
Qed.

Lemma fst_bind {A B} (m : M A) (f : A -> M B) :
  fst (bind m f)
  = match fst m with
    | Ok a => fst (f a)
    | Throw e => Throw e
    end.
Proof.
  unfold bind. destruct m as [[a | e] t]; simpl; [| reflexivity].
  destruct (f a); reflexivity.
Qed.

Lemma registry_only_bind {A B} (m : M A) (f : A -> M B) :
  registry_only (snd m) ->
  (forall a, registry_only (snd (f a))) ->
  registry_only (snd (bind m f)).
Proof.
  intros Hm Hf. rewrite snd_bind. apply Forall_app. split; [exact Hm |].
  destruct (fst m); [apply Hf | constructor].
Qed.

Lemma registry_only_lift {A} (r : Result A) : registry_only (snd (lift r)).
Proof. constructor. Qed.


Lemma areEqualUint8Arrays_eq (a b : Uint8Array) :
  areEqualUint8Arrays a b = true -> a = b.
Proof.
  revert b. induction a as [| x a IH]; intros [| y b]; simpl; try discriminate.
  - reflexivity.
  - intros H. apply andb_true_iff in H as [Hxy Hab].
    apply Byte.byte_dec_bl in Hxy. f_equal; auto.
Qed.

Section SkyDB.

Context `{Ext : External}.

Lemma registry_only_getEntry pk dk opts : registry_only (snd (getEntry pk dk opts)).
Proof.
  destruct (getEntry_trace pk dk opts) as [-> | (url & _ & ->)].
  - constructor.
  - repeat constructor.
Qed.

Lemma registry_only_postSignedEntry pk e sig opts :
  registry_only (snd (postSignedEntry pk e sig opts)).
Proof.
  unfold postSignedEntry.
  apply registry_only_bind; [apply registry_only_lift | intros _].
  apply registry_only_bind; [apply registry_only_lift | intros key].
  repeat constructor.
Qed.

Lemma signEntry_no_event sk e hashed : snd (signEntry sk e hashed) = [].
Proof.
  unfold signEntry, bind, lift.
  destruct (hexToUint8Array sk); [| reflexivity].
  destruct (hashRegistryEntry e hashed); reflexivity.
Qed.

Lemma registry_only_setEntry sk e opts : registry_only (snd (setEntry sk e opts)).
Proof.
  unfold setEntry.
  apply registry_only_bind; [apply registry_only_lift | intros _].
  apply registry_only_bind; [apply registry_only_lift | intros _].
  apply registry_only_bind; [apply registry_only_lift | intros ska].
  apply registry_only_bind; [rewrite signEntry_no_event; constructor | intros sig].
  apply registry_only_bind; [apply registry_only_lift | intros pka].
  apply registry_only_postSignedEntry.
Qed.

Lemma registry_only_getNextRegistryEntry pk dk d opts :
  registry_only (snd (getNextRegistryEntry pk dk d opts)).
Proof.
  unfold getNextRegistryEntry.
  apply registry_only_bind; [apply registry_only_getEntry | intros se].
  apply registry_only_bind; [apply registry_only_lift | intros rev]. constructor.
Qed.

(** The lookup of [getJSON]: the result of [getEntry], with the deletion
    sentinel turned into "not found"; no further request. *)
Lemma getSkyDBRegistryEntry_spec pk dk opts :
  getSkyDBRegistryEntry pk dk opts
  = (match fst (getEntry pk dk opts) with
     | Throw err => Throw err
     | Ok signedEntry =>
         match entry signedEntry with
         | None => Ok None
         | Some e =>
             if areEqualUint8Arrays (data e) EMPTY_SKYLINK then Ok None else Ok (Some e)
         end
     end, snd (getEntry pk dk opts)).
Proof.
  unfold getSkyDBRegistryEntry, bind, ret.
  destruct (getEntry pk dk opts) as [[se | err] t]; simpl; [| reflexivity].
  destruct (entry se) as [e |]; [| now rewrite app_nil_r].
  destruct (areEqualUint8Arrays (data e) EMPTY_SKYLINK); now rewrite app_nil_r.
Qed.

Lemma getJSON_not_found pk dk opts t :
  getSkyDBRegistryEntry pk dk opts = (Ok None, t) ->
  getJSON pk dk opts = (Ok {| json_data := None; dataLink := None |}, t).
Proof.
  intros H. unfold getJSON. rewrite (bind_Ok _ _ _ _ H). simpl.
  now rewrite app_nil_r.
Qed.

Lemma getJSON_found pk dk opts e t raw link :
  getSkyDBRegistryEntry pk dk opts = (Ok (Some e), t) ->
  parseDataLink (data e) true = Ok (raw, link) ->
  getJSON pk dk opts
  = match checkCachedDataLink raw (cachedDataLink opts) with
    | Throw err => (Throw err, t)
    | Ok true => (Ok {| json_data := None; dataLink := Some link |}, t)
    | Ok false =>
        (match getFileContent link with
         | Throw err => Throw err
         | Ok d => jsonOfDownload d link
         end, t ++ [Start (Download link); Done (Download link)])
    end.
Proof.
  intros H Hp. unfold getJSON. rewrite (bind_Ok _ _ _ _ H).
  rewrite (bind_lift_Ok _ _ _ Hp). cbv beta iota.
  destruct (checkCachedDataLink raw (cachedDataLink opts)) as [[|] | err].
  - simpl. now rewrite app_nil_r.
  - unfold await, bind, lift.
    destruct (getFileContent link) as [d | err]; simpl;
      now rewrite ?app_nil_r.
  - simpl. now rewrite app_nil_r.
Qed.

Lemma registry_only_no_upload t file :
  registry_only t -> ~ In (Start (Upload file)) t.
Proof.
  intros H Hin. unfold registry_only in H. rewrite Forall_forall in H.
  exact (H _ Hin).
Qed.

Lemma registry_only_no_download t link :
  registry_only t -> ~ In (Start (Download link)) t.
Proof.
  intros H Hin. unfold registry_only in H. rewrite Forall_forall in H.
  exact (H _ Hin).
Qed.

Lemma getSkyDBRegistryEntry_registry_only pk dk opts r t :
  getSkyDBRegistryEntry pk dk opts = (r, t) -> registry_only t.
Proof.
  rewrite getSkyDBRegistryEntry_spec. intros H. inversion H.
  apply registry_only_getEntry.
Qed.

Lemma not_an_object_spec (v : json) :
  negb (typeof_object v) || is_null v = not_an_object v.
Proof. destruct v; reflexivity. Qed.

(** C7, as the code has it.  For a payload [d] that [getJSON] has downloaded:
    if [d] is not an object ([typeof] other than "object", or null) the call
    fails; if [d] is an object whose [_data] or [_v] is missing or falsy, [d]
    itself is returned unmodified; if both are truthy and [_data] is an
    object, the value of [_data] is returned; if both are truthy and [_data]
    is not an object, the call fails. *)
Theorem getJSON_unwraps_truthy_wrapper pk dk opts e t raw link d :
  getSkyDBRegistryEntry pk dk opts = (Ok (Some e), t) ->
  parseDataLink (data e) true = Ok (raw, link) ->
  checkCachedDataLink raw (cachedDataLink opts) = Ok false ->
  getFileContent link = Ok d ->
  (not_an_object d = true -> fst (getJSON pk dk opts) = Throw NotJSON)
  /\ (not_an_object d = false ->
      truthy (get_prop d "_data") && truthy (get_prop d "_v") = false ->
      fst (getJSON pk dk opts) = Ok {| json_data := Some d; dataLink := Some link |})
  /\ (forall actual,
      not_an_object d = false ->
      get_prop d "_data" = Some actual ->
      truthy (Some actual) = true ->
      truthy (get_prop d "_v") = true ->
      (not_an_object actual = false ->
       fst (getJSON pk dk opts)
       = Ok {| json_data := Some actual; dataLink := Some link |})
      /\ (not_an_object actual = true ->
          fst (getJSON pk dk opts) = Throw DataNotJSON)).
Proof.
  intros Hentry Hlink Hcached Hdl.
  rewrite (getJSON_found _ _ _ _ _ _ _ Hentry Hlink), Hcached, Hdl. simpl fst.
  unfold jsonOfDownload. rewrite not_an_object_spec.
  split; [| split].
  - intros ->. reflexivity.
  - intros -> ->. reflexivity.
  - intros actual Hd Hget Ht Hv. rewrite Hd, Hget, Ht, Hv. simpl.
    assert (Hnull : is_null d = false) by (destruct d; try discriminate; reflexivity).
    rewrite Hnull, orb_false_r.
    assert (Hobj : negb (typeof_object actual) = not_an_object actual)
      by (destruct actual; try reflexivity; discriminate).
    rewrite Hobj. split; intros ->; reflexivity.
Qed.

(** C6, as the code has it.  When the entry resolves to a data link and the
    caller's [cachedDataLink] is a valid skylink denoting that same link,
    [getJSON] returns [{data: null, dataLink}] and downloads nothing.  When
    no cached link is supplied (absent or empty), or a valid one that
    denotes another link, the blob at the resolved link is downloaded.  When
    the supplied cached link is not a valid skylink, [getJSON] fails with the
    validation error and downloads nothing. *)
Theorem getJSON_cached_short_circuit pk dk opts e t raw link :
  getSkyDBRegistryEntry pk dk opts = (Ok (Some e), t) ->
  parseDataLink (data e) true = Ok (raw, link) ->
  (forall c, cachedDataLink opts = Some c -> c <> "" ->
      validateSkylinkString c = Ok raw ->
      getJSON pk dk opts = (Ok {| json_data := None; dataLink := Some link |}, t)
      /\ forall l, ~ In (Start (Download l)) (snd (getJSON pk dk opts)))
  /\ (cachedDataLink opts = None \/ cachedDataLink opts = Some ""
      \/ (exists c c', cachedDataLink opts = Some c
            /\ validateSkylinkString c = Ok c' /\ c' <> raw) ->
      snd (getJSON pk dk opts) = t ++ [Start (Download link); Done (Download link)])
  /\ (forall c err, cachedDataLink opts = Some c -> c <> "" ->
      validateSkylinkString c = Throw err ->
      getJSON pk dk opts = (Throw err, t)
      /\ forall l, ~ In (Start (Download l)) (snd (getJSON pk dk opts))).
Proof.
  intros Hentry Hlink.
  pose proof (getSkyDBRegistryEntry_registry_only _ _ _ _ _ Hentry) as Hreg.
  rewrite (getJSON_found _ _ _ _ _ _ _ Hentry Hlink).
  unfold checkCachedDataLink. split; [| split].
  - intros c -> Hc ->. apply String.eqb_neq in Hc. rewrite Hc, String.eqb_refl.
    split; [reflexivity |]. intros l. now apply registry_only_no_download.
  - intros [-> | [-> | (c & c' & -> & -> & Hne)]]; try reflexivity.
    destruct (String.eqb c ""); [reflexivity |].
    assert (Hraw : String.eqb raw c' = false) by (apply String.eqb_neq; congruence).
    now rewrite Hraw.
  - intros c err -> Hc ->. apply String.eqb_neq in Hc. rewrite Hc.
    split; [reflexivity |]. intros l. now apply registry_only_no_download.
Qed.

(** *** Writes *)

Lemma getEntry_Ok_trace pk dk opts signedEntry t :
  getEntry pk dk opts = (Ok signedEntry, t) ->
  exists url, getEntryUrl pk dk opts = Ok url
    /\ t = [Start (RegistryGet url); Done (RegistryGet url)].
Proof.
  intros H. destruct (getEntryUrl pk dk opts) as [url | err] eqn:Hurl.
  - exists url. split; [reflexivity |].
    destruct (getEntry_trace pk dk opts) as [Hnil | (url' & Hurl' & Ht)].
    + destruct (portal_get url) as [body | e] eqn:Hget.
      * rewrite (getEntry_fulfilled _ _ _ _ _ Hurl Hget) in Hnil. discriminate.
      * rewrite (getEntry_rejected _ _ _ _ _ Hurl Hget) in Hnil. discriminate.
    + rewrite Hurl in Hurl'. inversion Hurl'; subst url'.
      rewrite H in Ht. exact Ht.
  - rewrite (getEntry_no_url _ _ _ _ Hurl) in H. discriminate.
Qed.

Lemma postSignedEntry_Ok pk e sig opts t :
  postSignedEntry pk e sig opts = (Ok tt, t) ->
  exists key,
    hexToUint8Array pk = Ok key
    /\ let datakey :=
         if hashedDataKeyHex opts then dataKey e
         else toHexString (hashDataKey (dataKey e)) in
       let body := transformRequest (post_data key datakey (revision e) (data e) sig) in
       t = [Start (RegistryPost (endpointSetEntry opts) body);
            Done (RegistryPost (endpointSetEntry opts) body)].
Proof.
  unfold postSignedEntry. intros H.
  apply bind_Ok_inv in H as (u & t1 & t2 & H1 & H & ->).
  apply lift_Ok_inv in H1 as [_ ->].
  apply bind_Ok_inv in H as (key & t3 & t4 & H3 & H & ->).
  apply lift_Ok_inv in H3 as [Hkey ->].
  exists key. split; [exact Hkey |]. unfold await in H. inversion H. reflexivity.
Qed.

Lemma setEntry_Ok sk e opts t :
  setEntry sk e opts = (Ok tt, t) ->
  exists key sig,
    fst (signEntry sk e (hashedDataKeyHex opts)) = Ok sig
    /\ assertUint64 (revision e) = Ok tt
    /\ let datakey :=
         if hashedDataKeyHex opts then dataKey e
         else toHexString (hashDataKey (dataKey e)) in
       let body := transformRequest (post_data key datakey (revision e) (data e) sig) in
       t = [Start (RegistryPost (endpointSetEntry opts) body);
            Done (RegistryPost (endpointSetEntry opts) body)].
Proof.
  unfold setEntry. intros H.
  apply bind_Ok_inv in H as (u & t1 & t2 & H1 & H & ->).
  apply lift_Ok_inv in H1 as [_ ->].
  apply bind_Ok_inv in H as (u' & t3 & t4 & H3 & H & ->).
  apply lift_Ok_inv in H3 as [Hrev ->]. destruct u'.
  apply bind_Ok_inv in H as (ska & t5 & t6 & H5 & H & ->).
  apply lift_Ok_inv in H5 as [_ ->].
  apply bind_Ok_inv in H as (sig & t7 & t8 & H7 & H & ->).
  apply bind_Ok_inv in H as (pka & t9 & t10 & H9 & H & ->).
  apply lift_Ok_inv in H9 as [_ ->].
  apply postSignedEntry_Ok in H as (key & _ & Ht).
  exists key, sig. split; [now rewrite H7 |]. split; [exact Hrev |].
  pose proof (signEntry_no_event sk e (hashedDataKeyHex opts)) as Hs.
  rewrite H7 in Hs. simpl in Hs. subst t7. simpl. exact Ht.
Qed.

Lemma getNextRegistryEntry_Ok pk dk d opts e t :
  getNextRegistryEntry pk dk d opts = (Ok e, t) ->
  exists signedEntry url,
    getEntry pk dk opts = (Ok signedEntry, t)
    /\ getEntryUrl pk dk opts = Ok url
    /\ t = [Start (RegistryGet url); Done (RegistryGet url)]
    /\ getNextRevisionFromEntry (entry signedEntry) = Ok (revision e)
    /\ dataKey e = dk /\ data e = d.
Proof.
  unfold getNextRegistryEntry. intros H.
  apply bind_Ok_inv in H as (se & t1 & t2 & H1 & H & ->).
  apply bind_Ok_inv in H as (rev & t3 & t4 & H3 & H & ->).
  apply lift_Ok_inv in H3 as [Hrev ->].
  unfold ret in H. inversion H; subst. simpl. rewrite app_nil_r.
  destruct (getEntry_Ok_trace _ _ _ _ _ H1) as (url & Hurl & Ht).
  exists se, url. repeat split; auto.
Qed.

(** A write through [getNextRegistryEntry] whose registry read finds an entry
    with the largest revision fails with the revision-exhausted error. *)
Lemma getNextRegistryEntry_exhausted pk dk d opts signedEntry e t :
  getEntry pk dk opts = (Ok signedEntry, t) ->
  entry signedEntry = Some e ->
  revision e = 2 ^ 64 - 1 ->
  getNextRegistryEntry pk dk d opts = (Throw RevisionExhausted, t).
Proof.
  intros Hget He Hrev. unfold getNextRegistryEntry.
  rewrite (bind_Ok _ _ _ _ Hget), He.
  rewrite (bind_lift_Throw _ _ _ (getNextRevisionFromEntry_exhausted e Hrev)).
  simpl. now rewrite app_nil_r.
Qed.

Lemma deleteJSON_Ok sk dk opts t :
  deleteJSON sk dk opts = (Ok tt, t) ->
  exists url key datakey rev sig,
    let body :=
      transformRequest
        (post_data key datakey rev (new_Uint8Array RAW_SKYLINK_SIZE) sig) in
    t = [Start (RegistryGet url); Done (RegistryGet url);
         Start (RegistryPost (endpointSetEntry opts) body);
         Done (RegistryPost (endpointSetEntry opts) body)].
Proof.
  unfold deleteJSON. intros H.
  apply bind_Ok_inv in H as (u & t1 & t2 & H1 & H & ->).
  apply lift_Ok_inv in H1 as [_ ->].
  apply bind_Ok_inv in H as (ska & t3 & t4 & H3 & H & ->).
  apply lift_Ok_inv in H3 as [_ ->].
  apply bind_Ok_inv in H as (pka & t5 & t6 & H5 & H & ->).
  apply lift_Ok_inv in H5 as [_ ->].
  apply bind_Ok_inv in H as (e & t7 & t8 & H7 & H & ->).
  apply getNextRegistryEntry_Ok in H7 as (se & url & _ & _ & -> & _ & _ & Hd).
  apply setEntry_Ok in H as (key & sig & _ & _ & Ht).
  rewrite Hd in Ht. simpl in Ht. subst t8.
  exists url, key,
    (if hashedDataKeyHex opts then dataKey e else toHexString (hashDataKey (dataKey e))),
    (revision e), sig.
  reflexivity.
Qed.




(** *** The fork and join of [setJSON] *)

Lemma until_response_app t :
  fst (until_response t) ++ snd (until_response t) = t.
Proof.
  induction t as [| ev t IH]; simpl; [reflexivity |].
  destruct (is_response ev); [reflexivity |].
  destruct (until_response t) as [now later]. simpl in *. now rewrite IH.
Qed.

Lemma next_step_app t : fst (next_step t) ++ snd (next_step t) = t.
Proof.
  destruct t as [| ev t]; simpl; [reflexivity |].
  pose proof (until_response_app t) as H.
  destruct (until_response t) as [now later]. simpl in *. now rewrite H.
Qed.

Lemma In_interleave sched l1 l2 x :
  In x (interleave sched l1 l2) <-> In x l1 \/ In x l2.
Proof.
  revert l1 l2. induction sched as [| b sched IH]; intros l1 l2.
  - apply in_app_iff.
  - destruct b.
    + destruct l1 as [| y l1]; [simpl; tauto |].
      pose proof (next_step_app (y :: l1)) as Hs.
      cbn [interleave]. destruct (next_step (y :: l1)) as [step l1'].
      cbn [fst snd] in Hs. rewrite in_app_iff, IH, <- Hs, in_app_iff. tauto.
    + destruct l2 as [| y l2]; [simpl; tauto |].
      pose proof (next_step_app (y :: l2)) as Hs.
      cbn [interleave]. destruct (next_step (y :: l2)) as [step l2'].
      cbn [fst snd] in Hs. rewrite in_app_iff, IH, <- Hs, in_app_iff. tauto.
Qed.

Lemma interleave_nil_l sched l : interleave sched [] l = l.
Proof.
  revert l. induction sched as [| b sched IH]; intros l; [reflexivity |].
  destruct b; [reflexivity |].
  destruct l as [| y l]; [reflexivity |].
  pose proof (next_step_app (y :: l)) as Hs.
  cbn [interleave]. destruct (next_step (y :: l)) as [step l'].
  cbn [fst snd] in Hs. now rewrite IH.
Qed.

Lemma interleave_nil_r sched l : interleave sched l [] = l.
Proof.
  revert l. induction sched as [| b sched IH]; intros l; [apply app_nil_r |].
  destruct b; [| reflexivity].
  destruct l as [| y l]; [reflexivity |].
  pose proof (next_step_app (y :: l)) as Hs.
  cbn [interleave]. destruct (next_step (y :: l)) as [step l'].
  cbn [fst snd] in Hs. now rewrite IH.
Qed.

(** Two promises that each wait for one response: the two responses arrive
    in one order or in the other. *)
Lemma interleave_responses sched op1 op2 :
  interleave sched [Done op1] [Done op2] = [Done op1; Done op2]
  \/ interleave sched [Done op1] [Done op2] = [Done op2; Done op1].
Proof.
  destruct sched as [| [|] sched]; cbn.
  - now left.
  - left. now rewrite interleave_nil_l.
  - right. now rewrite interleave_nil_r.
Qed.

Lemma bind_start {A B} (m : M A) (f : M A -> M B) :
  bind (start m) f
  = (fst (f (fst m, snd (until_response (snd m)))),
     fst (until_response (snd m))
     ++ snd (f (fst m, snd (until_response (snd m))))).
Proof.
  unfold start, bind. destruct (until_response (snd m)) as [now later]. simpl.
  now destruct (f (fst m, later)).
Qed.

Lemma snd_Promise_all {A B} sched (a : M A) (b : M B) :
  snd (Promise_all sched a b) = interleave sched (snd a) (snd b).
Proof. destruct a as [[|] ?], b as [[|] ?]; reflexivity. Qed.

Lemma fst_Promise_all {A B} sched (a : M A) (b : M B) :
  fst (Promise_all sched a b)
  = match fst a, fst b with
    | Ok x, Ok y => Ok (x, y)
    | Throw e, Ok _ => Throw e
    | Ok _, Throw e => Throw e
    | Throw ea, Throw eb =>
        if settles_first sched (snd a) (snd b) then Throw ea else Throw eb
    end.
Proof. destruct a as [[|] ?], b as [[|] ?]; reflexivity. Qed.

Lemma Promise_all_Ok_inv {A B} sched (a : M A) (b : M B) x y t :
  Promise_all sched a b = (Ok (x, y), t) ->
  exists ta tb, a = (Ok x, ta) /\ b = (Ok y, tb) /\ t = interleave sched ta tb.
Proof.
  destruct a as [[x' | e] ta], b as [[y' | e'] tb]; simpl; intros H.
  - inversion H; subst. exists ta, tb. auto.
  - discriminate.
  - discriminate.
  - destruct (settles_first sched ta tb); discriminate.
Qed.

(** The events of [getOrCreateRegistryEntry]: the upload starts, the
    registry read runs up to its request, and the responses of the two
    arrive in the order of the schedule. *)
Lemma snd_getOrCreateRegistryEntry pk dk j opts :
  snd (getOrCreateRegistryEntry pk dk j opts)
  = Start (Upload (uploaded_file dk j opts))
    :: fst (until_response (snd (getEntry pk dk opts)))
    ++ interleave schedule
         (snd (until_response (snd (getEntry pk dk opts))))
         [Done (Upload (uploaded_file dk j opts))].
Proof.
  unfold getOrCreateRegistryEntry. rewrite !bind_start. cbn [snd fst await].
  cbn [until_response is_response fst snd app]. f_equal. f_equal.
  rewrite snd_bind, snd_Promise_all. cbn [snd].
  match goal with
  | |- _ ++ ?rest = _ => assert (Hrest : rest = []); [| now rewrite Hrest, app_nil_r]
  end.
  destruct (fst (Promise_all _ _ _)) as [[se skylink] | err]; [| reflexivity].
  cbv beta iota. unfold bind, lift, ret.
  destruct (getNextRevisionFromEntry (entry se)); [| reflexivity].
  destruct (decodeSkylinkBase64 _); [| reflexivity].
  destruct (validateUint8ArrayLen _ _ _); reflexivity.
Qed.

Lemma getOrCreateRegistryEntry_events pk dk j opts x :
  In x (snd (getOrCreateRegistryEntry pk dk j opts)) ->
  In x (snd (getEntry pk dk opts))
  \/ x = Start (Upload (uploaded_file dk j opts))
  \/ x = Done (Upload (uploaded_file dk j opts)).
Proof.
  rewrite snd_getOrCreateRegistryEntry.
  pose proof (until_response_app (snd (getEntry pk dk opts))) as Happ.
  intros [<- | H]; [auto |].
  apply in_app_iff in H as [H | H].
  - left. rewrite <- Happ. apply in_or_app. now left.
  - apply In_interleave in H as [H | H].
    + left. rewrite <- Happ. apply in_or_app. now right.
    + destruct H as [<- | []]. auto.
Qed.

Lemma getOrCreateRegistryEntry_Ok pk dk j opts e link t :
  getOrCreateRegistryEntry pk dk j opts = (Ok (e, link), t) ->
  exists signedEntry url,
    getEntry pk dk opts
    = (Ok signedEntry, [Start (RegistryGet url); Done (RegistryGet url)])
    /\ getNextRevisionFromEntry (entry signedEntry) = Ok (revision e)
    /\ t = [Start (Upload (uploaded_file dk j opts)); Start (RegistryGet url)]
           ++ interleave schedule
                [Done (RegistryGet url)]
                [Done (Upload (uploaded_file dk j opts))].
Proof.
  intros H.
  assert (Ht : t = snd (getOrCreateRegistryEntry pk dk j opts)) by now rewrite H.
  rewrite snd_getOrCreateRegistryEntry in Ht.
  unfold getOrCreateRegistryEntry in H. rewrite !bind_start in H.
  cbn [snd fst await until_response is_response] in H.
  apply (f_equal fst) in H. cbn [fst] in H.
  apply fst_bind_Ok_inv in H as ([se skylink] & H1 & H).
  rewrite fst_Promise_all in H1. cbn [fst snd] in H1.
  destruct (fst (getEntry pk dk opts)) as [se' |] eqn:Hse;
    [| destruct (uploadFile _); [discriminate |];
       destruct (settles_first _ _ _); discriminate].
  destruct (uploadFile _) as [skylink' |]; [| discriminate].
  inversion H1; subst se' skylink'.
  apply fst_bind_Ok_inv in H as (rev & Hrev & H). cbn [fst lift] in Hrev.
  apply fst_bind_Ok_inv in H as (d & _ & H).
  apply fst_bind_Ok_inv in H as (u & _ & H).
  cbn [fst ret] in H. inversion H; subst e link. cbn [revision].
  destruct (getEntry pk dk opts) as [r tg] eqn:Hget. cbn [fst] in Hse. subst r.
  destruct (getEntry_Ok_trace _ _ _ _ _ Hget) as (url & _ & ->).
  exists se, url. repeat split; auto.
Qed.

Lemma postSignedEntry_trace pk e sig opts :
  snd (postSignedEntry pk e sig opts) = []
  \/ exists body,
       snd (postSignedEntry pk e sig opts)
       = [Start (RegistryPost (endpointSetEntry opts) body);
          Done (RegistryPost (endpointSetEntry opts) body)].
Proof.
  unfold postSignedEntry.
  destruct (validateHexString "publicKey" pk) eqn:H1;
    [| left; now rewrite (bind_lift_Throw _ _ _ eq_refl)].
  rewrite (bind_lift_Ok _ _ _ eq_refl).
  destruct (hexToUint8Array pk) as [key |] eqn:H2;
    [| left; now rewrite (bind_lift_Throw _ _ _ eq_refl)].
  rewrite (bind_lift_Ok _ _ _ eq_refl).
  right. eexists. reflexivity.
Qed.

Lemma setEntry_trace sk e opts :
  snd (setEntry sk e opts) = []
  \/ exists body,
       snd (setEntry sk e opts)
       = [Start (RegistryPost (endpointSetEntry opts) body);
          Done (RegistryPost (endpointSetEntry opts) body)].
Proof.
  unfold setEntry.
  destruct (validateHexString "privateKey" sk) eqn:H1;
    [| left; now rewrite (bind_lift_Throw _ _ _ eq_refl)].
  rewrite (bind_lift_Ok _ _ _ eq_refl).
  destruct (assertUint64 (revision e)) eqn:H2;
    [| left; now rewrite (bind_lift_Throw _ _ _ eq_refl)].
  rewrite (bind_lift_Ok _ _ _ eq_refl).
  destruct (hexToUint8Array sk) as [ska |] eqn:H3;
    [| left; now rewrite (bind_lift_Throw _ _ _ eq_refl)].
  rewrite (bind_lift_Ok _ _ _ eq_refl).
  pose proof (signEntry_no_event sk e (hashedDataKeyHex opts)) as Hs.
  destruct (signEntry sk e (hashedDataKeyHex opts)) as [[sig | err] ts] eqn:H4;
    simpl in Hs; subst ts; [| left; reflexivity].
  rewrite (bind_Ok _ _ _ _ eq_refl). simpl app.
  destruct (nacl_sign_keyPair_fromSecretKey ska) as [pka |] eqn:H5;
    [| left; now rewrite (bind_lift_Throw _ _ _ eq_refl)].
  rewrite (bind_lift_Ok _ _ _ eq_refl).
  destruct (postSignedEntry_trace (toHexString pka) e sig opts) as [Hp | [body Hp]];
    destruct (postSignedEntry (toHexString pka) e sig opts) as [r t];
    simpl in *; [left | right; exists body]; exact Hp.
Qed.

Lemma incl_prefix_before {A} (x : A) (l r pre post : list A) :
  ~ In x l -> l ++ r = pre ++ x :: post -> incl l pre.
Proof.
  revert pre. induction l as [| y l IH]; intros pre Hx H.
  - intros z [].
  - destruct pre as [| p pre]; simpl in H; inversion H; subst.
    + exfalso. apply Hx. now left.
    + intros z [-> | Hz]; [now left |]. right.
      apply (IH pre); auto. intros Hin. apply Hx. now right.
Qed.

Lemma setJSON_trace_cases sk dk j opts :
  snd (setJSON sk dk j opts) = []
  \/ exists pk,
       snd (setJSON sk dk j opts) = snd (getOrCreateRegistryEntry pk dk j opts)
       \/ exists e link tc body,
            getOrCreateRegistryEntry pk dk j opts = (Ok (e, link), tc)
            /\ snd (setJSON sk dk j opts)
               = tc ++ [Start (RegistryPost (endpointSetEntry opts) body);
                        Done (RegistryPost (endpointSetEntry opts) body)].
Proof.
  unfold setJSON.
  destruct (validateHexString "privateKey" sk);
    [| left; now rewrite (bind_lift_Throw _ _ _ eq_refl)].
  rewrite (bind_lift_Ok _ _ _ eq_refl).
  destruct (validateObject "json" j);
    [| left; now rewrite (bind_lift_Throw _ _ _ eq_refl)].
  rewrite (bind_lift_Ok _ _ _ eq_refl).
  destruct (hexToUint8Array sk) as [ska |];
    [| left; now rewrite (bind_lift_Throw _ _ _ eq_refl)].
  rewrite (bind_lift_Ok _ _ _ eq_refl).
  destruct (nacl_sign_keyPair_fromSecretKey ska) as [pka |];
    [| left; now rewrite (bind_lift_Throw _ _ _ eq_refl)].
  rewrite (bind_lift_Ok _ _ _ eq_refl).
  right. exists (toHexString pka).
  destruct (getOrCreateRegistryEntry (toHexString pka) dk j opts)
    as [[[e link] | err] tc] eqn:Hc.
  - rewrite snd_bind. simpl fst. simpl snd at 1. cbv beta iota.
    rewrite snd_bind.
    destruct (setEntry_trace sk e opts) as [-> | [body ->]].
    + left. simpl. destruct (fst (setEntry sk e opts)); simpl; now rewrite app_nil_r.
    + right. exists e, link, tc, body. split; [reflexivity |].
      destruct (fst (setEntry sk e opts)); simpl; reflexivity.
  - left. reflexivity.
Qed.

Lemma setJSON_Ok sk dk j opts r t :
  setJSON sk dk j opts = (Ok r, t) ->
  exists url body,
    t = [Start (Upload (uploaded_file dk j opts)); Start (RegistryGet url)]
        ++ interleave schedule
             [Done (RegistryGet url)]
             [Done (Upload (uploaded_file dk j opts))]
        ++ [Start (RegistryPost (endpointSetEntry opts) body);
            Done (RegistryPost (endpointSetEntry opts) body)].
Proof.
  unfold setJSON. intros H.
  apply bind_Ok_inv in H as (u & t1 & t2 & H1 & H & ->).
  apply lift_Ok_inv in H1 as [_ ->].
  apply bind_Ok_inv in H as (u' & t3 & t4 & H3 & H & ->).
  apply lift_Ok_inv in H3 as [_ ->].
  apply bind_Ok_inv in H as (ska & t5 & t6 & H5 & H & ->).
  apply lift_Ok_inv in H5 as [_ ->].
  apply bind_Ok_inv in H as (pka & t7 & t8 & H7 & H & ->).
  apply lift_Ok_inv in H7 as [_ ->].
  apply bind_Ok_inv in H as ([e link] & t9 & t10 & H9 & H & ->).
  apply bind_Ok_inv in H as ([] & t11 & t12 & H11 & H & ->).
  unfold ret in H. inversion H; subst.
  apply getOrCreateRegistryEntry_Ok in H9 as (se & url & _ & _ & ->).
  apply setEntry_Ok in H11 as (key & sig & _ & _ & ->).
  exists url. eexists. simpl. rewrite ?app_nil_r, <- ?app_assoc. reflexivity.
Qed.

End SkyDB.

(** ** Revisions in the writes *)

Lemma getNextRegistryEntry_next_revision (E : External) pk dk d opts signedEntry t :
  @getEntry E pk dk opts = (Ok signedEntry, t) ->
  @getNextRegistryEntry E pk dk d opts
  = (match getNextRevisionFromEntry (entry signedEntry) with
     | Ok rev => Ok {| dataKey := dk; data := d; revision := rev |}
     | Throw err => Throw err
     end, t).
Proof.
  intros Hget. unfold getNextRegistryEntry. rewrite (bind_Ok _ _ _ _ Hget).
  destruct (getNextRevisionFromEntry (entry signedEntry)) as [rev | err]; simpl;
    now rewrite app_nil_r.
Qed.

(** C1 (revision monotonicity).  The next revision computed from the signed
    entry that a SkyDB write has read is 0 when the entry is absent and
    [r + 1] when it is present with a revision [r < 2^64 - 1]; a present
    entry with revision [2^64 - 1] makes the computation fail with the
    revision-exhausted error.  This holds for [getNextRevisionFromEntry]
    and for the older [getRevisionFromSignedEntry] (on unsigned revisions).
    The writes use it on the entry they have read: [getNextRegistryEntry]
    (for [deleteJSON] and [setDataLink]) builds its entry with that revision
    or fails with that error, and an entry built by
    [getOrCreateRegistryEntry] (for [setJSON]) carries that revision. *)
Theorem next_revision_monotone :
  getNextRevisionFromEntry None = Ok 0
  /\ (forall e, revision e < 2 ^ 64 - 1 ->
        getNextRevisionFromEntry (Some e) = Ok (revision e + 1))
  /\ (forall e, revision e = 2 ^ 64 - 1 ->
        getNextRevisionFromEntry (Some e) = Throw RevisionExhausted)
  /\ (forall sig, getRevisionFromSignedEntry {| entry := None; signature := sig |} = Ok 0)
  /\ (forall e sig, 0 <= revision e < 2 ^ 64 - 1 ->
        getRevisionFromSignedEntry {| entry := Some e; signature := sig |}
        = Ok (revision e + 1))
  /\ (forall e sig, revision e = 2 ^ 64 - 1 ->
        getRevisionFromSignedEntry {| entry := Some e; signature := sig |}
        = Throw RevisionExhausted)
  /\ (forall (E : External) pk dk d opts signedEntry t,
        @getEntry E pk dk opts = (Ok signedEntry, t) ->
        @getNextRegistryEntry E pk dk d opts
        = (match getNextRevisionFromEntry (entry signedEntry) with
           | Ok rev => Ok {| dataKey := dk; data := d; revision := rev |}
           | Throw err => Throw err
           end, t))
  /\ (forall (E : External) pk dk j opts e link t,
        @getOrCreateRegistryEntry E pk dk j opts = (Ok (e, link), t) ->
        exists signedEntry t',
          @getEntry E pk dk opts = (Ok signedEntry, t')
          /\ getNextRevisionFromEntry (entry signedEntry) = Ok (revision e)).
Proof.
  split; [exact getNextRevisionFromEntry_absent |].
  split; [exact getNextRevisionFromEntry_present |].
  split; [exact getNextRevisionFromEntry_exhausted |].
  change (2 ^ 64 - 1) with MAX_REVISION.
  unfold getRevisionFromSignedEntry, assertUint64.
  rewrite MAX_REVISION_value. simpl entry.
  split; [reflexivity |]. split; [| split; [| split]].
  - intros e _ He.
    destruct (Z.ltb_spec 18446744073709551615 (revision e + 1)); [lia |].
    destruct (Z.ltb_spec (revision e + 1) 0); [lia | reflexivity].
  - intros e _ He.
    destruct (Z.ltb_spec 18446744073709551615 (revision e + 1)); [reflexivity | lia].
  - exact getNextRegistryEntry_next_revision.
  - intros E pk dk j opts e link t H.
    apply getOrCreateRegistryEntry_Ok in H as (se & url & Hget & Hrev & _).
    exists se. eexists. split; [exact Hget | exact Hrev].
Qed.

(** *** The schedule and the result *)

Lemma same_success_bind {A B} (m1 m2 : M A) (f1 f2 : A -> M B) :
  (forall a, fst m1 = Ok a <-> fst m2 = Ok a) ->
  (forall a b, fst (f1 a) = Ok b <-> fst (f2 a) = Ok b) ->
  forall b, fst (bind m1 f1) = Ok b <-> fst (bind m2 f2) = Ok b.
Proof.
  intros Hm Hf b. rewrite !fst_bind.
  destruct (fst m1) as [a1 | e1], (fst m2) as [a2 | e2].
  - assert (Ha : a2 = a1).
    { destruct (Hm a1) as [H _]. specialize (H eq_refl). now inversion H. }
    subst a2. apply Hf.
  - destruct (Hm a1) as [H _]. specialize (H eq_refl). discriminate.
  - destruct (Hm a2) as [_ H]. specialize (H eq_refl). discriminate.
  - split; discriminate.
Qed.

Lemma Promise_all_same_success {A B} s1 s2 (a : M A) (b : M B) x :
  fst (Promise_all s1 a b) = Ok x <-> fst (Promise_all s2 a b) = Ok x.
Proof.
  rewrite !fst_Promise_all.
  destruct (fst a), (fst b); try reflexivity.
  destruct (settles_first s1 _ _), (settles_first s2 _ _); split; discriminate.
Qed.

(** Whether [getOrCreateRegistryEntry] succeeds, and with what, does not
    depend on the schedule. *)
Lemma getOrCreateRegistryEntry_schedule (E : External) sched pk dk j opts r :
  fst (@getOrCreateRegistryEntry (with_schedule E sched) pk dk j opts) = Ok r
  <-> fst (@getOrCreateRegistryEntry E pk dk j opts) = Ok r.
Proof.
  unfold getOrCreateRegistryEntry. rewrite !bind_start. cbn [fst].
  apply same_success_bind.
  - intros a. apply Promise_all_same_success.
  - intros a b. reflexivity.
Qed.

Lemma setJSON_schedule (E : External) sched sk dk j opts r :
  fst (@setJSON (with_schedule E sched) sk dk j opts) = Ok r
  <-> fst (@setJSON E sk dk j opts) = Ok r.
Proof.
  unfold setJSON.
  apply same_success_bind; [intros a; reflexivity | intros _].
  apply same_success_bind; [intros a; reflexivity | intros _].
  apply same_success_bind; [intros a; reflexivity | intros ska].
  apply same_success_bind; [intros a; reflexivity | intros pka].
  apply same_success_bind;
    [intros a; apply getOrCreateRegistryEntry_schedule | intros [e link]].
  intros b. reflexivity.
Qed.

Section Join.

Context `{Ext : External}.

(** When the registry read and the upload both fail, [setJSON] throws the
    error of the one whose response arrives first. *)
Lemma setJSON_both_fail sk dk j opts ska pka url gerr uerr :
  validateHexString "privateKey" sk = Ok tt ->
  validateObject "json" j = Ok tt ->
  hexToUint8Array sk = Ok ska ->
  nacl_sign_keyPair_fromSecretKey ska = Ok pka ->
  getEntry (toHexString pka) dk opts
  = (Throw gerr, [Start (RegistryGet url); Done (RegistryGet url)]) ->
  uploadFile (uploaded_file dk j opts) = Throw uerr ->
  fst (setJSON sk dk j opts)
  = if settles_first schedule
         [Done (RegistryGet url)] [Done (Upload (uploaded_file dk j opts))]
    then Throw gerr else Throw uerr.
Proof.
  intros H1 H2 H3 H4 Hget Hup. unfold setJSON.
  rewrite (bind_lift_Ok _ _ _ H1), (bind_lift_Ok _ _ _ H2),
    (bind_lift_Ok _ _ _ H3), (bind_lift_Ok _ _ _ H4).
  rewrite fst_bind.
  assert (Hc : fst (getOrCreateRegistryEntry (toHexString pka) dk j opts)
               = if settles_first schedule
                      [Done (RegistryGet url)] [Done (Upload (uploaded_file dk j opts))]
                 then Throw gerr else Throw uerr).
  { unfold getOrCreateRegistryEntry. rewrite !bind_start. cbn [fst].
    rewrite fst_bind, fst_Promise_all, Hget. cbn [fst snd await until_response is_response].
    unfold uploaded_file in Hup. rewrite Hup.
    unfold uploaded_file. now destruct (settles_first _ _ _). }
  rewrite Hc. now destruct (settles_first _ _ _).
Qed.

End Join.

(** C9 (fork and join of a write).  In every run of [setJSON] in which a
    registry POST is issued, both the registry read and the upload have
    completed before the POST starts.  The responses of the read and of the
    upload may arrive in either order: the order does not change whether
    [setJSON] succeeds or what it returns, and both orders occur.  When both
    fail, [setJSON] throws the error of the one that fails first.  Every
    successful run starts the upload, then the read, receives the two
    responses in one order or the other, and then posts. *)
Theorem setJSON_post_after_join (E : External) sk dk j opts :
  (forall pre endpoint body post,
      snd (@setJSON E sk dk j opts) = pre ++ Start (RegistryPost endpoint body) :: post ->
      (exists url, In (Done (RegistryGet url)) pre)
      /\ (exists file, In (Done (Upload file)) pre))
  /\ (forall sched r,
      fst (@setJSON (with_schedule E sched) sk dk j opts) = Ok r
      <-> fst (@setJSON E sk dk j opts) = Ok r)
  /\ (forall r, fst (@setJSON E sk dk j opts) = Ok r ->
      (exists url file endpoint body,
          snd (@setJSON (with_schedule E [true]) sk dk j opts)
          = [Start (Upload file); Start (RegistryGet url);
             Done (RegistryGet url); Done (Upload file);
             Start (RegistryPost endpoint body); Done (RegistryPost endpoint body)])
      /\ (exists url file endpoint body,
          snd (@setJSON (with_schedule E [false]) sk dk j opts)
          = [Start (Upload file); Start (RegistryGet url);
             Done (Upload file); Done (RegistryGet url);
             Start (RegistryPost endpoint body); Done (RegistryPost endpoint body)]))
  /\ (forall ska pka url gerr uerr,
      @validateHexString E "privateKey" sk = Ok tt ->
      validateObject "json" j = Ok tt ->
      @hexToUint8Array E sk = Ok ska ->
      @nacl_sign_keyPair_fromSecretKey E ska = Ok pka ->
      @getEntry E (@toHexString E pka) dk opts
      = (Throw gerr, [Start (RegistryGet url); Done (RegistryGet url)]) ->
      @uploadFile E (@uploaded_file E dk j opts) = Throw uerr ->
      fst (@setJSON (with_schedule E [true]) sk dk j opts) = Throw gerr
      /\ fst (@setJSON (with_schedule E [false]) sk dk j opts) = Throw uerr)
  /\ (forall r t, @setJSON E sk dk j opts = (Ok r, t) ->
      exists url file endpoint body,
        t = [Start (Upload file); Start (RegistryGet url);
             Done (RegistryGet url); Done (Upload file);
             Start (RegistryPost endpoint body); Done (RegistryPost endpoint body)]
        \/ t = [Start (Upload file); Start (RegistryGet url);
                Done (Upload file); Done (RegistryGet url);
                Start (RegistryPost endpoint body); Done (RegistryPost endpoint body)]).
Proof.
  split; [| split; [| split; [| split]]].
  - intros pre endpoint body post H.
    destruct (setJSON_trace_cases sk dk j opts) as [Hnil | (pk & [Hc | Hc])].
    + rewrite Hnil in H. destruct pre; discriminate.
    + exfalso. rewrite Hc in H.
      assert (Hin : In (Start (RegistryPost endpoint body))
                       (snd (getOrCreateRegistryEntry pk dk j opts)))
        by (rewrite H; apply in_elt).
      apply getOrCreateRegistryEntry_events in Hin as [Hin | [Hin | Hin]];
        try discriminate.
      destruct (getEntry_trace pk dk opts) as [Hn | (url & _ & Ht)];
        rewrite ?Hn, ?Ht in Hin; simpl in Hin;
        repeat (destruct Hin as [Hin | Hin]; try discriminate); exact Hin.
    + destruct Hc as (e & link & tc & body' & Hc & Ht). rewrite Ht in H.
      pose proof Hc as Hok.
      apply getOrCreateRegistryEntry_Ok in Hok as (se & url & _ & _ & Htc).
      assert (Hmem : forall x, In x tc <->
                 x = Start (Upload (uploaded_file dk j opts))
                 \/ x = Start (RegistryGet url)
                 \/ x = Done (RegistryGet url)
                 \/ x = Done (Upload (uploaded_file dk j opts))).
      { intros x. rewrite Htc, in_app_iff, In_interleave. simpl. intuition auto. }
      assert (Hnot : ~ In (Start (RegistryPost endpoint body)) tc).
      { intros Hin. apply Hmem in Hin.
        destruct Hin as [Hin | [Hin | [Hin | Hin]]]; discriminate. }
      pose proof (incl_prefix_before _ _ _ _ _ Hnot H) as Hincl.
      split.
      * exists url. apply Hincl, Hmem. auto.
      * exists (uploaded_file dk j opts). apply Hincl, Hmem. auto.
  - intros sched r. apply setJSON_schedule.
  - intros r Hr. split.
    + apply (setJSON_schedule E [true]) in Hr.
      destruct (@setJSON (with_schedule E [true]) sk dk j opts) as [r1 t1] eqn:Hs.
      simpl in Hr. subst r1.
      apply setJSON_Ok in Hs as (url & body & ->).
      exists url, (@uploaded_file (with_schedule E [true]) dk j opts),
        (endpointSetEntry opts), body. reflexivity.
    + apply (setJSON_schedule E [false]) in Hr.
      destruct (@setJSON (with_schedule E [false]) sk dk j opts) as [r1 t1] eqn:Hs.
      simpl in Hr. subst r1.
      apply setJSON_Ok in Hs as (url & body & ->).
      exists url, (@uploaded_file (with_schedule E [false]) dk j opts),
        (endpointSetEntry opts), body. reflexivity.
  - intros ska pka url gerr uerr H1 H2 H3 H4 Hget Hup. split.
    + exact (@setJSON_both_fail (with_schedule E [true]) sk dk j opts ska pka url
               gerr uerr H1 H2 H3 H4 Hget Hup).
    + exact (@setJSON_both_fail (with_schedule E [false]) sk dk j opts ska pka url
               gerr uerr H1 H2 H3 H4 Hget Hup).
  - intros r t H. apply setJSON_Ok in H as (url & body & ->).
    exists url, (uploaded_file dk j opts), (endpointSetEntry opts), body.
    destruct (interleave_responses schedule (RegistryGet url)
                (Upload (uploaded_file dk j opts))) as [-> | ->]; auto.
Qed.

(** ** Signing *)

Section Signing.

Context `{Ext : External}.

(** C2, as the code has it.  Under the contract of tweetnacl ([sign] returns
    the signed message, that is the 64-byte signature followed by the
    message, and [sign.detached.verify] throws on a signature that is not 64
    bytes long) and for a 32-byte entry digest, what [signEntry] returns is
    not a detached signature: it is 96 bytes long, it ends with the digest
    itself, and verifying it as a detached signature throws. *)
Theorem signEntry_returns_signed_message :
  (forall msg sk s, nacl_sign msg sk = Ok s ->
     exists sg, List.length sg = 64%nat /\ s = sg ++ msg) ->
  (forall e hashed h, hashRegistryEntry e hashed = Ok h -> List.length h = 32%nat) ->
  (forall msg sig pk, List.length sig <> 64%nat ->
     exists err, nacl_sign_detached_verify msg sig pk = Throw err) ->
  forall sk e hashed s,
    fst (signEntry sk e hashed) = Ok s ->
    List.length s = 96%nat
    /\ (exists sg h,
          hashRegistryEntry e hashed = Ok h /\ List.length sg = 64%nat /\ s = sg ++ h)
    /\ (forall pk h, hashRegistryEntry e hashed = Ok h ->
          exists err, nacl_sign_detached_verify h s pk = Throw err).
Proof.
  intros Hsign Hhash Hverify sk e hashed s H.
  unfold signEntry in H.
  apply fst_bind_Ok_inv in H as (ska & _ & H).
  apply fst_bind_Ok_inv in H as (h & Hh & H).
  simpl in Hh, H.
  destruct (Hsign _ _ _ H) as (sg & Hsg & ->).
  pose proof (Hhash _ _ _ Hh) as Hlen.
  assert (Hs : List.length (sg ++ h) = 96%nat) by (rewrite length_app; lia).
  split; [exact Hs |]. split.
  - exists sg, h. auto.
  - intros pk h' _. apply Hverify. lia.
Qed.

(** C10 (entry data length).  [MySky.setEntryData] with more than 70 bytes of
    data throws the validation error before any request to the delegate or
    to the portal; with at most 70 bytes the length check passes and the
    call goes on to its first request, the user ID. *)
Theorem setEntryData_length_check path d opts :
  ((70 < List.length d)%nat ->
   MySky_setEntryData path d opts = (Throw (ValidationError "data"), []))
  /\ ((List.length d <= 70)%nat ->
      exists r t,
        MySky_setEntryData path d opts = (r, Start UserID :: Done UserID :: t)).
Proof.
  unfold MySky_setEntryData, MAX_ENTRY_LENGTH. split; intros Hlen.
  - destruct (Nat.ltb_spec 70 (List.length d)); [reflexivity | lia].
  - destruct (Nat.ltb_spec 70 (List.length d)); [lia |].
    unfold await at 1. unfold bind at 1.
    destruct mysky_userID as [publicKey | err].
    + match goal with
      | |- context [let '(r, t') := ?c in _] => destruct c as [r t]
      end.
      exists r, t. reflexivity.
    + exists (Throw err), []. reflexivity.
Qed.

End Signing.

(** ** The wire format of the revision *)

Section Strings.

Local Open Scope string_scope.

Lemma append_assoc (a b c : string) : (a ++ b) ++ c = a ++ (b ++ c).
Proof. induction a as [| x a IH]; simpl; [reflexivity | now rewrite IH]. Qed.

Lemma append_nil_r (a : string) : a ++ "" = a.
Proof. induction a as [| x a IH]; simpl; [reflexivity | now rewrite IH]. Qed.

Lemma strip_prefix_app (p s : string) : strip_prefix p (p ++ s) = Some s.
Proof.
  induction p as [| a p IH]; simpl; [now destruct s |].
  now rewrite Ascii.eqb_refl.
Qed.

Lemma strip_prefix_Some (p s r : string) : strip_prefix p s = Some r -> s = p ++ r.
Proof.
  revert s. induction p as [| a p IH]; intros s; simpl.
  - destruct s; intros H; inversion H; reflexivity.
  - destruct s as [| b s]; [discriminate |].
    destruct (Ascii.eqb_spec a b) as [-> | _]; [| discriminate].
    intros H. now rewrite (IH _ H).
Qed.

Lemma skip_spaces_split (s : string) :
  exists ws, s = ws ++ skip_spaces s /\ all_spaces ws = true.
Proof.
  induction s as [| c s (ws & Hs & Hws)]; simpl.
  - exists "". auto.
  - destruct (is_space c) eqn:Hc.
    + exists (String c ws). simpl. rewrite Hc, Hws. split; [now rewrite <- Hs | reflexivity].
    + exists "". auto.
Qed.

Lemma span_digits_split (s d r : string) :
  span_digits s = (d, r) -> s = d ++ r /\ all_digits d = true.
Proof.
  revert d r. induction s as [| c s IH]; intros d r; simpl.
  - intros H. inversion H. auto.
  - destruct (is_digit c) eqn:Hc.
    + destruct (span_digits s) as [d' r'] eqn:Hs. intros H. inversion H; subst.
      destruct (IH _ _ eq_refl) as [-> Hd]. simpl. now rewrite Hc, Hd.
    + intros H. inversion H. auto.
Qed.

Lemma span_digits_app (d : string) (c : ascii) (r : string) :
  all_digits d = true -> is_digit c = false ->
  span_digits (d ++ String c r) = (d, String c r).
Proof.
  intros Hd Hc. induction d as [| x d IH]; simpl.
  - now rewrite Hc.
  - simpl in Hd. apply andb_true_iff in Hd as [Hx Hd].
    now rewrite Hx, (IH Hd).
Qed.

Lemma skip_spaces_not_space (c : ascii) (s : string) :
  is_space c = false -> skip_spaces (String c s) = String c s.
Proof. intros H. simpl. now rewrite H. Qed.

(** *** Where a match can start *)

Lemma key_anchored_NO_QUOTES : key_anchored match_REVISION_NO_QUOTES.
Proof. intros s H. unfold match_REVISION_NO_QUOTES. now rewrite H. Qed.

Lemma key_anchored_WITH_QUOTES : key_anchored match_REVISION_WITH_QUOTES.
Proof. intros s H. unfold match_REVISION_WITH_QUOTES. now rewrite H. Qed.

Lemma strip_prefix_cons (a b : ascii) (p s : string) :
  strip_prefix (String a p) (String b s)
  = if Ascii.eqb a b then strip_prefix p s else None.
Proof. reflexivity. Qed.

Lemma no_key_at_not_quote (c : ascii) (s : string) :
  c <> QUOTE -> no_key_at (String c s).
Proof.
  intros H. unfold no_key_at, REVISION_KEY. rewrite strip_prefix_cons.
  destruct (Ascii.eqb_spec QUOTE c) as [E | _]; [congruence | reflexivity].
Qed.

Lemma safe_app (a b rest : string) :
  safe a (b ++ rest) -> safe b rest -> safe (a ++ b) rest.
Proof.
  intros Ha Hb. induction a as [| c a IH]; simpl in *; [exact Hb |].
  destruct Ha as [Hc Ha]. rewrite append_assoc. auto.
Qed.

Lemma replace_first_safe re tpl (t rest : string) :
  key_anchored re -> safe t rest ->
  replace_first re tpl (t ++ rest) = t ++ replace_first re tpl rest.
Proof.
  intros Hre Ht. induction t as [| c t IH]; simpl in *; [reflexivity |].
  destruct Ht as [Hc Ht]. rewrite (Hre _ Hc). now rewrite (IH Ht).
Qed.

Lemma no_quote_app (a b : string) :
  no_quote (a ++ b) = no_quote a && no_quote b.
Proof. induction a as [| c a IH]; simpl; [reflexivity | now rewrite IH, andb_assoc]. Qed.

Lemma safe_no_quote (t rest : string) : no_quote t = true -> safe t rest.
Proof.
  induction t as [| c t IH]; simpl; [auto |].
  intros H. apply andb_true_iff in H as [Hc Ht]. split; [| auto].
  apply no_key_at_not_quote. intros ->. now rewrite Ascii.eqb_refl in Hc.
Qed.

Lemma mismatch_within_None (p s rest : string) :
  mismatch_within p s = true -> strip_prefix p (s ++ rest) = None.
Proof.
  revert s. induction p as [| a p IH]; intros s H; [discriminate |].
  destruct s as [| b s]; [discriminate |].
  change (String b s ++ rest) with (String b (s ++ rest)).
  rewrite strip_prefix_cons.
  change (mismatch_within (String a p) (String b s))
    with (if Ascii.eqb a b then mismatch_within p s else true) in H.
  destruct (Ascii.eqb a b); [now apply IH | reflexivity].
Qed.

Lemma safe_literal_safe (t rest : string) : safe_literal t = true -> safe t rest.
Proof.
  induction t as [| c t IH]; [simpl; auto |].
  intros H. change (safe_literal (String c t))
    with (mismatch_within REVISION_KEY (String c t) && safe_literal t) in H.
  apply andb_true_iff in H as [Hc Ht]. split; [| auto].
  exact (mismatch_within_None _ (String c t) rest Hc).
Qed.

End Strings.

Section Escapes.

Local Open Scope string_scope.

Lemma escape_string_cons (c : ascii) (s : string) :
  escape_string (String c s) = escape_char c ++ escape_string s.
Proof. reflexivity. Qed.

(** The three shapes of an escaped code unit: the unit itself (which is then
    neither a quote nor a backslash), an escaped quote, or a backslash
    followed by text without a quote. *)
Lemma escape_char_cases (c : ascii) :
  (escape_char c = String c "" /\ c <> QUOTE /\ c <> BACKSLASH)
  \/ escape_char c = String BACKSLASH (String QUOTE "")
  \/ (exists t, escape_char c = String BACKSLASH t /\ no_quote t = true).
Proof.
  destruct c as [[] [] [] [] [] [] [] []];
    first [ left; split; [reflexivity | split; discriminate]
          | right; left; reflexivity
          | right; right; eexists; split; reflexivity ].
Qed.

(** Inside a quoted string that a comma follows, a text [w] without quotes
    and backslashes cannot be read followed by a quote and a colon. *)
Lemma strip_after_escape (w s rest : string) :
  plain w = true ->
  strip_prefix (w ++ String QUOTE ":")
    (escape_string s ++ String QUOTE (String "," rest)) = None.
Proof.
  revert s. induction w as [| a w IH]; intros s Hw.
  - change ("" ++ String QUOTE ":") with (String QUOTE ":").
    destruct s as [| c s].
    + change (escape_string "" ++ String QUOTE (String "," rest))
        with (String QUOTE (String "," rest)).
      rewrite strip_prefix_cons, Ascii.eqb_refl. reflexivity.
    + rewrite escape_string_cons.
      destruct (escape_char_cases c) as [(-> & Hq & _) | [-> | (t & -> & _)]];
        simpl append; rewrite strip_prefix_cons.
      * destruct (Ascii.eqb_spec QUOTE c); [congruence | reflexivity].
      * reflexivity.
      * reflexivity.
  - change (plain (String a w))
      with (negb (Ascii.eqb a QUOTE) && negb (Ascii.eqb a BACKSLASH) && plain w) in Hw.
    apply andb_true_iff in Hw as [Ha Hw]. apply andb_true_iff in Ha as [Hq Hb].
    apply negb_true_iff in Hq, Hb.
    change (String a w ++ String QUOTE ":") with (String a (w ++ String QUOTE ":")).
    destruct s as [| c s].
    + change (escape_string "" ++ String QUOTE (String "," rest))
        with (String QUOTE (String "," rest)).
      now rewrite strip_prefix_cons, Hq.
    + rewrite escape_string_cons.
      destruct (escape_char_cases c) as [(-> & _ & _) | [-> | (t & -> & _)]];
        simpl append; rewrite strip_prefix_cons.
      * destruct (Ascii.eqb a c); [now apply IH | reflexivity].
      * now rewrite Hb.
      * now rewrite Hb.
Qed.

Lemma no_key_at_quoted (s rest : string) :
  no_key_at (String QUOTE (escape_string s ++ String QUOTE (String "," rest))).
Proof.
  unfold no_key_at, REVISION_KEY. rewrite strip_prefix_cons, Ascii.eqb_refl.
  now apply strip_after_escape.
Qed.

Lemma safe_escape_string (s rest : string) :
  safe (escape_string s) (String QUOTE (String "," rest)).
Proof.
  induction s as [| c s IH]; [exact I |].
  rewrite escape_string_cons. apply safe_app; [| exact IH].
  destruct (escape_char_cases c) as [(-> & Hq & _) | [-> | (t & -> & Ht)]].
  - split; [now apply no_key_at_not_quote | exact I].
  - split; [now apply no_key_at_not_quote |].
    split; [apply no_key_at_quoted | exact I].
  - split; [now apply no_key_at_not_quote |].
    now apply safe_no_quote.
Qed.

Lemma safe_quoted_then_comma (s rest : string) : safe (quoted_then_comma s) rest.
Proof.
  unfold quoted_then_comma. split.
  - rewrite append_assoc. apply no_key_at_quoted.
  - apply safe_app; [apply safe_escape_string |].
    now apply safe_literal_safe.
Qed.

(** *** Digits *)

Lemma is_digit_not_quote (c : ascii) : is_digit c = true -> Ascii.eqb c QUOTE = false.
Proof.
  intros H. destruct (Ascii.eqb_spec c QUOTE) as [-> |]; [discriminate | reflexivity].
Qed.

Lemma is_digit_not_space (c : ascii) : is_digit c = true -> is_space c = false.
Proof.
  unfold is_digit, is_space. intros H. apply andb_true_iff in H as [H1 H2].
  apply Nat.leb_le in H1, H2.
  destruct (Nat.leb_spec 9 (nat_of_ascii c)), (Nat.leb_spec (nat_of_ascii c) 13),
    (Nat.eqb_spec (nat_of_ascii c) 32), (Nat.eqb_spec (nat_of_ascii c) 160);
    simpl; try reflexivity; lia.
Qed.

Lemma escape_char_digit (c : ascii) : is_digit c = true -> escape_char c = String c "".
Proof.
  destruct c as [[] [] [] [] [] [] [] []]; intros H; try discriminate H; reflexivity.
Qed.

Lemma escape_string_digits (d : string) : all_digits d = true -> escape_string d = d.
Proof.
  induction d as [| c d IH]; [reflexivity |]. intros H.
  change (all_digits (String c d)) with (is_digit c && all_digits d) in H.
  apply andb_true_iff in H as [Hc Hd].
  rewrite escape_string_cons, (escape_char_digit _ Hc), (IH Hd). reflexivity.
Qed.

Lemma no_quote_digits (d : string) : all_digits d = true -> no_quote d = true.
Proof.
  induction d as [| c d IH]; [reflexivity |]. intros H.
  change (all_digits (String c d)) with (is_digit c && all_digits d) in H.
  apply andb_true_iff in H as [Hc Hd].
  change (no_quote (String c d)) with (negb (Ascii.eqb c QUOTE) && no_quote d).
  now rewrite (is_digit_not_quote _ Hc), (IH Hd).
Qed.

Lemma string_of_uint_digits (d : Decimal.uint) :
  all_digits (NilEmpty.string_of_uint d) = true.
Proof. induction d; simpl; auto. Qed.

Lemma bigint_toString_digits (n : Z) :
  0 <= n -> all_digits (bigint_toString n) = true /\ bigint_toString n <> "".
Proof.
  intros Hn. unfold bigint_toString. destruct n as [| p | p]; [| | lia].
  - split; [reflexivity | discriminate].
  - simpl. unfold NilZero.string_of_uint.
    destruct (Pos.to_uint p) eqn:Hp;
      (split; [| discriminate]);
      try reflexivity; rewrite <- Hp;
      pose proof (string_of_uint_digits (Pos.to_uint p)) as Hd;
      rewrite Hp in *; exact Hd.
Qed.

Lemma no_quote_join (parts : list string) :
  Forall (fun p => no_quote p = true) parts -> no_quote (join "," parts) = true.
Proof.
  induction 1 as [| p parts Hp _ IH]; [reflexivity |].
  destruct parts as [| q parts]; [exact Hp |].
  change (join "," (p :: q :: parts)) with (p ++ "," ++ join "," (q :: parts)).
  rewrite !no_quote_app, Hp, IH. reflexivity.
Qed.

Lemma JSON_stringify_Array_from (b : Uint8Array) :
  JSON_stringify (Array_from b)
  = "[" ++ join "," (map (fun x => bigint_toString (Z.of_N (Byte.to_N x))) b) ++ "]".
Proof. unfold Array_from. simpl. now rewrite map_map. Qed.

Lemma no_quote_Array_from (b : Uint8Array) :
  no_quote (JSON_stringify (Array_from b)) = true.
Proof.
  rewrite JSON_stringify_Array_from.
  change ("[" ++ ?x) with (String "[" x).
  change (no_quote (String "[" ?x)) with (no_quote x).
  rewrite no_quote_app, no_quote_join; [reflexivity |].
  apply Forall_forall. intros p Hp. apply in_map_iff in Hp as (x & <- & _).
  apply no_quote_digits, bigint_toString_digits. apply N2Z.is_nonneg.
Qed.

End Escapes.

Section WireFormat.

Local Open Scope string_scope.

Lemma replace_first_match re tpl (s g rest : string) :
  re s = Some (g, rest) -> replace_first re tpl s = tpl g ++ rest.
Proof. intros H. destruct s; simpl; now rewrite H. Qed.

Lemma match_WITH_QUOTES_at (d rest : string) :
  all_digits d = true -> d <> "" ->
  match_REVISION_WITH_QUOTES (REVISION_KEY ++ String QUOTE (d ++ String QUOTE rest))
  = Some (d, rest).
Proof.
  intros Hd Hne. unfold match_REVISION_WITH_QUOTES.
  rewrite strip_prefix_app.
  rewrite (skip_spaces_not_space QUOTE) by reflexivity.
  rewrite Ascii.eqb_refl.
  rewrite (span_digits_app d QUOTE rest Hd) by reflexivity.
  destruct d; [contradiction |]. now rewrite Ascii.eqb_refl.
Qed.

Lemma match_NO_QUOTES_at (d : string) (c : ascii) (rest : string) :
  all_digits d = true -> d <> "" -> is_digit c = false ->
  match_REVISION_NO_QUOTES (REVISION_KEY ++ d ++ String c rest)
  = Some (d, String c rest).
Proof.
  intros Hd Hne Hc. unfold match_REVISION_NO_QUOTES.
  rewrite strip_prefix_app.
  destruct d as [| x d]; [contradiction |].
  change (all_digits (String x d)) with (is_digit x && all_digits d) in Hd.
  pose proof Hd as Hd'. apply andb_true_iff in Hd' as [Hx _].
  change (String x d ++ String c rest) with (String x (d ++ String c rest)).
  rewrite (skip_spaces_not_space x) by now apply is_digit_not_space.
  change (String x (d ++ String c rest)) with (String x d ++ String c rest).
  now rewrite (span_digits_app (String x d) c rest Hd Hc).
Qed.

Lemma match_WITH_QUOTES_inv (s d rest : string) :
  match_REVISION_WITH_QUOTES s = Some (d, rest) ->
  exists ws,
    s = REVISION_KEY ++ ws ++ String QUOTE (d ++ String QUOTE rest)
    /\ all_spaces ws = true /\ all_digits d = true /\ d <> "".
Proof.
  unfold match_REVISION_WITH_QUOTES.
  destruct (strip_prefix REVISION_KEY s) as [s1 |] eqn:Hkey; [| discriminate].
  apply strip_prefix_Some in Hkey.
  destruct (skip_spaces_split s1) as (ws & Hs1 & Hws).
  destruct (skip_spaces s1) as [| q s2]; [discriminate |].
  destruct (Ascii.eqb_spec q QUOTE) as [-> |]; [| discriminate].
  destruct (span_digits s2) as [d' r] eqn:Hspan.
  apply span_digits_split in Hspan as [Hs2 Hd].
  destruct d' as [| x d']; [intros H; discriminate H |].
  destruct r as [| q' r]; [intros H; discriminate H |].
  destruct (Ascii.eqb_spec q' QUOTE) as [-> |]; [| intros H; discriminate H].
  intros H. inversion H; subst.
  exists ws. repeat split; auto. discriminate.
Qed.

Lemma match_NO_QUOTES_inv (s d rest : string) :
  match_REVISION_NO_QUOTES s = Some (d, rest) ->
  exists ws,
    s = REVISION_KEY ++ ws ++ d ++ rest
    /\ all_spaces ws = true /\ all_digits d = true /\ d <> "".
Proof.
  unfold match_REVISION_NO_QUOTES.
  destruct (strip_prefix REVISION_KEY s) as [s1 |] eqn:Hkey; [| discriminate].
  apply strip_prefix_Some in Hkey.
  destruct (skip_spaces_split s1) as (ws & Hs1 & Hws).
  destruct (span_digits (skip_spaces s1)) as [d' r] eqn:Hspan.
  apply span_digits_split in Hspan as [Hs2 Hd].
  destruct d' as [| x d']; [intros H; discriminate H |].
  intros H. inversion H; subst.
  exists ws. rewrite Hs2 in Hs1. repeat split; auto; [now rewrite <- Hs1 | discriminate].
Qed.

(** A replacement changes the matched text only. *)
Lemma replace_first_local re tpl (s : string) :
  replace_first re tpl s = s
  \/ exists pre x g rest,
       s = pre ++ x /\ re x = Some (g, rest)
       /\ replace_first re tpl s = pre ++ tpl g ++ rest.
Proof.
  induction s as [| c s IH].
  - simpl. destruct (re "") as [[g rest] |] eqn:H.
    + right. exists "", "", g, rest. auto.
    + now left.
  - destruct (re (String c s)) as [[g rest] |] eqn:H.
    + right. exists "", (String c s), g, rest.
      repeat split; auto. now apply replace_first_match.
    + simpl. rewrite H.
      destruct IH as [-> | (pre & x & g & rest & -> & Hx & ->)]; [now left |].
      right. exists (String c pre), x, g, rest. auto.
Qed.

(** The leftmost match is the one that is replaced. *)
Lemma replace_first_leftmost re tpl (pre x g rest : string) :
  re x = Some (g, rest) ->
  (forall p q, pre = p ++ q -> q <> "" -> re (q ++ x) = None) ->
  replace_first re tpl (pre ++ x) = pre ++ tpl g ++ rest.
Proof.
  intros Hx. induction pre as [| c pre IH]; intros Hpre.
  - now apply replace_first_match.
  - change (String c pre ++ x) with (String c (pre ++ x)).
    cbn [replace_first].
    assert (Hc : re (String c (pre ++ x)) = None)
      by (apply (Hpre "" (String c pre)); [reflexivity | discriminate]).
    rewrite Hc, IH; [reflexivity |].
    intros p q -> Hq. apply (Hpre (String c p) q); [reflexivity | exact Hq].
Qed.

Lemma replace_first_none re tpl (s : string) :
  (forall p q, s = p ++ q -> re q = None) -> replace_first re tpl s = s.
Proof.
  induction s as [| c s IH]; intros H.
  - cbn [replace_first]. now rewrite (H "" "" eq_refl).
  - cbn [replace_first]. rewrite (H "" (String c s) eq_refl), IH; [reflexivity |].
    intros p q ->. now apply (H (String c p) q).
Qed.

Lemma skip_spaces_app (ws x : string) :
  all_spaces ws = true -> skip_spaces (ws ++ x) = skip_spaces x.
Proof.
  induction ws as [| c ws IH]; [reflexivity |].
  cbn [all_spaces]. intros H. apply andb_true_iff in H as [Hc Hws].
  change (String c ws ++ x) with (String c (ws ++ x)).
  cbn [skip_spaces]. now rewrite Hc, IH.
Qed.

Lemma span_digits_maximal (s d r : string) :
  span_digits s = (d, r) -> starts_with_digit r = false.
Proof.
  revert d r. induction s as [| c s IH]; intros d r; cbn [span_digits].
  - intros H. now inversion H.
  - destruct (is_digit c) eqn:Hc.
    + destruct (span_digits s) as [d' r'] eqn:Hs. intros H. inversion H; subst.
      now apply (IH d').
    + intros H. inversion H; subst. exact Hc.
Qed.

Lemma span_digits_app_maximal (d post : string) :
  all_digits d = true -> starts_with_digit post = false ->
  span_digits (d ++ post) = (d, post).
Proof.
  intros Hd Hpost. destruct post as [| c r].
  - rewrite append_nil_r. clear Hpost. induction d as [| x d IH]; [reflexivity |].
    cbn [all_digits] in Hd. apply andb_true_iff in Hd as [Hx Hd].
    cbn [span_digits]. now rewrite Hx, (IH Hd).
  - now apply span_digits_app.
Qed.

Lemma match_WITH_QUOTES_iff (x d post : string) :
  match_REVISION_WITH_QUOTES x = Some (d, post) <-> WITH_QUOTES_at x d post.
Proof.
  split.
  - intros H. now apply match_WITH_QUOTES_inv in H.
  - intros (ws & -> & Hws & Hd & Hne). unfold match_REVISION_WITH_QUOTES.
    rewrite strip_prefix_app, (skip_spaces_app _ _ Hws).
    rewrite (skip_spaces_not_space QUOTE) by reflexivity.
    rewrite Ascii.eqb_refl.
    rewrite (span_digits_app d QUOTE post Hd) by reflexivity.
    destruct d; [contradiction |]. now rewrite Ascii.eqb_refl.
Qed.

Lemma match_NO_QUOTES_iff (x d post : string) :
  match_REVISION_NO_QUOTES x = Some (d, post) <-> NO_QUOTES_at x d post.
Proof.
  split.
  - intros H. unfold match_REVISION_NO_QUOTES in H.
    destruct (strip_prefix REVISION_KEY x) as [s1 |] eqn:Hkey; [| discriminate].
    apply strip_prefix_Some in Hkey.
    destruct (skip_spaces_split s1) as (ws & Hs1 & Hws).
    destruct (span_digits (skip_spaces s1)) as [d' r] eqn:Hspan.
    pose proof (span_digits_maximal _ _ _ Hspan) as Hmax.
    apply span_digits_split in Hspan as [Hs2 Hd].
    destruct d' as [| c d']; [discriminate |].
    inversion H; subst d post.
    exists ws. rewrite Hs2 in Hs1. repeat split; auto; [now rewrite <- Hs1 | discriminate].
  - intros (ws & -> & Hws & Hd & Hne & Hpost). unfold match_REVISION_NO_QUOTES.
    rewrite strip_prefix_app, (skip_spaces_app _ _ Hws).
    destruct d as [| c d]; [contradiction |].
    pose proof Hd as Hd'. cbn [all_digits] in Hd'.
    apply andb_true_iff in Hd' as [Hc _].
    change (String c d ++ post) with (String c (d ++ post)).
    rewrite (skip_spaces_not_space c) by now apply is_digit_not_space.
    change (String c (d ++ post)) with (String c d ++ post).
    now rewrite (span_digits_app_maximal _ _ Hd Hpost).
Qed.

Lemma no_match_WITH_QUOTES (q : string) :
  ~ matches_WITH_QUOTES q -> match_REVISION_WITH_QUOTES q = None.
Proof.
  intros H. destruct (match_REVISION_WITH_QUOTES q) as [[d post] |] eqn:Hq;
    [| reflexivity].
  exfalso. apply H. exists d, post. now apply match_WITH_QUOTES_iff.
Qed.

Lemma no_match_NO_QUOTES (q : string) :
  ~ matches_NO_QUOTES q -> match_REVISION_NO_QUOTES q = None.
Proof.
  intros H. destruct (match_REVISION_NO_QUOTES q) as [[d post] |] eqn:Hq;
    [| reflexivity].
  exfalso. apply H. exists d, post. now apply match_NO_QUOTES_iff.
Qed.

Lemma strip_revision_quotes_leftmost (pre x d post : string) :
  WITH_QUOTES_at x d post ->
  no_earlier_match matches_WITH_QUOTES pre x ->
  strip_revision_quotes (pre ++ x) = pre ++ REVISION_KEY ++ d ++ post.
Proof.
  intros Hx Hpre. unfold strip_revision_quotes.
  apply match_WITH_QUOTES_iff in Hx.
  rewrite (replace_first_leftmost _ _ _ _ _ _ Hx).
  - now rewrite append_assoc.
  - intros p q Hp Hq. apply no_match_WITH_QUOTES. now apply (Hpre p q).
Qed.

Lemma add_revision_quotes_leftmost (pre x d post : string) :
  NO_QUOTES_at x d post ->
  no_earlier_match matches_NO_QUOTES pre x ->
  add_revision_quotes (pre ++ x)
  = pre ++ REVISION_KEY ++ String QUOTE (d ++ String QUOTE post).
Proof.
  intros Hx Hpre. unfold add_revision_quotes.
  apply match_NO_QUOTES_iff in Hx.
  rewrite (replace_first_leftmost _ _ _ _ _ _ Hx).
  - f_equal. rewrite append_assoc. f_equal.
    change (String QUOTE (d ++ String QUOTE "") ++ post)
      with (String QUOTE ((d ++ String QUOTE "") ++ post)).
    now rewrite append_assoc.
  - intros p q Hp Hq. apply no_match_NO_QUOTES. now apply (Hpre p q).
Qed.

Lemma no_match_starts_in_WITH_QUOTES (pre x : string) :
  no_match_starts_in match_REVISION_WITH_QUOTES pre x = true ->
  no_earlier_match matches_WITH_QUOTES pre x.
Proof.
  induction pre as [| c pre IH]; intros H p q Hp Hq (d & post & Hm).
  - destruct p; [| discriminate]. cbn in Hp. now subst q.
  - apply match_WITH_QUOTES_iff in Hm. cbn [no_match_starts_in] in H.
    destruct p as [| c' p]; cbn in Hp.
    + subst q. now rewrite Hm in H.
    + inversion Hp; subst c' pre.
      destruct (match_REVISION_WITH_QUOTES _); [discriminate |].
      apply (IH H p q eq_refl Hq). exists d, post. now apply match_WITH_QUOTES_iff.
Qed.

Lemma no_match_starts_in_NO_QUOTES (pre x : string) :
  no_match_starts_in match_REVISION_NO_QUOTES pre x = true ->
  no_earlier_match matches_NO_QUOTES pre x.
Proof.
  induction pre as [| c pre IH]; intros H p q Hp Hq (d & post & Hm).
  - destruct p; [| discriminate]. cbn in Hp. now subst q.
  - apply match_NO_QUOTES_iff in Hm. cbn [no_match_starts_in] in H.
    destruct p as [| c' p]; cbn in Hp.
    + subst q. now rewrite Hm in H.
    + inversion Hp; subst c' pre.
      destruct (match_REVISION_NO_QUOTES _); [discriminate |].
      apply (IH H p q eq_refl Hq). exists d, post. now apply match_NO_QUOTES_iff.
Qed.

Ltac normalize_text :=
  unfold REQUEST_PREFIX, REQUEST_MIDDLE, RESPONSE_PREFIX,
    quote_string, quoted_then_comma, REVISION_KEY;
  repeat (rewrite ?append_assoc;
          progress cbn -[bigint_toString Array_from JSON_stringify]).

Lemma request_text key datakey (rev : json) entryData sig :
  JSON_stringify
    (JObj [ ("publickey", JObj [ ("algorithm", JStr "ed25519"); ("key", Array_from key) ]);
            ("datakey", JStr datakey);
            ("revision", rev);
            ("data", Array_from entryData);
            ("signature", Array_from sig) ])
  = request_head key datakey
    ++ REVISION_KEY ++ JSON_stringify rev ++ request_tail entryData sig.
Proof.
  unfold request_head, request_tail.
  change (JSON_stringify (JObj ?kvs))
    with ("{" ++ join ","
            (map (fun kv => quote_string (fst kv) ++ ":" ++ JSON_stringify (snd kv)) kvs)
          ++ "}").
  cbn [map join fst snd].
  change (JSON_stringify (JStr datakey)) with (quote_string datakey).
  change (JSON_stringify
            (JObj [ ("algorithm", JStr "ed25519"); ("key", Array_from key) ]))
    with ("{" ++ (quote_string "algorithm" ++ ":" ++ quote_string "ed25519")
          ++ "," ++ quote_string "key" ++ ":" ++ JSON_stringify (Array_from key)
          ++ "}").
  normalize_text. reflexivity.
Qed.

Lemma response_text dataHex (rev : json) signatureHex :
  JSON_stringify (entry_response dataHex rev signatureHex)
  = RESPONSE_PREFIX ++ quoted_then_comma dataHex
    ++ REVISION_KEY ++ JSON_stringify rev ++ response_tail signatureHex.
Proof.
  unfold entry_response, response_tail.
  change (JSON_stringify (JObj ?kvs))
    with ("{" ++ join ","
            (map (fun kv => quote_string (fst kv) ++ ":" ++ JSON_stringify (snd kv)) kvs)
          ++ "}").
  cbn [map join fst snd].
  change (JSON_stringify (JStr dataHex)) with (quote_string dataHex).
  change (JSON_stringify (JStr signatureHex)) with (quote_string signatureHex).
  normalize_text. reflexivity.
Qed.

Lemma safe_request_head key datakey rest : safe (request_head key datakey) rest.
Proof.
  unfold request_head.
  apply safe_app; [now apply safe_literal_safe |].
  apply safe_app; [apply safe_no_quote, no_quote_Array_from |].
  apply safe_app; [now apply safe_literal_safe |].
  apply safe_quoted_then_comma.
Qed.

Lemma safe_response_head dataHex rest :
  safe (RESPONSE_PREFIX ++ quoted_then_comma dataHex) rest.
Proof.
  apply safe_app; [now apply safe_literal_safe | apply safe_quoted_then_comma].
Qed.

Lemma transformRequest_strips_quotes key datakey rev entryData sig :
  0 <= rev ->
  transformRequest (post_data key datakey rev entryData sig)
  = JSON_stringify (post_data_number key datakey rev entryData sig).
Proof.
  intros Hrev. destruct (bigint_toString_digits rev Hrev) as [Hd Hne].
  unfold transformRequest, strip_revision_quotes, post_data, post_data_number.
  rewrite !request_text.
  change (JSON_stringify (JStr (bigint_toString rev)))
    with (quote_string (bigint_toString rev)).
  change (JSON_stringify (JNum rev)) with (bigint_toString rev).
  unfold quote_string. rewrite (escape_string_digits _ Hd).
  rewrite (replace_first_safe _ _ _ _ key_anchored_WITH_QUOTES
             (safe_request_head key datakey _)).
  f_equal.
  change (String QUOTE (bigint_toString rev ++ String QUOTE "") ++ ?t)
    with (String QUOTE ((bigint_toString rev ++ String QUOTE "") ++ t)).
  rewrite append_assoc.
  change (String QUOTE "" ++ ?t) with (String QUOTE t).
  rewrite (replace_first_match _ _ _ _ _ (match_WITH_QUOTES_at _ _ Hd Hne)).
  apply append_assoc.
Qed.

Lemma add_revision_quotes_response dataHex rev signatureHex :
  0 <= rev ->
  add_revision_quotes (JSON_stringify (entry_response dataHex (JNum rev) signatureHex))
  = JSON_stringify (entry_response dataHex (JStr (bigint_toString rev)) signatureHex).
Proof.
  intros Hrev. destruct (bigint_toString_digits rev Hrev) as [Hd Hne].
  unfold add_revision_quotes. rewrite !response_text.
  change (JSON_stringify (JStr (bigint_toString rev)))
    with (quote_string (bigint_toString rev)).
  change (JSON_stringify (JNum rev)) with (bigint_toString rev).
  unfold quote_string. rewrite (escape_string_digits _ Hd).
  rewrite <- !(append_assoc RESPONSE_PREFIX (quoted_then_comma dataHex)).
  rewrite (replace_first_safe _ _ _ _ key_anchored_NO_QUOTES
             (safe_response_head dataHex _)).
  f_equal.
  change (response_tail signatureHex)
    with (String ","
            (quote_string "signature" ++ ":" ++ quote_string signatureHex ++ "}")).
  rewrite (replace_first_match _ _ _ _ _
             (match_NO_QUOTES_at _ "," _ Hd Hne eq_refl)).
  now rewrite !append_assoc.
Qed.

End WireFormat.

Section ReadPath.

Context `{Ext : External}.

Local Open Scope string_scope.

(** [transformResponse] on a text whose leftmost match of the regular
    expression is known. *)
Lemma transformResponse_leftmost (pre x d post : string) :
  NO_QUOTES_at x d post ->
  no_earlier_match matches_NO_QUOTES pre x ->
  transformResponse (Some (pre ++ x))
  = match JSON_parse (pre ++ REVISION_KEY ++ String QUOTE (d ++ String QUOTE post)) with
    | Some v => v
    | None => JStr (pre ++ REVISION_KEY ++ String QUOTE (d ++ String QUOTE post))
    end.
Proof.
  intros Hx Hpre. unfold transformResponse.
  now rewrite (add_revision_quotes_leftmost _ _ _ _ Hx Hpre).
Qed.

Lemma transformResponse_no_match (s : string) :
  no_match matches_NO_QUOTES s ->
  transformResponse (Some s)
  = match JSON_parse s with
    | Some v => v
    | None => JStr s
    end.
Proof.
  intros H. unfold transformResponse, add_revision_quotes.
  rewrite replace_first_none; [reflexivity |].
  intros p q Hs. apply no_match_NO_QUOTES. now apply (H p q).
Qed.

(** The entry that [getEntry] reads from the response of the portal: the
    revision is the number that the portal printed, whatever its size. *)
Lemma signedEntryOfResponse_revision dk dataHex rev signatureHex sig d :
  0 <= rev ->
  JSON_parse
    (JSON_stringify (entry_response dataHex (JStr (bigint_toString rev)) signatureHex))
  = Some (entry_response dataHex (JStr (bigint_toString rev)) signatureHex) ->
  BigInt (bigint_toString rev) = Ok rev ->
  hexToUint8Array signatureHex = Ok sig ->
  (if String.eqb dataHex "" then Ok [] else hexToUint8Array dataHex) = Ok d ->
  signedEntryOfResponse dk
    (transformResponse
       (Some (JSON_stringify (entry_response dataHex (JNum rev) signatureHex))))
  = Ok ({| dataKey := dk; data := d; revision := rev |}, sig).
Proof.
  intros Hrev Hparse Hbig Hsig Hdata. unfold transformResponse.
  rewrite (add_revision_quotes_response _ _ _ Hrev), Hparse.
  unfold signedEntryOfResponse, entry_response, entry_response_field.
  cbn [get_prop assoc String.eqb Ascii.eqb Bool.eqb].
  now rewrite Hbig, Hsig, Hdata.
Qed.

End ReadPath.

(** C8 (the revision on the wire).  A registry write serializes the
    revision as a decimal string, and [transformRequest] turns the payload
    text into the text of the same payload with the revision as a JSON
    number: the quotes of the revision field go, nothing else changes.  On a
    registry read, [transformResponse] adds the quotes back before it parses:
    the text of a response with a numeric revision becomes the text of the
    same response with the revision as a string, and the entry that
    [getEntry] builds from it has exactly the revision that the portal
    printed.  Both substitutions are those of a regular expression without
    the global flag: on a text without a match nothing changes; otherwise the
    leftmost match is rewritten (the white space after the colon goes, the
    quotes around the digits go or come) and the text before it and after it
    stays as it is, further matches included. *)
Theorem revision_wire_format :
  (forall key datakey rev entryData sig,
      0 <= rev ->
      get_prop (post_data key datakey rev entryData sig) "revision"
      = Some (JStr (bigint_toString rev))
      /\ all_digits (bigint_toString rev) = true
      /\ transformRequest (post_data key datakey rev entryData sig)
         = JSON_stringify (post_data_number key datakey rev entryData sig))
  /\ (forall dataHex rev signatureHex,
      0 <= rev ->
      add_revision_quotes
        (JSON_stringify (entry_response dataHex (JNum rev) signatureHex))
      = JSON_stringify
          (entry_response dataHex (JStr (bigint_toString rev)) signatureHex))
  /\ (forall s,
      strip_revision_quotes s = s
      \/ exists pre ws d post,
           s = (pre ++ REVISION_KEY ++ ws ++ String QUOTE (d ++ String QUOTE post))%string
           /\ all_spaces ws = true /\ all_digits d = true /\ d <> EmptyString
           /\ strip_revision_quotes s = (pre ++ REVISION_KEY ++ d ++ post)%string)
  /\ (forall s,
      add_revision_quotes s = s
      \/ exists pre ws d post,
           s = (pre ++ REVISION_KEY ++ ws ++ d ++ post)%string
           /\ all_spaces ws = true /\ all_digits d = true /\ d <> EmptyString
           /\ add_revision_quotes s
              = (pre ++ REVISION_KEY ++ String QUOTE (d ++ String QUOTE post))%string)
  /\ (forall s, no_match matches_WITH_QUOTES s -> strip_revision_quotes s = s)
  /\ (forall pre x d post,
      WITH_QUOTES_at x d post ->
      no_earlier_match matches_WITH_QUOTES pre x ->
      strip_revision_quotes (pre ++ x) = (pre ++ REVISION_KEY ++ d ++ post)%string)
  /\ (forall s, no_match matches_NO_QUOTES s -> add_revision_quotes s = s)
  /\ (forall pre x d post,
      NO_QUOTES_at x d post ->
      no_earlier_match matches_NO_QUOTES pre x ->
      add_revision_quotes (pre ++ x)
      = (pre ++ REVISION_KEY ++ String QUOTE (d ++ String QUOTE post))%string)
  /\ (forall (E : External) d,
      @transformRequest d = strip_revision_quotes (JSON_stringify d)
      /\ @transformResponse E None = JObj [])
  /\ (forall (E : External) s,
      no_match matches_NO_QUOTES s ->
      @transformResponse E (Some s)
      = match @JSON_parse E s with
        | Some v => v
        | None => JStr s
        end)
  /\ (forall (E : External) pre x d post,
      NO_QUOTES_at x d post ->
      no_earlier_match matches_NO_QUOTES pre x ->
      @transformResponse E (Some (pre ++ x)%string)
      = match @JSON_parse E
                (pre ++ REVISION_KEY ++ String QUOTE (d ++ String QUOTE post))%string
        with
        | Some v => v
        | None =>
            JStr (pre ++ REVISION_KEY ++ String QUOTE (d ++ String QUOTE post))%string
        end)
  /\ (forall (E : External) dk dataHex rev signatureHex sig d,
      0 <= rev ->
      @JSON_parse E
        (JSON_stringify
           (entry_response dataHex (JStr (bigint_toString rev)) signatureHex))
      = Some (entry_response dataHex (JStr (bigint_toString rev)) signatureHex) ->
      @BigInt E (bigint_toString rev) = Ok rev ->
      @hexToUint8Array E signatureHex = Ok sig ->
      (if String.eqb dataHex "" then Ok [] else @hexToUint8Array E dataHex) = Ok d ->
      @signedEntryOfResponse E dk
        (@transformResponse E
           (Some (JSON_stringify (entry_response dataHex (JNum rev) signatureHex))))
      = Ok ({| dataKey := dk; data := d; revision := rev |}, sig)).
Proof.
  split; [| split; [| split; [| split]]].
  - intros key datakey rev entryData sig Hrev.
    split; [reflexivity |].
    split; [apply (bigint_toString_digits rev Hrev) |].
    now apply transformRequest_strips_quotes.
  - intros dataHex rev signatureHex Hrev. now apply add_revision_quotes_response.
  - intros s. unfold strip_revision_quotes.
    destruct (replace_first_local match_REVISION_WITH_QUOTES
                (fun d => (REVISION_KEY ++ d)%string) s)
      as [H | (pre & x & d & post & -> & Hx & H)]; [now left | right].
    apply match_WITH_QUOTES_inv in Hx as (ws & -> & Hws & Hd & Hne).
    exists pre, ws, d, post. repeat split; auto.
  - intros s. unfold add_revision_quotes.
    destruct (replace_first_local match_REVISION_NO_QUOTES
                (fun d => (REVISION_KEY ++ String QUOTE (d ++ String QUOTE ""))%string) s)
      as [H | (pre & x & d & post & -> & Hx & H)]; [now left | right].
    apply match_NO_QUOTES_inv in Hx as (ws & -> & Hws & Hd & Hne).
    exists pre, ws, d, post. repeat split; auto.
    rewrite H. f_equal. rewrite append_assoc. f_equal.
    change (String QUOTE (d ++ String QUOTE "") ++ post)%string
      with (String QUOTE ((d ++ String QUOTE "") ++ post))%string.
    now rewrite append_assoc.
  - split; [| split; [| split; [| split; [| split; [| split; [| split]]]]]].
    + intros s H. unfold strip_revision_quotes. apply replace_first_none.
      intros p q Hs. apply no_match_WITH_QUOTES. now apply (H p q).
    + exact strip_revision_quotes_leftmost.
    + intros s H. unfold add_revision_quotes. apply replace_first_none.
      intros p q Hs. apply no_match_NO_QUOTES. now apply (H p q).
    + exact add_revision_quotes_leftmost.
    + intros E d. split; reflexivity.
    + intros E s. apply transformResponse_no_match.
    + intros E pre x d post. apply transformResponse_leftmost.
    + intros E dk dataHex rev signatureHex sig d.
      apply signedEntryOfResponse_revision.
Qed.

(** ** Deletion *)

Section Deletion.

Context `{Ext : External}.

Lemma getEntryUrl_spec pk dk opts :
  getEntryUrl pk dk opts
  = if isHexString (trimPrefix pk ED25519_PREFIX)
    then Ok (entry_url pk (wire_datakey dk opts) opts)
    else Throw (ValidationError "publicKey").
Proof.
  unfold getEntryUrl, getEntryUrlForPortal, validatePublicKey, entry_url, wire_datakey.
  destruct (isHexString (trimPrefix pk ED25519_PREFIX)); reflexivity.
Qed.

Lemma getEntryUrl_Ok_inv pk dk opts url :
  getEntryUrl pk dk opts = Ok url -> url = entry_url pk (wire_datakey dk opts) opts.
Proof.
  rewrite getEntryUrl_spec. destruct (isHexString _); [| discriminate].
  intros H. now inversion H.
Qed.




Lemma postSignedEntry_Ok_post pk e sig opts t :
  postSignedEntry pk e sig opts = (Ok tt, t) ->
  exists key,
    hexToUint8Array pk = Ok key
    /\ portal_post (endpointSetEntry opts)
         (transformRequest
            (post_data key (wire_datakey (dataKey e) opts) (revision e) (data e) sig))
       = None
    /\ t = POST (endpointSetEntry opts)
             (transformRequest
                (post_data key (wire_datakey (dataKey e) opts) (revision e) (data e)
                   sig)).
Proof.
  unfold postSignedEntry. intros H.
  apply bind_Ok_inv in H as (u & t1 & t2 & H1 & H & ->).
  apply lift_Ok_inv in H1 as [_ ->].
  apply bind_Ok_inv in H as (key & t3 & t4 & H3 & H & ->).
  apply lift_Ok_inv in H3 as [Hkey ->].
  exists key. split; [exact Hkey |]. unfold await, wire_datakey in *.
  destruct (portal_post _ _) eqn:Hpost; inversion H. auto.
Qed.


Lemma setEntry_Ok_post sk e opts t :
  setEntry sk e opts = (Ok tt, t) ->
  exists ska pka key sig,
    hexToUint8Array sk = Ok ska
    /\ nacl_sign_keyPair_fromSecretKey ska = Ok pka
    /\ hexToUint8Array (toHexString pka) = Ok key
    /\ fst (signEntry sk e (hashedDataKeyHex opts)) = Ok sig
    /\ portal_post (endpointSetEntry opts)
         (transformRequest
            (post_data key (wire_datakey (dataKey e) opts) (revision e) (data e) sig))
       = None
    /\ t = POST (endpointSetEntry opts)
             (transformRequest
                (post_data key (wire_datakey (dataKey e) opts) (revision e) (data e)
                   sig)).
Proof.
  unfold setEntry. intros H.
  apply bind_Ok_inv in H as (u & t1 & t2 & H1 & H & ->).
  apply lift_Ok_inv in H1 as [_ ->].
  apply bind_Ok_inv in H as (u' & t3 & t4 & H3 & H & ->).
  apply lift_Ok_inv in H3 as [_ ->].
  apply bind_Ok_inv in H as (ska & t5 & t6 & H5 & H & ->).
  apply lift_Ok_inv in H5 as [Hska ->].
  apply bind_Ok_inv in H as (sig & t7 & t8 & H7 & H & ->).
  apply bind_Ok_inv in H as (pka & t9 & t10 & H9 & H & ->).
  apply lift_Ok_inv in H9 as [Hpka ->].
  apply postSignedEntry_Ok_post in H as (key & Hkey & Hpost & ->).
  exists ska, pka, key, sig. repeat split; auto; [now rewrite H7 |].
  pose proof (signEntry_no_event sk e (hashedDataKeyHex opts)) as Hs.
  rewrite H7 in Hs. simpl in Hs. now subst t7.
Qed.






End Deletion.

(** * Further properties of the registry client and of SkyDB *)

Section RegistryMore.

Context `{Ext : External}.



Lemma handleGetEntryErrResponse_Ok_inv err se :
  handleGetEntryErrResponse err = Ok se ->
  se = {| entry := None; signature := None |}
  /\ exists r, response err = Some r /\ status r = Some 404.
Proof.
  unfold handleGetEntryErrResponse.
  destruct (response err) as [r |]; [| discriminate].
  destruct (status r) as [s |] eqn:Hs; [| discriminate].
  destruct (s =? 0); [discriminate |].
  destruct (Z.eqb_spec s 404) as [-> | _]; [| discriminate].
  intros H. inversion H. split; [reflexivity |]. exists r. auto.
Qed.


(** X2 (the empty entry).  When [getEntry] succeeds, the entry and the
    signature are either both null or both present; they are null exactly
    when the GET was rejected with status 404.  A fulfilled request, or a
    rejection of any other shape, never yields the empty entry. *)
Theorem getEntry_null_iff_404 pk dk opts signedEntry :
  fst (getEntry pk dk opts) = Ok signedEntry ->
  (entry signedEntry = None <-> signature signedEntry = None)
  /\ (entry signedEntry = None <->
      exists url err r,
        getEntryUrl pk dk opts = Ok url
        /\ portal_get url = Rejected err
        /\ response err = Some r /\ status r = Some 404).
Proof.
  intros H.
  destruct (getEntryUrl pk dk opts) as [url | e0] eqn:Hurl;
    [| rewrite (getEntry_no_url _ _ _ _ Hurl) in H; discriminate].
  destruct (portal_get url) as [body | err] eqn:Hp.
  - rewrite (getEntry_fulfilled _ _ _ _ _ Hurl Hp) in H. simpl in H.
    destruct (signedEntryOfResponse dk (transformResponse body)) as [[e sig] | e1];
      [| discriminate].
    destruct (verifySignedEntry pk e sig (hashedDataKeyHex opts)) as [[|] | e2];
      try discriminate.
    inversion H; subst signedEntry; simpl.
    split; [split; discriminate |].
    split; [discriminate |].
    intros (url' & err & r & Hu & Hr & _). inversion Hu; subst url'.
    rewrite Hp in Hr. discriminate.
  - rewrite (getEntry_rejected _ _ _ _ _ Hurl Hp) in H. simpl in H.
    apply handleGetEntryErrResponse_Ok_inv in H as (-> & r & Hr & Hs). simpl.
    split; [split; reflexivity |].
    split; [| reflexivity].
    intros _. exists url, err, r. auto.
Qed.

Lemma signedEntryOfResponse_incomplete dk d k :
  In k ["data"; "revision"; "signature"] ->
  (forall s, get_prop d k <> Some (JStr s)) ->
  signedEntryOfResponse dk d = Throw IncompleteEntryResponse.
Proof.
  intros Hk Hno.
  assert (Hfield : entry_response_field d k = Throw IncompleteEntryResponse).
  { unfold entry_response_field. destruct d; try reflexivity;
      destruct (get_prop _ k) as [[| | | s | |] |]; try reflexivity;
      exfalso; apply (Hno s); reflexivity. }
  assert (Hother : forall k', entry_response_field d k' = Throw IncompleteEntryResponse
                         \/ exists s, entry_response_field d k' = Ok s).
  { intros k'. unfold entry_response_field. destruct d; auto;
      destruct (get_prop _ k') as [[| | | s | |] |]; eauto. }
  unfold signedEntryOfResponse.
  destruct Hk as [<- | [<- | [<- | []]]].
  - now rewrite Hfield.
  - destruct (Hother "data") as [-> | (s & ->)]; [reflexivity |]. now rewrite Hfield.
  - destruct (Hother "data") as [-> | (s & ->)]; [reflexivity |].
    destruct (Hother "revision") as [-> | (s' & ->)]; [reflexivity |]. now rewrite Hfield.
Qed.

(** X3 (incomplete responses).  A fulfilled registry GET whose body is
    absent, is not JSON, or lacks a string in one of the fields [data],
    [revision] and [signature] makes [getEntry] throw the incomplete-response
    error after that one request: it is not reported as a missing entry. *)
Theorem getEntry_incomplete_response pk dk opts url body :
  getEntryUrl pk dk opts = Ok url ->
  portal_get url = Fulfilled body ->
  (body = None -> getEntry pk dk opts = (Throw IncompleteEntryResponse, GET url))
  /\ (forall s, body = Some s -> JSON_parse (add_revision_quotes s) = None ->
      getEntry pk dk opts = (Throw IncompleteEntryResponse, GET url))
  /\ (forall k, In k ["data"; "revision"; "signature"] ->
      (forall s, get_prop (transformResponse body) k <> Some (JStr s)) ->
      getEntry pk dk opts = (Throw IncompleteEntryResponse, GET url)).
Proof.
  intros Hurl Hp.
  assert (Hmain : forall k, In k ["data"; "revision"; "signature"] ->
      (forall s, get_prop (transformResponse body) k <> Some (JStr s)) ->
      getEntry pk dk opts = (Throw IncompleteEntryResponse, GET url)).
  { intros k Hk Hno. rewrite (getEntry_fulfilled _ _ _ _ _ Hurl Hp).
    now rewrite (signedEntryOfResponse_incomplete _ _ _ Hk Hno). }
  split; [| split; [| exact Hmain]].
  - intros ->. apply (Hmain "data"); [simpl; auto |]. intros s. discriminate.
  - intros s -> Hparse. apply (Hmain "data"); [simpl; auto |].
    intros s'. unfold transformResponse. rewrite Hparse. discriminate.
Qed.

End RegistryMore.

Section SkyDBMore.

Context `{Ext : External}.

Variable getFileContent_arraybuffer : string -> Result Uint8Array.

Lemma jsonOfDownload_Ok_inv d link r :
  jsonOfDownload d link = Ok r ->
  exists d', json_data r = Some d' /\ dataLink r = Some link /\ not_an_object d' = false.
Proof.
  unfold jsonOfDownload. rewrite not_an_object_spec.
  destruct (not_an_object d) eqn:Hd; [discriminate |].
  destruct (truthy (get_prop d "_data") && truthy (get_prop d "_v")) eqn:Ht; simpl.
  - destruct (get_prop d "_data") as [actual |] eqn:Hg; [| discriminate].
    assert (Hnull : is_null d = false) by (destruct d; try discriminate; reflexivity).
    rewrite Hnull, orb_false_r.
    destruct (typeof_object actual) eqn:Hobj; [| discriminate]. simpl.
    intros H. inversion H. exists actual. repeat split.
    apply andb_prop in Ht as [Ht _].
    destruct actual; try discriminate; reflexivity.
  - intros H. inversion H. exists d. auto.
Qed.

Lemma checkCachedDataLink_true raw cached :
  checkCachedDataLink raw cached = Ok true ->
  exists c, cached = Some c /\ c <> "".
Proof.
  unfold checkCachedDataLink. destruct cached as [c |]; [| discriminate].
  destruct (String.eqb_spec c "") as [-> | Hne]; [discriminate |].
  intros _. exists c. auto.
Qed.

(** X4 (what [getJSON] returns).  A successful [getJSON] has one of three
    shapes: no data and no link (entry absent or deleted); no data with the
    resolved link, which happens only when the caller supplied a non-empty
    [cachedDataLink]; or data with the link it was downloaded from, and then
    the data is an object or an array, never null or a primitive. *)
Theorem getJSON_result_shape pk dk opts r :
  fst (getJSON pk dk opts) = Ok r ->
  (json_data r = None /\ dataLink r = None)
  \/ (json_data r = None
      /\ exists link c,
           dataLink r = Some link /\ cachedDataLink opts = Some c /\ c <> ""
           /\ forall l, ~ In (Start (Download l)) (snd (getJSON pk dk opts)))
  \/ (exists d link,
        json_data r = Some d /\ dataLink r = Some link
        /\ not_an_object d = false
        /\ In (Done (Download link)) (snd (getJSON pk dk opts))).
Proof.
  intros H.
  destruct (getSkyDBRegistryEntry pk dk opts) as [[[e |] | err] t] eqn:Hs.
  - destruct (parseDataLink (data e) true) as [[raw link] | err] eqn:Hl.
    + pose proof (getSkyDBRegistryEntry_registry_only _ _ _ _ _ Hs) as Hreg.
      rewrite (getJSON_found _ _ _ _ _ _ _ Hs Hl) in H |- *.
      destruct (checkCachedDataLink raw (cachedDataLink opts)) as [[|] | err] eqn:Hc;
        try discriminate.
      * right. left. simpl in H. inversion H; subst r. simpl.
        split; [reflexivity |].
        apply checkCachedDataLink_true in Hc as (c & Hc & Hne).
        exists link, c. repeat split; auto.
        intros l. now apply registry_only_no_download.
      * right. right. simpl in H.
        destruct (getFileContent link) as [d |]; [| discriminate].
        apply jsonOfDownload_Ok_inv in H as (d' & H1 & H2 & H3).
        exists d', link. repeat split; auto.
        simpl. apply in_or_app. right. simpl. auto.
    + unfold getJSON in H. rewrite Hs in H. simpl in H. rewrite Hl in H.
      simpl in H. discriminate.
  - rewrite (getJSON_not_found _ _ _ _ Hs) in H. inversion H. left. auto.
  - unfold getJSON in H. rewrite Hs in H. discriminate.
Qed.

Lemma length_EMPTY_SKYLINK : List.length EMPTY_SKYLINK = RAW_SKYLINK_SIZE.
Proof. apply repeat_length. Qed.

Lemma getSkyDBRegistryEntry_present pk dk opts e sig t :
  getEntry pk dk opts = (Ok {| entry := Some e; signature := sig |}, t) ->
  List.length (data e) <> RAW_SKYLINK_SIZE ->
  getSkyDBRegistryEntry pk dk opts = (Ok (Some e), t).
Proof.
  intros Hget Hlen. rewrite getSkyDBRegistryEntry_spec, Hget. simpl.
  destruct (areEqualUint8Arrays (data e) EMPTY_SKYLINK) eqn:Heq; [| reflexivity].
  apply areEqualUint8Arrays_eq in Heq. rewrite Heq, length_EMPTY_SKYLINK in Hlen.
  contradiction.
Qed.

(** X5 (length of the entry data).  [parseDataLink] accepts entry data of
    exactly [RAW_SKYLINK_SIZE] bytes, and of [BASE64_ENCODED_SKYLINK_SIZE]
    bytes when legacy data is allowed; every other length is a validation
    error.  So [getRawBytes] fails on every entry whose data is not
    [RAW_SKYLINK_SIZE] bytes long, legacy entries included, and [getJSON] on
    every entry of neither length; both fail after the registry read and
    before any download. *)
Theorem entry_data_length_bounds :
  (forall d legacy,
      (exists r, parseDataLink d legacy = Ok r)
      <-> (List.length d = RAW_SKYLINK_SIZE
           \/ (legacy = true /\ List.length d = BASE64_ENCODED_SKYLINK_SIZE)))
  /\ (forall d legacy,
      (forall r, parseDataLink d legacy <> Ok r) ->
      parseDataLink d legacy = Throw (ValidationError "entry.data"))
  /\ (forall pk dk opts e sig t,
      getEntry pk dk opts = (Ok {| entry := Some e; signature := sig |}, t) ->
      List.length (data e) <> RAW_SKYLINK_SIZE ->
      getRawBytes getFileContent_arraybuffer pk dk opts
      = (Throw (ValidationError "entry.data"), t))
  /\ (forall pk dk opts e sig t,
      getEntry pk dk opts = (Ok {| entry := Some e; signature := sig |}, t) ->
      List.length (data e) <> RAW_SKYLINK_SIZE ->
      List.length (data e) <> BASE64_ENCODED_SKYLINK_SIZE ->
      getJSON pk dk opts = (Throw (ValidationError "entry.data"), t)).
Proof.
  split; [| split; [| split]].
  - intros d legacy. unfold parseDataLink. split.
    + intros [r H].
      destruct legacy; simpl in H.
      * destruct (Nat.eqb_spec (List.length d) BASE64_ENCODED_SKYLINK_SIZE); [auto |].
        destruct (Nat.eqb_spec (List.length d) RAW_SKYLINK_SIZE); [auto | discriminate].
      * destruct (Nat.eqb_spec (List.length d) RAW_SKYLINK_SIZE); [auto | discriminate].
    + intros [H | [-> H]].
      * destruct (_ && _); [eexists; reflexivity |].
        rewrite H, Nat.eqb_refl. eexists; reflexivity.
      * rewrite H, Nat.eqb_refl. eexists; reflexivity.
  - intros d legacy H. unfold parseDataLink in *.
    destruct (_ && _); [exfalso; eapply H; reflexivity |].
    destruct (_ =? _)%nat; [exfalso; eapply H; reflexivity | reflexivity].
  - intros pk dk opts e sig t Hget Hlen.
    unfold getRawBytes. rewrite (getSkyDBRegistryEntry_present _ _ _ _ _ _ Hget Hlen).
    simpl. unfold parseDataLink. simpl.
    apply Nat.eqb_neq in Hlen. rewrite Hlen. simpl. now rewrite app_nil_r.
  - intros pk dk opts e sig t Hget Hlen Hlen'.
    unfold getJSON. rewrite (getSkyDBRegistryEntry_present _ _ _ _ _ _ Hget Hlen).
    simpl. unfold parseDataLink.
    apply Nat.eqb_neq in Hlen, Hlen'. rewrite Hlen, Hlen'. simpl. now rewrite app_nil_r.
Qed.

End SkyDBMore.

Section WritesMore.

Context `{Ext : External}.

Lemma registry_only_setDataLink sk dk link opts :
  registry_only (snd (setDataLink sk dk link opts)).
Proof.
  unfold setDataLink.
  apply registry_only_bind; [apply registry_only_lift | intros _].
  apply registry_only_bind; [apply registry_only_lift | intros ska].
  apply registry_only_bind; [apply registry_only_lift | intros pka].
  apply registry_only_bind; [apply registry_only_lift | intros raw].
  apply registry_only_bind; [apply registry_only_getNextRegistryEntry | intros e].
  apply registry_only_setEntry.
Qed.

Lemma setDataLink_Ok sk dk link opts t :
  setDataLink sk dk link opts = (Ok tt, t) ->
  exists ska pka key raw signedEntry rev sig,
    hexToUint8Array sk = Ok ska
    /\ nacl_sign_keyPair_fromSecretKey ska = Ok pka
    /\ hexToUint8Array (toHexString pka) = Ok key
    /\ decodeSkylink link = Ok raw
    /\ fst (getEntry (toHexString pka) dk opts) = Ok signedEntry
    /\ getNextRevisionFromEntry (entry signedEntry) = Ok rev
    /\ t = GET (entry_url (toHexString pka) (wire_datakey dk opts) opts)
           ++ POST (endpointSetEntry opts)
                (transformRequest (post_data key (wire_datakey dk opts) rev raw sig)).
Proof.
  unfold setDataLink. intros H.
  apply bind_Ok_inv in H as (u & t1 & t2 & H1 & H & ->).
  apply lift_Ok_inv in H1 as [_ ->].
  apply bind_Ok_inv in H as (ska & t3 & t4 & H3 & H & ->).
  apply lift_Ok_inv in H3 as [Hska ->].
  apply bind_Ok_inv in H as (pka & t5 & t6 & H5 & H & ->).
  apply lift_Ok_inv in H5 as [Hpka ->].
  apply bind_Ok_inv in H as (raw & t7 & t8 & H7 & H & ->).
  apply lift_Ok_inv in H7 as [Hraw ->].
  apply bind_Ok_inv in H as (e & t9 & t10 & H9 & H & ->).
  apply getNextRegistryEntry_Ok in H9 as (se & url & Hget & Hurl & -> & Hrev & Hdk & Hd).
  apply getEntryUrl_Ok_inv in Hurl. subst url.
  apply setEntry_Ok_post in H
    as (ska' & pka' & key & sig & Hska' & Hpka' & Hkey & _ & _ & ->).
  rewrite Hska in Hska'. inversion Hska'; subst ska'.
  rewrite Hpka in Hpka'. inversion Hpka'; subst pka'.
  rewrite Hdk, Hd.
  exists ska, pka, key, raw, se, (revision e), sig.
  repeat split; auto. now rewrite Hget.
Qed.

(** X6 ([setDataLink]).  [setDataLink] uploads and downloads nothing: its
    requests are registry requests only.  With a data link that
    [decodeSkylink] rejects it fails before any request.  When it succeeds,
    it has made one registry GET of the slot and then one POST to the same
    slot, whose entry carries the decoded data link and the revision that
    follows the one read. *)
Theorem setDataLink_registry_only sk dk link opts :
  registry_only (snd (setDataLink sk dk link opts))
  /\ (forall file, ~ In (Start (Upload file)) (snd (setDataLink sk dk link opts)))
  /\ (forall l, ~ In (Start (Download l)) (snd (setDataLink sk dk link opts)))
  /\ (forall err, decodeSkylink link = Throw err ->
      snd (setDataLink sk dk link opts) = []
      /\ exists err', fst (setDataLink sk dk link opts) = Throw err')
  /\ (forall t, setDataLink sk dk link opts = (Ok tt, t) ->
      exists ska pka key raw signedEntry rev sig,
        hexToUint8Array sk = Ok ska
        /\ nacl_sign_keyPair_fromSecretKey ska = Ok pka
        /\ hexToUint8Array (toHexString pka) = Ok key
        /\ decodeSkylink link = Ok raw
        /\ fst (getEntry (toHexString pka) dk opts) = Ok signedEntry
        /\ getNextRevisionFromEntry (entry signedEntry) = Ok rev
        /\ t = GET (entry_url (toHexString pka) (wire_datakey dk opts) opts)
               ++ POST (endpointSetEntry opts)
                    (transformRequest
                       (post_data key (wire_datakey dk opts) rev raw sig))).
Proof.
  split; [apply registry_only_setDataLink |].
  split; [intros file; apply registry_only_no_upload, registry_only_setDataLink |].
  split; [intros l; apply registry_only_no_download, registry_only_setDataLink |].
  split.
  - intros err Herr. unfold setDataLink.
    destruct (validateHexString "privateKey" sk) as [u | e0];
      [| split; [reflexivity | eexists; reflexivity]].
    rewrite (bind_lift_Ok _ _ _ eq_refl).
    destruct (hexToUint8Array sk) as [ska | e1];
      [| split; [reflexivity | eexists; reflexivity]].
    rewrite (bind_lift_Ok _ _ _ eq_refl).
    destruct (nacl_sign_keyPair_fromSecretKey ska) as [pka | e2];
      [| split; [reflexivity | eexists; reflexivity]].
    rewrite (bind_lift_Ok _ _ _ eq_refl).
    rewrite (bind_lift_Throw _ _ _ Herr). split; [reflexivity | eexists; reflexivity].
  - intros t H. now apply setDataLink_Ok in H.
Qed.

(** What a successful [getOrCreateRegistryEntry] has built. *)
Lemma getOrCreateRegistryEntry_Ok_link pk dk j opts e link t :
  getOrCreateRegistryEntry pk dk j opts = (Ok (e, link), t) ->
  exists signedEntry skylink,
    fst (getEntry pk dk opts) = Ok signedEntry
    /\ uploadFile (uploaded_file dk j opts) = Ok skylink
    /\ getNextRevisionFromEntry (entry signedEntry) = Ok (revision e)
    /\ dataKey e = dk
    /\ decodeSkylinkBase64 (trimUriPrefix skylink URI_SKYNET_PREFIX) = Ok (data e)
    /\ List.length (data e) = RAW_SKYLINK_SIZE
    /\ link = formatSkylink (trimUriPrefix skylink URI_SKYNET_PREFIX)
    /\ t = [Start (Upload (uploaded_file dk j opts));
            Start (RegistryGet (entry_url pk (wire_datakey dk opts) opts))]
           ++ interleave schedule
                [Done (RegistryGet (entry_url pk (wire_datakey dk opts) opts))]
                [Done (Upload (uploaded_file dk j opts))].
Proof.
  intros H.
  pose proof (getOrCreateRegistryEntry_Ok _ _ _ _ _ _ _ H) as (se0 & url & Hget & _ & Ht).
  pose proof (getEntry_Ok_trace _ _ _ _ _ Hget) as (url' & Hurl & Hu).
  inversion Hu; subst url'. apply getEntryUrl_Ok_inv in Hurl. subst url.
  unfold getOrCreateRegistryEntry in H. rewrite !bind_start in H.
  cbn [snd fst await until_response is_response] in H.
  apply (f_equal fst) in H. cbn [fst] in H.
  apply fst_bind_Ok_inv in H as ([se skylink] & H1 & H).
  rewrite fst_Promise_all in H1. cbn [fst snd] in H1.
  rewrite Hget in H1. cbn [fst] in H1.
  fold (uploaded_file dk j opts) in H1.
  destruct (uploadFile (uploaded_file dk j opts)) as [skylink' |] eqn:Hup;
    [| discriminate].
  inversion H1; subst se0 skylink'.
  apply fst_bind_Ok_inv in H as (rev & Hrev & H). cbn [fst lift] in Hrev.
  apply fst_bind_Ok_inv in H as (d & Hd & H). cbn [fst lift] in Hd.
  apply fst_bind_Ok_inv in H as (u & Hlen & H). cbn [fst lift] in Hlen.
  cbn [fst ret] in H. inversion H; subst e link. cbn [revision dataKey data].
  exists se, skylink. rewrite Hget. repeat split; auto.
  unfold validateUint8ArrayLen in Hlen.
  destruct (Nat.eqb_spec (List.length d) RAW_SKYLINK_SIZE); [assumption | discriminate].
Qed.

(** X8 (what [setJSON] writes).  When [setJSON] succeeds, the file it has
    uploaded is the one that wraps the JSON; the entry it posts is for the
    slot it has read (same public key, same data key on the wire), carries
    the revision that follows the one read, and its data is the decoded
    skylink that the upload returned, 34 bytes; the data link it returns is
    that skylink, formatted. *)
Theorem setJSON_posts_uploaded_link sk dk j opts r t :
  setJSON sk dk j opts = (Ok r, t) ->
  exists ska pka key signedEntry skylink rev d sig,
    hexToUint8Array sk = Ok ska
    /\ nacl_sign_keyPair_fromSecretKey ska = Ok pka
    /\ hexToUint8Array (toHexString pka) = Ok key
    /\ fst (getEntry (toHexString pka) dk opts) = Ok signedEntry
    /\ getNextRevisionFromEntry (entry signedEntry) = Ok rev
    /\ uploadFile (uploaded_file dk j opts) = Ok skylink
    /\ decodeSkylinkBase64 (trimUriPrefix skylink URI_SKYNET_PREFIX) = Ok d
    /\ List.length d = RAW_SKYLINK_SIZE
    /\ r = {| json_data := Some j;
              dataLink :=
                Some (formatSkylink
                        (formatSkylink (trimUriPrefix skylink URI_SKYNET_PREFIX))) |}
    /\ t = [Start (Upload (uploaded_file dk j opts));
            Start (RegistryGet
                     (entry_url (toHexString pka) (wire_datakey dk opts) opts))]
           ++ interleave schedule
                [Done (RegistryGet
                         (entry_url (toHexString pka) (wire_datakey dk opts) opts))]
                [Done (Upload (uploaded_file dk j opts))]
           ++ POST (endpointSetEntry opts)
                (transformRequest (post_data key (wire_datakey dk opts) rev d sig)).
Proof.
  unfold setJSON. intros H.
  apply bind_Ok_inv in H as (u & t1 & t2 & H1 & H & ->).
  apply lift_Ok_inv in H1 as [_ ->].
  apply bind_Ok_inv in H as (u' & t3 & t4 & H3 & H & ->).
  apply lift_Ok_inv in H3 as [_ ->].
  apply bind_Ok_inv in H as (ska & t5 & t6 & H5 & H & ->).
  apply lift_Ok_inv in H5 as [Hska ->].
  apply bind_Ok_inv in H as (pka & t7 & t8 & H7 & H & ->).
  apply lift_Ok_inv in H7 as [Hpka ->].
  apply bind_Ok_inv in H as ([e link] & t9 & t10 & H9 & H & ->).
  apply getOrCreateRegistryEntry_Ok_link in H9
    as (se & skylink & Hget & Hup & Hrev & Hdk & Hd & Hlen & -> & ->).
  apply bind_Ok_inv in H as (u'' & t11 & t12 & H11 & H & ->). destruct u''.
  apply setEntry_Ok_post in H11
    as (ska' & pka' & key & sig & Hska' & Hpka' & Hkey & _ & _ & ->).
  rewrite Hska in Hska'. inversion Hska'; subst ska'.
  rewrite Hpka in Hpka'. inversion Hpka'; subst pka'.
  unfold ret in H. injection H as <- <-. rewrite Hdk, app_nil_r.
  exists ska, pka, key, se, skylink, (revision e), (data e), sig.
  cbn [app]. repeat split; auto.
Qed.

(** X7 (the wrapper round trip).  When [setJSON] succeeds on [j], the file it
    has uploaded is the serialisation of the wrapper [{_data: j, _v: 2}], and
    a [getJSON] whose download yields that wrapper returns [j] itself with
    the data link. *)
Theorem setJSON_getJSON_round_trip sk dk j opts r t :
  setJSON sk dk j opts = (Ok r, t) ->
  json_data r = Some j
  /\ In (Done (Upload (uploaded_file dk j opts))) t
  /\ file_content (uploaded_file dk j opts) = JSON_stringify (fullData j)
  /\ (forall pk' dk' opts' e t' raw link,
        getSkyDBRegistryEntry pk' dk' opts' = (Ok (Some e), t') ->
        parseDataLink (data e) true = Ok (raw, link) ->
        checkCachedDataLink raw (cachedDataLink opts') = Ok false ->
        getFileContent link = Ok (fullData j) ->
        getJSON pk' dk' opts'
        = (Ok {| json_data := Some j; dataLink := Some link |},
           t' ++ [Start (Download link); Done (Download link)])).
Proof.
  intros H.
  assert (Hobj : not_an_object j = false).
  { unfold setJSON in H.
    apply bind_Ok_inv in H as (u & t1 & t2 & _ & H & _).
    apply bind_Ok_inv in H as (u' & t3 & t4 & H3 & _ & _).
    apply lift_Ok_inv in H3 as [H3 _]. unfold validateObject in H3.
    destruct j; simpl in H3; try discriminate; reflexivity. }
  assert (Hr : json_data r = Some j).
  { unfold setJSON in H.
    apply bind_Ok_inv in H as (u & t1 & t2 & _ & H & _).
    apply bind_Ok_inv in H as (u' & t3 & t4 & _ & H & _).
    apply bind_Ok_inv in H as (ska & t5 & t6 & _ & H & _).
    apply bind_Ok_inv in H as (pka & t7 & t8 & _ & H & _).
    apply bind_Ok_inv in H as ([e link] & t9 & t10 & _ & H & _).
    apply bind_Ok_inv in H as (u'' & t11 & t12 & _ & H & _).
    unfold ret in H. inversion H. reflexivity. }
  split; [exact Hr |]. split; [| split; [reflexivity |]].
  - apply setJSON_Ok in H as (url & body & ->).
    apply in_or_app. right. apply in_or_app. left.
    apply In_interleave. right. simpl. auto.
  - intros pk' dk' opts' e t' raw link Hs Hl Hc Hd.
    rewrite (getJSON_found _ _ _ _ _ _ _ Hs Hl), Hc, Hd.
    unfold jsonOfDownload, fullData. simpl.
    destruct j; try discriminate; reflexivity.
Qed.

End WritesMore.

(** * Properties of the MySky methods and of the file API *)

Section MySkyMore.

Context `{Ext : External}.

Lemma bind_await {A B} (op : Operation) (r : Result A) (f : A -> M B) :
  bind (await op r) f
  = match r with
    | Ok a => (fst (f a), [Start op; Done op] ++ snd (f a))
    | Throw e => (Throw e, [Start op; Done op])
    end.
Proof. unfold await, bind. destruct r; [destruct (f a) |]; reflexivity. Qed.

Lemma snd_getNextRegistryEntry pk dk d opts :
  snd (getNextRegistryEntry pk dk d opts) = snd (getEntry pk dk opts).
Proof.
  unfold getNextRegistryEntry. rewrite snd_bind.
  destruct (fst (getEntry pk dk opts)) as [se |]; [| apply app_nil_r].
  rewrite snd_bind. simpl.
  destruct (getNextRevisionFromEntry (entry se)); simpl; apply app_nil_r.
Qed.

Lemma no_post_getEntry pk dk opts : no_post (snd (getEntry pk dk opts)).
Proof.
  intros ep body.
  destruct (getEntry_trace pk dk opts) as [-> | (url & _ & ->)]; simpl.
  - tauto.
  - intros [H | [H | []]]; discriminate.
Qed.

Lemma no_post_signed path t : no_post t -> signed_by_delegate path t.
Proof.
  intros Hno pre ep body post ->. exfalso.
  apply (Hno ep body). apply in_or_app. right. simpl. auto.
Qed.

Lemma postSignedEntry_trace_body pk e sig opts :
  snd (postSignedEntry pk e sig opts) = []
  \/ exists key,
       hexToUint8Array pk = Ok key
       /\ snd (postSignedEntry pk e sig opts)
       = POST (endpointSetEntry opts)
           (transformRequest
              (post_data key (wire_datakey (dataKey e) opts) (revision e) (data e) sig)).
Proof.
  unfold postSignedEntry.
  destruct (validateHexString "publicKey" pk); [| left; reflexivity].
  rewrite (bind_lift_Ok _ _ _ eq_refl).
  destruct (hexToUint8Array pk) as [key |]; [| left; reflexivity].
  rewrite (bind_lift_Ok _ _ _ eq_refl).
  right. exists key. split; reflexivity.
Qed.

(** The common end of the MySky writes: the delegate signs, then the entry
    is posted. *)
Lemma sign_then_post_signed path pk e opts l0 (tp : Uint8Array -> list Event) :
  mysky_userID = Ok pk ->
  no_post l0 ->
  hashedDataKeyHex opts = true ->
  dataKey e = deriveDiscoverableFileTweak path ->
  (forall sig, tp sig = snd (postSignedEntry pk e sig opts)) ->
  signed_by_delegate path
    (l0 ++ [Start (SignRegistryEntry e path); Done (SignRegistryEntry e path)]
        ++ match mysky_signRegistryEntry e path with
           | Ok sig => tp sig
           | Throw _ => []
           end).
Proof.
  intros Hpk Hno Hh Hdk Htp.
  assert (Hno' : no_post
            (l0 ++ [Start (SignRegistryEntry e path); Done (SignRegistryEntry e path)])).
  { intros ep body Hin. apply in_app_or in Hin as [Hin | Hin].
    - exact (Hno _ _ Hin).
    - simpl in Hin. destruct Hin as [H | [H | []]]; discriminate. }
  destruct (mysky_signRegistryEntry e path) as [sig |] eqn:Hsig.
  - rewrite Htp.
    destruct (postSignedEntry_trace_body pk e sig opts) as [-> | (key & Hkey & ->)].
    + rewrite app_nil_r. now apply no_post_signed.
    + intros pre ep body post Heq. rewrite app_assoc in Heq.
      assert (Hincl : incl
                (l0 ++ [Start (SignRegistryEntry e path); Done (SignRegistryEntry e path)])
                pre).
      { eapply incl_prefix_before; [| exact Heq]. apply Hno'. }
      assert (Hin : In (Start (RegistryPost ep body))
                (POST (endpointSetEntry opts)
                   (transformRequest
                      (post_data key (wire_datakey (dataKey e) opts)
                         (revision e) (data e) sig)))).
      { assert (Hall : In (Start (RegistryPost ep body))
                  (pre ++ Start (RegistryPost ep body) :: post))
          by (apply in_or_app; right; simpl; auto).
        rewrite <- Heq in Hall. apply in_app_or in Hall as [Hall | Hall]; [| exact Hall].
        exfalso. exact (Hno' _ _ Hall). }
      unfold POST in Hin. cbn [In] in Hin.
      destruct Hin as [Hin | [Hin | []]]; [| discriminate].
      injection Hin as <- <-.
      assert (Hw : wire_datakey (dataKey e) opts = dataKey e)
        by (unfold wire_datakey; now rewrite Hh).
      rewrite Hw. exists pk, e, sig, key.
      split; [exact Hpk |]. split; [exact Hkey |].
      split; [exact Hsig |]. split; [| split; [exact Hdk | reflexivity]].
      apply Hincl. apply in_or_app. right. right. left. reflexivity.
  - rewrite app_nil_r. now apply no_post_signed.
Qed.

Lemma getNextRegistryEntry_dataKey pk dk d opts e :
  fst (getNextRegistryEntry pk dk d opts) = Ok e -> dataKey e = dk.
Proof.
  intros H. destruct (getNextRegistryEntry pk dk d opts) as [r t] eqn:Hn.
  simpl in H. subst r.
  now apply getNextRegistryEntry_Ok in Hn as (_ & _ & _ & _ & _ & _ & Hdk & _).
Qed.

Lemma next_then_sign_signed {A} path pk d opts l0 (k : RegistryEntry -> Uint8Array -> M A) :
  mysky_userID = Ok pk ->
  no_post l0 ->
  hashedDataKeyHex opts = true ->
  (forall e sig, snd (k e sig) = snd (postSignedEntry pk e sig opts)) ->
  signed_by_delegate path
    (l0 ++ snd (e <- getNextRegistryEntry pk (deriveDiscoverableFileTweak path) d opts ;;
                sig <- await (SignRegistryEntry e path) (mysky_signRegistryEntry e path) ;;
                k e sig)).
Proof.
  intros Hpk Hno Hh Hk. rewrite snd_bind, snd_getNextRegistryEntry.
  assert (Hno' : no_post
            (l0 ++ snd (getEntry pk (deriveDiscoverableFileTweak path) opts))).
  { intros ep body Hin. apply in_app_or in Hin as [Hin | Hin].
    - exact (Hno _ _ Hin).
    - exact (no_post_getEntry _ _ _ _ _ Hin). }
  destruct (fst (getNextRegistryEntry pk (deriveDiscoverableFileTweak path) d opts))
    as [e |] eqn:He.
  - rewrite bind_await, app_assoc.
    pose proof (getNextRegistryEntry_dataKey _ _ _ _ _ He) as Hdk.
    replace (snd match mysky_signRegistryEntry e path with
                 | Ok a =>
                     (fst (k e a),
                      [Start (SignRegistryEntry e path); Done (SignRegistryEntry e path)]
                      ++ snd (k e a))
                 | Throw e0 =>
                     (Throw e0,
                      [Start (SignRegistryEntry e path); Done (SignRegistryEntry e path)])
                 end)
      with ([Start (SignRegistryEntry e path); Done (SignRegistryEntry e path)]
            ++ match mysky_signRegistryEntry e path with
               | Ok sig => snd (k e sig)
               | Throw _ => []
               end)
      by (destruct (mysky_signRegistryEntry e path); reflexivity).
    apply (sign_then_post_signed path pk e opts _ (fun sig => snd (k e sig)));
      auto.
  - rewrite app_nil_r. now apply no_post_signed.
Qed.

Lemma no_post_userID : no_post [Start UserID; Done UserID].
Proof. intros ep body [H | [H | []]]; discriminate. Qed.

Lemma snd_bind_ret {A B} (m : M A) (f : A -> B) :
  snd (bind m (fun a => ret (f a))) = snd m.
Proof. destruct m as [[a |] t]; simpl; [apply app_nil_r | reflexivity]. Qed.

Lemma no_post_getOrCreateRegistryEntry pk dk j opts :
  no_post (snd (getOrCreateRegistryEntry pk dk j opts)).
Proof.
  intros ep body Hin.
  apply getOrCreateRegistryEntry_events in Hin as [Hin | [Hin | Hin]];
    try discriminate.
  exact (no_post_getEntry _ _ _ _ _ Hin).
Qed.

Lemma no_post_app l1 l2 : no_post l1 -> no_post l2 -> no_post (l1 ++ l2).
Proof.
  intros H1 H2 ep body Hin. apply in_app_or in Hin as [Hin | Hin].
  - exact (H1 _ _ Hin).
  - exact (H2 _ _ Hin).
Qed.

Lemma MySky_setJSON_signed path j opts :
  signed_by_delegate path (snd (MySky_setJSON path j opts)).
Proof.
  unfold MySky_setJSON.
  destruct (validateObject "json" j) eqn:Hv;
    [| rewrite (bind_lift_Throw _ _ _ eq_refl);
       apply no_post_signed; intros ep body []].
  rewrite (bind_lift_Ok _ _ _ eq_refl), bind_await.
  destruct mysky_userID as [pk |] eqn:Hpk; [| apply no_post_signed, no_post_userID].
  cbv beta iota. unfold snd at 1.
  rewrite snd_bind.
  pose proof (no_post_app _ _ no_post_userID
                (no_post_getOrCreateRegistryEntry pk
                   (deriveDiscoverableFileTweak path) j
                   (with_hashedDataKeyHex opts))) as Hno.
  destruct (getOrCreateRegistryEntry pk (deriveDiscoverableFileTweak path) j
              (with_hashedDataKeyHex opts)) as [[[e link] | err] tc] eqn:Hc;
    cbn [fst snd] in *.
  - pose proof (getOrCreateRegistryEntry_Ok_link _ _ _ _ _ _ _ Hc)
      as (_ & _ & _ & _ & _ & Hdk & _).
    rewrite bind_await, app_assoc.
    replace (snd match mysky_signRegistryEntry e path with
                 | Ok a =>
                     (fst (_ <- postSignedEntry pk e a (with_hashedDataKeyHex opts) ;;
                           ret {| json_data := Some j; dataLink := Some link |}),
                      [Start (SignRegistryEntry e path); Done (SignRegistryEntry e path)]
                      ++ snd (_ <- postSignedEntry pk e a (with_hashedDataKeyHex opts) ;;
                              ret {| json_data := Some j; dataLink := Some link |}))
                 | Throw e0 =>
                     (Throw e0,
                      [Start (SignRegistryEntry e path); Done (SignRegistryEntry e path)])
                 end)
      with ([Start (SignRegistryEntry e path); Done (SignRegistryEntry e path)]
            ++ match mysky_signRegistryEntry e path with
               | Ok sig =>
                   snd (_ <- postSignedEntry pk e sig (with_hashedDataKeyHex opts) ;;
                        ret {| json_data := Some j; dataLink := Some link |})
               | Throw _ => []
               end)
      by (destruct (mysky_signRegistryEntry e path); reflexivity).
    apply (sign_then_post_signed path pk e (with_hashedDataKeyHex opts) _
             (fun sig =>
                snd (_ <- postSignedEntry pk e sig (with_hashedDataKeyHex opts) ;;
                     ret {| json_data := Some j; dataLink := Some link |})));
      [exact Hpk | exact Hno | reflexivity | exact Hdk |].
    intros sig. apply (snd_bind_ret _ (fun _ => _)).
  - rewrite app_nil_r. now apply no_post_signed.
Qed.

(** X9 (no write without the delegate).  In [MySky.deleteJSON],
    [MySky.setDataLink], [MySky.setEntryData] and [MySky.setJSON], a registry
    POST occurs only after the MySky delegate has returned a signature for
    the entry of that path, and its body carries the public key of the user,
    that entry (under the tweak of the path, not hashed again) and that
    signature; when the delegate refuses, nothing is posted. *)
Theorem mysky_writes_signed_by_delegate path opts :
  signed_by_delegate path (snd (MySky_deleteJSON path opts))
  /\ (forall link, signed_by_delegate path (snd (MySky_setDataLink path link opts)))
  /\ (forall d, signed_by_delegate path (snd (MySky_setEntryData path d opts)))
  /\ (forall j, signed_by_delegate path (snd (MySky_setJSON path j opts)))
  /\ ((forall e, exists err, mysky_signRegistryEntry e path = Throw err) ->
      no_post (snd (MySky_deleteJSON path opts))
      /\ (forall link, no_post (snd (MySky_setDataLink path link opts)))
      /\ (forall d, no_post (snd (MySky_setEntryData path d opts)))
      /\ (forall j, no_post (snd (MySky_setJSON path j opts)))).
Proof.
  assert (Hdel : signed_by_delegate path (snd (MySky_deleteJSON path opts))).
  { unfold MySky_deleteJSON. rewrite bind_await.
    destruct mysky_userID as [pk |] eqn:Hpk; [| apply no_post_signed, no_post_userID].
    cbv beta iota. unfold snd at 1.
    apply next_then_sign_signed;
      [exact Hpk | apply no_post_userID | reflexivity | reflexivity]. }
  assert (Hlink : forall link,
             signed_by_delegate path (snd (MySky_setDataLink path link opts))).
  { intros link. unfold MySky_setDataLink. rewrite bind_await.
    destruct mysky_userID as [pk |] eqn:Hpk; [| apply no_post_signed, no_post_userID].
    cbv beta iota. unfold snd at 1.
    destruct (decodeSkylink link) as [raw |] eqn:Hraw.
    - rewrite (bind_lift_Ok _ _ _ eq_refl).
      apply next_then_sign_signed;
        [exact Hpk | apply no_post_userID | reflexivity | reflexivity].
    - rewrite (bind_lift_Throw _ _ _ eq_refl). simpl.
      apply no_post_signed, no_post_userID. }
  assert (Hdata : forall d,
             signed_by_delegate path (snd (MySky_setEntryData path d opts))).
  { intros d. unfold MySky_setEntryData.
    destruct (MAX_ENTRY_LENGTH <? List.length d)%nat.
    - apply no_post_signed. intros ep body [].
    - rewrite bind_await.
      destruct mysky_userID as [pk |] eqn:Hpk; [| apply no_post_signed, no_post_userID].
      cbv beta iota. unfold snd at 1.
      apply (next_then_sign_signed path pk d (with_hashedDataKeyHex opts)
               [Start UserID; Done UserID]
               (fun e sig => _ <- postSignedEntry pk e sig (with_hashedDataKeyHex opts) ;;
                             ret (data e)));
        [exact Hpk | apply no_post_userID | reflexivity |].
      intros e sig. apply snd_bind_ret. }
  split; [exact Hdel |]. split; [exact Hlink |]. split; [exact Hdata |].
  split; [intros j; apply MySky_setJSON_signed |].
  intros Hrefuse.
  assert (Hno : forall t, signed_by_delegate path t -> no_post t).
  { intros t Hs ep body Hin. apply in_split in Hin as (pre & post & ->).
    destruct (Hs pre ep body post eq_refl) as (pk & e & sig & key & _ & _ & Hsig & _).
    destruct (Hrefuse e) as [err Herr]. rewrite Herr in Hsig. discriminate. }
  split; [apply Hno, Hdel |].
  split; [intros x; apply Hno, Hlink |].
  split; [intros x; apply Hno, Hdata |].
  intros j. apply Hno, MySky_setJSON_signed.
Qed.

End MySkyMore.

Section ReadsMore.

Context `{Ext : External}.

Variable getFileContent_arraybuffer : string -> Result Uint8Array.

Lemma snd_getSkyDBRegistryEntry pk dk opts :
  snd (getSkyDBRegistryEntry pk dk opts) = snd (getEntry pk dk opts).
Proof. now rewrite getSkyDBRegistryEntry_spec. Qed.

Lemma snd_getJSON_prefix pk dk opts :
  exists t, snd (getJSON pk dk opts) = snd (getEntry pk dk opts) ++ t.
Proof.
  unfold getJSON. rewrite snd_bind, snd_getSkyDBRegistryEntry. eexists. reflexivity.
Qed.

Lemma snd_getEntry_valid_key pk dk opts :
  isHexString (trimPrefix pk ED25519_PREFIX) = true ->
  snd (getEntry pk dk opts) = GET (entry_url pk (wire_datakey dk opts) opts).
Proof.
  intros Hhex. pose proof (getEntryUrl_spec pk dk opts) as Hurl. rewrite Hhex in Hurl.
  destruct (portal_get (entry_url pk (wire_datakey dk opts) opts)) as [body | err] eqn:Hp.
  - rewrite (getEntry_fulfilled _ _ _ _ _ Hurl Hp). reflexivity.
  - rewrite (getEntry_rejected _ _ _ _ _ Hurl Hp). reflexivity.
Qed.

Lemma file_getEntryData_spec userID path opts :
  file_getEntryData userID path opts
  = (match fst (getEntry userID (deriveDiscoverableFileTweak path)
                  (with_hashedDataKeyHex opts)) with
     | Ok signedEntry =>
         Ok {| entry_data := match entry signedEntry with
                             | Some e => Some (data e)
                             | None => None
                             end |}
     | Throw err => Throw err
     end,
     snd (getEntry userID (deriveDiscoverableFileTweak path)
            (with_hashedDataKeyHex opts))).
Proof.
  unfold file_getEntryData.
  destruct (getEntry _ _ _) as [[se | err] t]; cbn [bind fst snd]; [| reflexivity].
  destruct (entry se); cbn [ret]; now rewrite app_nil_r.
Qed.

(** X10 (MySky reads).  [MySky.getJSON] and [MySky.getEntryData] ask the
    delegate for the user ID and then do what [file.getJSON] and
    [file.getEntryData] do for that user: same result, same requests.  When
    the delegate fails, no registry request is made.  The reads use the tweak
    derived from the path as the data key on the wire, not hashed again,
    whatever [hashedDataKeyHex] the caller has passed. *)
Theorem mysky_reads_as_file_api path opts :
  (forall userID, mysky_userID = Ok userID ->
      MySky_getJSON path opts
      = (fst (file_getJSON userID path opts),
         [Start UserID; Done UserID] ++ snd (file_getJSON userID path opts))
      /\ MySky_getEntryData path opts
         = (fst (file_getEntryData userID path opts),
            [Start UserID; Done UserID] ++ snd (file_getEntryData userID path opts)))
  /\ (forall err, mysky_userID = Throw err ->
      MySky_getJSON path opts = (Throw err, [Start UserID; Done UserID])
      /\ MySky_getEntryData path opts = (Throw err, [Start UserID; Done UserID]))
  /\ (forall userID,
      isHexString (trimPrefix userID ED25519_PREFIX) = true ->
      snd (file_getEntryData userID path opts)
      = GET (entry_url userID (deriveDiscoverableFileTweak path) opts)
      /\ exists t,
           snd (file_getJSON userID path opts)
           = GET (entry_url userID (deriveDiscoverableFileTweak path) opts) ++ t).
Proof.
  split; [| split].
  - intros userID Hid. unfold MySky_getJSON, MySky_getEntryData.
    rewrite !bind_await, Hid. split; reflexivity.
  - intros err Hid. unfold MySky_getJSON, MySky_getEntryData.
    rewrite !bind_await, Hid. split; reflexivity.
  - intros userID Hhex.
    pose proof (snd_getEntry_valid_key userID (deriveDiscoverableFileTweak path)
                  (with_hashedDataKeyHex opts) Hhex) as Hget.
    change (entry_url userID
              (wire_datakey (deriveDiscoverableFileTweak path) (with_hashedDataKeyHex opts))
              (with_hashedDataKeyHex opts))
      with (entry_url userID (deriveDiscoverableFileTweak path) opts) in Hget.
    split.
    + rewrite file_getEntryData_spec. exact Hget.
    + unfold file_getJSON.
      destruct (snd_getJSON_prefix userID (deriveDiscoverableFileTweak path)
                  (with_hashedDataKeyHex opts)) as (t & Ht).
      exists t. now rewrite Ht, Hget.
Qed.


Lemma getRawBytes_found pk dk opts e t :
  getSkyDBRegistryEntry pk dk opts = (Ok (Some e), t) ->
  getRawBytes getFileContent_arraybuffer pk dk opts
  = match parseDataLink (data e) false with
    | Throw err => (Throw err, t)
    | Ok (raw, link) =>
        match checkCachedDataLink raw (cachedDataLink opts) with
        | Throw err => (Throw err, t)
        | Ok true => (Ok {| raw_data := None; raw_dataLink := Some link |}, t)
        | Ok false =>
            (match getFileContent_arraybuffer link with
             | Throw err => Throw err
             | Ok buffer => Ok {| raw_data := Some buffer; raw_dataLink := Some link |}
             end, t ++ [Start (Download link); Done (Download link)])
        end
    end.
Proof.
  intros Hs. unfold getRawBytes. rewrite Hs. cbn [bind].
  destruct (parseDataLink (data e) false) as [[raw link] | err]; cbn [lift bind];
    [| now rewrite app_nil_r].
  destruct (checkCachedDataLink raw (cachedDataLink opts)) as [[|] | err];
    cbn [lift bind ret app]; rewrite ?app_nil_r; try reflexivity.
  unfold await. destruct (getFileContent_arraybuffer link); cbn [bind ret];
    rewrite ?app_nil_r; reflexivity.
Qed.

Lemma parseDataLink_not_legacy d :
  List.length d <> BASE64_ENCODED_SKYLINK_SIZE ->
  parseDataLink d true = parseDataLink d false.
Proof.
  intros H. unfold parseDataLink. apply Nat.eqb_neq in H. now rewrite H.
Qed.

(** X12 ([getRawBytes]).  Unless the entry holds a legacy base64 link of 46
    bytes (which [getJSON] accepts and [getRawBytes] rejects), [getRawBytes]
    makes the same requests as [getJSON]: the registry read, then at most one
    download of the data link.  What it returns is [{data: null, dataLink:
    null}] for an absent or deleted entry, the data link without data when
    the caller's cached link is current, and otherwise the downloaded bytes
    with the link they came from. *)
Theorem getRawBytes_as_getJSON pk dk opts :
  ((forall e, fst (getSkyDBRegistryEntry pk dk opts) = Ok (Some e) ->
      List.length (data e) <> BASE64_ENCODED_SKYLINK_SIZE) ->
   snd (getRawBytes getFileContent_arraybuffer pk dk opts) = snd (getJSON pk dk opts))
  /\ (forall r,
      fst (getRawBytes getFileContent_arraybuffer pk dk opts) = Ok r ->
      (raw_data r = None /\ raw_dataLink r = None
       /\ fst (getSkyDBRegistryEntry pk dk opts) = Ok None)
      \/ (raw_data r = None
          /\ exists link c,
               raw_dataLink r = Some link /\ cachedDataLink opts = Some c /\ c <> ""
               /\ forall l,
                    ~ In (Start (Download l))
                        (snd (getRawBytes getFileContent_arraybuffer pk dk opts)))
      \/ (exists buffer link,
            raw_data r = Some buffer /\ raw_dataLink r = Some link
            /\ getFileContent_arraybuffer link = Ok buffer
            /\ In (Done (Download link))
                 (snd (getRawBytes getFileContent_arraybuffer pk dk opts)))).
Proof.
  split.
  - intros Hlen.
    destruct (getSkyDBRegistryEntry pk dk opts) as [[[e |] | err] t] eqn:Hs.
    + rewrite (getRawBytes_found _ _ _ _ _ Hs).
      specialize (Hlen e eq_refl).
      destruct (parseDataLink (data e) true) as [[raw link] | err] eqn:Hl.
      * rewrite (getJSON_found _ _ _ _ _ _ _ Hs Hl).
        rewrite <- (parseDataLink_not_legacy _ Hlen), Hl.
        destruct (checkCachedDataLink raw (cachedDataLink opts)) as [[|] | err'];
          reflexivity.
      * rewrite <- (parseDataLink_not_legacy _ Hlen), Hl.
        unfold getJSON. rewrite Hs. cbn [bind]. rewrite Hl. cbn [lift bind].
        now rewrite app_nil_r.
    + rewrite (getJSON_not_found _ _ _ _ Hs). unfold getRawBytes. rewrite Hs.
      cbn [bind ret snd]. apply app_nil_r.
    + unfold getRawBytes, getJSON. rewrite Hs. reflexivity.
  - intros r H.
    destruct (getSkyDBRegistryEntry pk dk opts) as [[[e |] | err] t] eqn:Hs.
    + pose proof (getSkyDBRegistryEntry_registry_only _ _ _ _ _ Hs) as Hreg.
      rewrite (getRawBytes_found _ _ _ _ _ Hs) in H |- *.
      destruct (parseDataLink (data e) false) as [[raw link] | err]; [| discriminate].
      destruct (checkCachedDataLink raw (cachedDataLink opts)) as [[|] | err] eqn:Hc;
        try discriminate.
      * right. left. cbn [fst] in H. injection H as <-. cbn [raw_data raw_dataLink snd].
        split; [reflexivity |].
        apply checkCachedDataLink_true in Hc as (c & Hc & Hne).
        exists link, c. repeat split; auto.
        intros l. now apply registry_only_no_download.
      * right. right. cbn [fst] in H.
        destruct (getFileContent_arraybuffer link) as [buffer |] eqn:Hb;
          [| discriminate].
        injection H as <-. exists buffer, link. cbn [raw_data raw_dataLink snd].
        repeat split; auto. apply in_or_app. right. right. left. reflexivity.
    + left. unfold getRawBytes in H. rewrite Hs in H. cbn [bind ret fst] in H.
      injection H as <-. auto.
    + unfold getRawBytes in H. rewrite Hs in H. discriminate.
Qed.

End ReadsMore.

(** ** The portal URL of the client *)

Section ClientMore.

Variable defaultPortalUrl : string.
Variable trimSuffix : string -> string -> string.
Variable executeRequest : RequestConfig -> Settled PortalResponse.

Lemma portalUrl_custom c u resolved :
  truthy_string (customPortalUrl c) = Some u ->
  SkynetClient_portalUrl trimSuffix executeRequest c resolved
  = (FulfilledWith (Some u), resolved, []).
Proof. intros H. unfold SkynetClient_portalUrl. now rewrite H. Qed.

Lemma portalUrl_first c :
  truthy_string (customPortalUrl c) = None ->
  SkynetClient_portalUrl trimSuffix executeRequest c None
  = (awaited (fst (resolvePortalUrl trimSuffix executeRequest c)),
     Some (fst (resolvePortalUrl trimSuffix executeRequest c)),
     [{| config_method := "head";
         config_url := initialPortalUrl c;
         config_endpointPath := "/" |}]).
Proof.
  intros H. unfold SkynetClient_portalUrl, initPortalUrl. rewrite H.
  unfold resolvePortalUrl. cbn [fst].
  destruct (executeRequest _) as [response | e]; [| reflexivity].
  destruct (response_headers response) as [headers |]; [| reflexivity].
  destruct (truthy_string (assoc "skynet-portal-api" headers)); reflexivity.
Qed.

Lemma portalUrl_later c r :
  truthy_string (customPortalUrl c) = None ->
  SkynetClient_portalUrl trimSuffix executeRequest c (Some r) = (awaited r, Some r, []).
Proof.
  intros H. unfold SkynetClient_portalUrl, initPortalUrl. rewrite H.
  destruct r; reflexivity.
Qed.

Lemma portalUrl_calls_resolved cs r :
  snd (portalUrl_calls trimSuffix executeRequest cs (Some r)) = []
  /\ snd (fst (portalUrl_calls trimSuffix executeRequest cs (Some r))) = Some r.
Proof.
  induction cs as [| c cs IH]; [split; reflexivity |].
  cbn [portalUrl_calls].
  destruct (truthy_string (customPortalUrl c)) as [u |] eqn:Hc.
  - rewrite (portalUrl_custom _ _ _ Hc).
    destruct (portalUrl_calls trimSuffix executeRequest cs (Some r)) as [[rs s2] t2].
    cbn [fst snd app] in *. exact IH.
  - rewrite (portalUrl_later _ _ Hc).
    destruct (portalUrl_calls trimSuffix executeRequest cs (Some r)) as [[rs s2] t2].
    cbn [fst snd app] in *. exact IH.
Qed.

Lemma portalUrl_calls_requests cs resolved :
  (List.length (snd (portalUrl_calls trimSuffix executeRequest cs resolved)) <= 1)%nat.
Proof.
  revert resolved. induction cs as [| c cs IH]; intros resolved; [simpl; lia |].
  cbn [portalUrl_calls].
  destruct (truthy_string (customPortalUrl c)) as [u |] eqn:Hc.
  - rewrite (portalUrl_custom _ _ _ Hc). specialize (IH resolved).
    destruct (portalUrl_calls trimSuffix executeRequest cs resolved) as [[rs s2] t2].
    cbn [fst snd app] in *. exact IH.
  - destruct resolved as [r |].
    + rewrite (portalUrl_later _ _ Hc).
      pose proof (portalUrl_calls_resolved cs r) as [Hnil _].
      destruct (portalUrl_calls trimSuffix executeRequest cs (Some r)) as [[rs s2] t2].
      cbn [fst snd app] in *. subst t2. simpl. lia.
    + rewrite (portalUrl_first _ Hc).
      pose proof (portalUrl_calls_resolved cs
                    (fst (resolvePortalUrl trimSuffix executeRequest c))) as [Hnil _].
      destruct (portalUrl_calls trimSuffix executeRequest cs _) as [[rs s2] t2].
      cbn [fst snd app] in *. subst t2. simpl. lia.
Qed.

Lemma new_SkynetClient_custom u :
  u <> "" ->
  truthy_string (customPortalUrl (new_SkynetClient defaultPortalUrl u)) = Some u.
Proof.
  intros Hu. unfold new_SkynetClient. apply String.eqb_neq in Hu. rewrite Hu.
  cbn [customPortalUrl truthy_string]. now rewrite Hu.
Qed.

(** X13 (the portal URL is resolved once).  A client built with a portal URL
    returns that URL without any request.  A client built without one makes
    one HEAD request to the default portal, and the promise of its result is
    kept in a static field: every later call, on any such client, returns the
    result of that first request without a new request, also when the first
    request failed.  So a sequence of [portalUrl] calls makes at most one
    request in all. *)
Theorem portalUrl_resolved_once :
  (forall u resolved, u <> "" ->
      SkynetClient_portalUrl trimSuffix executeRequest
        (new_SkynetClient defaultPortalUrl u) resolved
      = (FulfilledWith (Some u), resolved, []))
  /\ SkynetClient_portalUrl trimSuffix executeRequest
       (new_SkynetClient defaultPortalUrl "") None
     = (awaited (fst (resolvePortalUrl trimSuffix executeRequest
                        (new_SkynetClient defaultPortalUrl ""))),
        Some (fst (resolvePortalUrl trimSuffix executeRequest
                     (new_SkynetClient defaultPortalUrl ""))),
        [{| config_method := "head";
            config_url := defaultPortalUrl;
            config_endpointPath := "/" |}])
  /\ (forall r,
      SkynetClient_portalUrl trimSuffix executeRequest
        (new_SkynetClient defaultPortalUrl "") (Some r)
      = (awaited r, Some r, []))
  /\ (forall cs resolved,
      (List.length (snd (portalUrl_calls trimSuffix executeRequest cs resolved)) <= 1)%nat
      /\ (resolved <> None ->
          snd (portalUrl_calls trimSuffix executeRequest cs resolved) = []))
  /\ (forall n,
      snd (portalUrl_calls trimSuffix executeRequest
             (repeat (new_SkynetClient defaultPortalUrl "") (S n)) None)
      = [{| config_method := "head";
            config_url := defaultPortalUrl;
            config_endpointPath := "/" |}]
      /\ fst (fst (portalUrl_calls trimSuffix executeRequest
                     (repeat (new_SkynetClient defaultPortalUrl "") (S n)) None))
         = repeat (awaited (fst (resolvePortalUrl trimSuffix executeRequest
                                   (new_SkynetClient defaultPortalUrl ""))))
             (S n)).
Proof.
  assert (Hdefault :
            truthy_string (customPortalUrl (new_SkynetClient defaultPortalUrl "")) = None)
    by reflexivity.
  split; [| split; [| split; [| split]]].
  - intros u resolved Hu. apply portalUrl_custom. now apply new_SkynetClient_custom.
  - exact (portalUrl_first _ Hdefault).
  - intros r. exact (portalUrl_later _ r Hdefault).
  - intros cs resolved. split; [apply portalUrl_calls_requests |].
    intros Hres. destruct resolved as [r |]; [| contradiction].
    apply portalUrl_calls_resolved.
  - intros n. cbn [repeat portalUrl_calls]. rewrite (portalUrl_first _ Hdefault).
    set (c := new_SkynetClient defaultPortalUrl "").
    set (r := fst (resolvePortalUrl trimSuffix executeRequest c)).
    assert (Hrest : forall m,
               portalUrl_calls trimSuffix executeRequest (repeat c m) (Some r)
               = (repeat (awaited r) m, Some r, [])).
    { induction m as [| m IHm]; [reflexivity |].
      cbn [repeat portalUrl_calls]. rewrite (portalUrl_later _ _ Hdefault), IHm.
      reflexivity. }
    rewrite Hrest. split; reflexivity.
Qed.

End ClientMore.

(** * Runs on a concrete environment *)

Lemma next_revision_monotone_witness :
  getNextRevisionFromEntry (Some {| dataKey := "app"; data := []; revision := 41 |}) = Ok 42
  /\ getNextRevisionFromEntry
       (Some {| dataKey := "app"; data := []; revision := 18446744073709551615 |})
     = Throw RevisionExhausted
  /\ getRevisionFromSignedEntry
       {| entry := Some {| dataKey := "app"; data := []; revision := 41 |};
          signature := None |} = Ok 42
  /\ fst (@getNextRegistryEntry
            (Example.env (Example.served (Example.stored Example.skylink 7)) JNull [])
            Example.publicKey "app" (new_Uint8Array RAW_SKYLINK_SIZE) DEFAULT_OPTIONS)
     = Ok {| dataKey := "app"; data := new_Uint8Array RAW_SKYLINK_SIZE; revision := 8 |}.
Proof.
  destruct next_revision_monotone as (_ & H1 & H2 & _ & H3 & _ & H4 & _).
  split; [| split; [| split]].
  - apply (H1 {| dataKey := "app"; data := []; revision := 41 |}). reflexivity.
  - apply (H2 {| dataKey := "app"; data := []; revision := 18446744073709551615 |}).
    reflexivity.
  - apply (H3 {| dataKey := "app"; data := []; revision := 41 |} None). simpl. lia.
  - pose proof (H4 (Example.env (Example.served (Example.stored Example.skylink 7)) JNull [])
                    Example.publicKey "app" (new_Uint8Array RAW_SKYLINK_SIZE)
                    DEFAULT_OPTIONS) as H.
    destruct (@getEntry (Example.env (Example.served (Example.stored Example.skylink 7)) JNull [])
                Example.publicKey "app" DEFAULT_OPTIONS) as [[se | err] t] eqn:Hget;
      vm_compute in Hget; [| discriminate].
    rewrite (H se t eq_refl). injection Hget as <- _. reflexivity.
Defined.

(** The test double of tweetnacl keeps the contract that the theorem on
    [signEntry] assumes. *)
Lemma Reference_pad_length n b : List.length (Reference.pad n b) = n.
Proof.
  unfold Reference.pad. apply firstn_length_le.
  rewrite length_app, repeat_length. lia.
Qed.

Lemma Reference_nacl_sign_signed_message msg sk s :
  Reference.nacl_sign msg sk = Ok s ->
  exists sg, List.length sg = 64%nat /\ s = sg ++ msg.
Proof.
  unfold Reference.nacl_sign. destruct (List.length sk =? 64)%nat; [| discriminate].
  intros H. inversion H. exists (Reference.detached msg (skipn 32 sk)).
  split; [apply Reference_pad_length | reflexivity].
Qed.

Lemma Reference_hashRegistryEntry_length e hashed h :
  Reference.hashRegistryEntry e hashed = Ok h -> List.length h = 32%nat.
Proof.
  unfold Reference.hashRegistryEntry. intros H. inversion H.
  apply Reference_pad_length.
Qed.

Lemma Reference_verify_bad_size msg sig pk :
  List.length sig <> 64%nat ->
  exists err, Reference.nacl_sign_detached_verify msg sig pk = Throw err.
Proof.
  intros H. unfold Reference.nacl_sign_detached_verify.
  destruct (Nat.eqb_spec (List.length sig) 64); [contradiction |].
  eexists. reflexivity.
Qed.

Lemma signEntry_returns_signed_message_witness :
  exists s,
    fst (@signEntry (Example.env Example.not_found JNull [])
           Example.privateKey (Example.stored [] 0) false) = Ok s
    /\ List.length s = 96%nat
    /\ (forall pk, exists err,
          Reference.nacl_sign_detached_verify (Example.digest (Example.stored [] 0)) s pk
          = Throw err).
Proof.
  eexists. split; [vm_compute; reflexivity |].
  destruct (@signEntry_returns_signed_message
              (Example.env Example.not_found JNull [])
              Reference_nacl_sign_signed_message
              Reference_hashRegistryEntry_length
              Reference_verify_bad_size
              Example.privateKey (Example.stored [] 0) false _ eq_refl)
    as (Hlen & _ & Hverify).
  split; [exact Hlen |].
  intros pk. apply (Hverify pk). reflexivity.
Defined.

Lemma getEntry_returns_only_verified_witness :
  fst (@getEntry
         (Example.env (Example.tampered (Example.stored Example.skylink 7)
                                        (Example.stored Example.skylink 6)) JNull [])
         Example.publicKey "app" DEFAULT_OPTIONS)
  = Throw IntegrityError
  /\ fst (@getEntry (Example.env (Example.served (Example.stored Example.skylink 7)) JNull [])
            Example.publicKey "app" DEFAULT_OPTIONS)
     = Ok {| entry := Some (Example.stored Example.skylink 7);
             signature :=
               Some (Reference.detached
                       (Example.digest (Example.stored Example.skylink 7))
                       Example.publicKeyArray) |}.
Proof.
  split.
  - assert (Hurl : @getEntryUrl
                     (Example.env (Example.tampered (Example.stored Example.skylink 7)
                                                    (Example.stored Example.skylink 6))
                                  JNull [])
                     Example.publicKey "app" DEFAULT_OPTIONS = Ok Example.url)
      by (vm_compute; reflexivity).
    destruct (getEntry_returns_only_verified _ _ _ _ _ Hurl eq_refl) as (_ & Hbad & _).
    eapply Hbad; vm_compute; reflexivity.
  - assert (Hurl : @getEntryUrl
                     (Example.env (Example.served (Example.stored Example.skylink 7))
                                  JNull [])
                     Example.publicKey "app" DEFAULT_OPTIONS = Ok Example.url)
      by (vm_compute; reflexivity).
    destruct (getEntry_returns_only_verified _ _ _ _ _ Hurl eq_refl) as (_ & _ & Hgood).
    eapply Hgood; vm_compute; reflexivity.
Defined.

Lemma getEntry_not_found_or_propagated_witness :
  @getEntry (Example.env Example.not_found JNull []) Example.publicKey "app" DEFAULT_OPTIONS
  = (Ok {| entry := None; signature := None |},
     [Start (RegistryGet Example.url); Done (RegistryGet Example.url)])
  /\ @getEntry (Example.env (Rejected (Example.failing 500)) JNull [])
       Example.publicKey "app" DEFAULT_OPTIONS
     = (Throw (Thrown (Example.failing 500)),
        [Start (RegistryGet Example.url); Done (RegistryGet Example.url)]).
Proof.
  split.
  - assert (Hurl : @getEntryUrl (Example.env Example.not_found JNull [])
                     Example.publicKey "app" DEFAULT_OPTIONS = Ok Example.url)
      by (vm_compute; reflexivity).
    destruct (getEntry_not_found_or_propagated _ _ _ _ _ _ Hurl eq_refl eq_refl)
      as [H404 _].
    apply H404. reflexivity.
  - assert (Hurl : @getEntryUrl (Example.env (Rejected (Example.failing 500)) JNull [])
                     Example.publicKey "app" DEFAULT_OPTIONS = Ok Example.url)
      by (vm_compute; reflexivity).
    destruct (getEntry_not_found_or_propagated _ _ _ _ _ _ Hurl eq_refl eq_refl)
      as [_ Hother].
    apply (Hother 500); [reflexivity | discriminate | discriminate].
Defined.

Lemma setEntryData_length_check_witness :
  @MySky_setEntryData (Example.env Example.not_found JNull [])
    "app/profile" (repeat x01 71) DEFAULT_OPTIONS
  = (Throw (ValidationError "data"), [])
  /\ exists r t,
       @MySky_setEntryData (Example.env Example.not_found JNull [])
         "app/profile" (repeat x01 70) DEFAULT_OPTIONS
       = (r, Start UserID :: Done UserID :: t).
Proof.
  split.
  - apply (proj1 (@setEntryData_length_check (Example.env Example.not_found JNull [])
                    "app/profile" (repeat x01 71) DEFAULT_OPTIONS)).
    simpl. lia.
  - apply (proj2 (@setEntryData_length_check (Example.env Example.not_found JNull [])
                    "app/profile" (repeat x01 70) DEFAULT_OPTIONS)).
    simpl. lia.
Defined.




Lemma getJSON_cached_short_circuit_witness :
  @getJSON (Example.env (Example.served (Example.stored Example.skylink 7)) JNull [])
    Example.publicKey "app" (Example.with_cached ("sia:" ++ Example.skylink_string))
  = (Ok {| json_data := None;
           dataLink := Some ("sia:" ++ Example.skylink_string)%string |},
     [Start (RegistryGet Example.url); Done (RegistryGet Example.url)])
  /\ snd (@getJSON
            (Example.env (Example.served (Example.stored Example.skylink 7)) (JObj []) [])
            Example.publicKey "app" DEFAULT_OPTIONS)
     = [Start (RegistryGet Example.url); Done (RegistryGet Example.url);
        Start (Download ("sia:" ++ Example.skylink_string));
        Done (Download ("sia:" ++ Example.skylink_string))].
Proof.
  split.
  - assert (Hentry :
              @getSkyDBRegistryEntry
                (Example.env (Example.served (Example.stored Example.skylink 7)) JNull [])
                Example.publicKey "app"
                (Example.with_cached ("sia:" ++ Example.skylink_string))
              = (Ok (Some (Example.stored Example.skylink 7)),
                 [Start (RegistryGet Example.url); Done (RegistryGet Example.url)]))
      by (vm_compute; reflexivity).
    assert (Hlink :
              @parseDataLink
                (Example.env (Example.served (Example.stored Example.skylink 7)) JNull [])
                (data (Example.stored Example.skylink 7)) true
              = Ok (Example.skylink_string, ("sia:" ++ Example.skylink_string)%string))
      by (vm_compute; reflexivity).
    destruct (getJSON_cached_short_circuit _ _ _ _ _ _ _ Hentry Hlink) as (H & _).
    apply (H ("sia:" ++ Example.skylink_string)%string);
      [reflexivity | discriminate | vm_compute; reflexivity].
  - assert (Hentry :
              @getSkyDBRegistryEntry
                (Example.env (Example.served (Example.stored Example.skylink 7)) (JObj []) [])
                Example.publicKey "app" DEFAULT_OPTIONS
              = (Ok (Some (Example.stored Example.skylink 7)),
                 [Start (RegistryGet Example.url); Done (RegistryGet Example.url)]))
      by (vm_compute; reflexivity).
    assert (Hlink :
              @parseDataLink
                (Example.env (Example.served (Example.stored Example.skylink 7)) (JObj []) [])
                (data (Example.stored Example.skylink 7)) true
              = Ok (Example.skylink_string, ("sia:" ++ Example.skylink_string)%string))
      by (vm_compute; reflexivity).
    destruct (getJSON_cached_short_circuit _ _ _ _ _ _ _ Hentry Hlink) as (_ & H & _).
    rewrite H; [reflexivity | left; reflexivity].
Defined.

(** C6 (counterexample).  With a cached link that is not a skylink (so it
    differs from the resolved data link) nothing is downloaded: the call
    throws the validation error after the registry read. *)
Lemma getJSON_cached_counterexample :
  @getSkyDBRegistryEntry
    (Example.env (Example.served (Example.stored Example.skylink 7)) (JObj []) [])
    Example.publicKey "app" (Example.with_cached "not-a-skylink")
  = (Ok (Some (Example.stored Example.skylink 7)),
     [Start (RegistryGet Example.url); Done (RegistryGet Example.url)])
  /\ @parseDataLink
       (Example.env (Example.served (Example.stored Example.skylink 7)) (JObj []) [])
       Example.skylink true
     = Ok (Example.skylink_string, ("sia:" ++ Example.skylink_string)%string)
  /\ "not-a-skylink"%string <> Example.skylink_string
  /\ "not-a-skylink"%string <> ("sia:" ++ Example.skylink_string)%string
  /\ @getJSON
       (Example.env (Example.served (Example.stored Example.skylink 7)) (JObj []) [])
       Example.publicKey "app" (Example.with_cached "not-a-skylink")
     = (Throw (ValidationError "cachedDataLink"),
        [Start (RegistryGet Example.url); Done (RegistryGet Example.url)])
  /\ ~ In (Start (Download ("sia:" ++ Example.skylink_string)))
         (snd (@getJSON
                 (Example.env (Example.served (Example.stored Example.skylink 7))
                              (JObj []) [])
                 Example.publicKey "app" (Example.with_cached "not-a-skylink"))).
Proof.
  assert (Hrun :
            @getJSON
              (Example.env (Example.served (Example.stored Example.skylink 7)) (JObj []) [])
              Example.publicKey "app" (Example.with_cached "not-a-skylink")
            = (Throw (ValidationError "cachedDataLink"),
               [Start (RegistryGet Example.url); Done (RegistryGet Example.url)]))
    by (vm_compute; reflexivity).
  split; [vm_compute; reflexivity |].
  split; [vm_compute; reflexivity |].
  split; [intros H; vm_compute in H; discriminate |].
  split; [intros H; vm_compute in H; discriminate |].
  split; [exact Hrun |].
  rewrite Hrun. simpl. intros [H | [H | []]]; discriminate.
Qed.

(** C7 (counterexample).  A downloaded object that has both the [_data] and
    the [_v] key is returned whole, not unwrapped, when one of the two
    values is falsy. *)
Lemma getJSON_unwrap_counterexample :
  get_prop wrapper_v0 "_data" = Some (JObj [ ("a", JNum 1) ])
  /\ get_prop wrapper_v0 "_v" = Some (JNum 0)
  /\ fst (@getJSON
            (Example.env (Example.served (Example.stored Example.skylink 7)) wrapper_v0 [])
            Example.publicKey "app" DEFAULT_OPTIONS)
     = Ok {| json_data := Some wrapper_v0;
             dataLink := Some ("sia:" ++ Example.skylink_string)%string |}
  /\ fst (@getJSON
            (Example.env (Example.served (Example.stored Example.skylink 7)) wrapper_v0 [])
            Example.publicKey "app" DEFAULT_OPTIONS)
     <> Ok {| json_data := Some (JObj [ ("a", JNum 1) ]);
              dataLink := Some ("sia:" ++ Example.skylink_string)%string |}.
Proof.
  assert (Hrun :
            fst (@getJSON
                   (Example.env (Example.served (Example.stored Example.skylink 7))
                                wrapper_v0 [])
                   Example.publicKey "app" DEFAULT_OPTIONS)
            = Ok {| json_data := Some wrapper_v0;
                    dataLink := Some ("sia:" ++ Example.skylink_string)%string |})
    by (vm_compute; reflexivity).
  repeat split; try reflexivity; try exact Hrun.
  rewrite Hrun. discriminate.
Qed.

Lemma getJSON_unwraps_truthy_wrapper_witness :
  fst (@getJSON
         (Example.env (Example.served (Example.stored Example.skylink 7))
                      (JObj [ ("_data", JObj [ ("a", JNum 1) ]); ("_v", JNum 2) ]) [])
         Example.publicKey "app" DEFAULT_OPTIONS)
  = Ok {| json_data := Some (JObj [ ("a", JNum 1) ]);
          dataLink := Some ("sia:" ++ Example.skylink_string)%string |}
  /\ fst (@getJSON
            (Example.env (Example.served (Example.stored Example.skylink 7))
                         (JObj [ ("a", JNum 1) ]) [])
            Example.publicKey "app" DEFAULT_OPTIONS)
     = Ok {| json_data := Some (JObj [ ("a", JNum 1) ]);
             dataLink := Some ("sia:" ++ Example.skylink_string)%string |}
  /\ fst (@getJSON
            (Example.env (Example.served (Example.stored Example.skylink 7))
                         (JStr "text") [])
            Example.publicKey "app" DEFAULT_OPTIONS)
     = Throw NotJSON.
Proof.
  assert (Hentry : forall payload,
             @getSkyDBRegistryEntry
               (Example.env (Example.served (Example.stored Example.skylink 7)) payload [])
               Example.publicKey "app" DEFAULT_OPTIONS
             = (Ok (Some (Example.stored Example.skylink 7)),
                [Start (RegistryGet Example.url); Done (RegistryGet Example.url)]))
    by (intros payload; vm_compute; reflexivity).
  assert (Hlink : forall payload,
             @parseDataLink
               (Example.env (Example.served (Example.stored Example.skylink 7)) payload [])
               (data (Example.stored Example.skylink 7)) true
             = Ok (Example.skylink_string, ("sia:" ++ Example.skylink_string)%string))
    by (intros payload; vm_compute; reflexivity).
  assert (Hcached : forall payload,
             @checkCachedDataLink
               (Example.env (Example.served (Example.stored Example.skylink 7)) payload [])
               Example.skylink_string (cachedDataLink DEFAULT_OPTIONS)
             = Ok false)
    by (intros payload; reflexivity).
  split; [| split].
  - destruct (getJSON_unwraps_truthy_wrapper _ _ _ _ _ _ _ _
                (Hentry (JObj [ ("_data", JObj [ ("a", JNum 1) ]); ("_v", JNum 2) ])) (Hlink (JObj [ ("_data", JObj [ ("a", JNum 1) ]); ("_v", JNum 2) ]))
                (Hcached (JObj [ ("_data", JObj [ ("a", JNum 1) ]); ("_v", JNum 2) ])) eq_refl)
      as (_ & _ & H).
    apply (H (JObj [ ("a", JNum 1) ])); reflexivity.
  - destruct (getJSON_unwraps_truthy_wrapper _ _ _ _ _ _ _ _
                (Hentry (JObj [ ("a", JNum 1) ])) (Hlink (JObj [ ("a", JNum 1) ]))
                (Hcached (JObj [ ("a", JNum 1) ])) eq_refl)
      as (_ & H & _).
    apply H; reflexivity.
  - destruct (getJSON_unwraps_truthy_wrapper _ _ _ _ _ _ _ _
                (Hentry (JStr "text")) (Hlink (JStr "text"))
                (Hcached (JStr "text")) eq_refl)
      as (H & _).
    apply H; reflexivity.
Defined.

Lemma setJSON_post_after_join_witness :
  (exists url file endpoint body,
      snd (@setJSON
             (with_schedule (Example.env Example.not_found JNull []) [true])
             Example.privateKey "app" (JObj [ ("a", JNum 1) ]) DEFAULT_OPTIONS)
      = [Start (Upload file); Start (RegistryGet url);
         Done (RegistryGet url); Done (Upload file);
         Start (RegistryPost endpoint body); Done (RegistryPost endpoint body)])
  /\ (exists url file endpoint body,
      snd (@setJSON
             (with_schedule (Example.env Example.not_found JNull []) [false])
             Example.privateKey "app" (JObj [ ("a", JNum 1) ]) DEFAULT_OPTIONS)
      = [Start (Upload file); Start (RegistryGet url);
         Done (Upload file); Done (RegistryGet url);
         Start (RegistryPost endpoint body); Done (RegistryPost endpoint body)])
  /\ fst (@setJSON (with_schedule (Example.offline 500 503) [true])
            Example.privateKey "app" (JObj [ ("a", JNum 1) ]) DEFAULT_OPTIONS)
     = Throw (Thrown (Example.failing 500))
  /\ fst (@setJSON (with_schedule (Example.offline 500 503) [false])
            Example.privateKey "app" (JObj [ ("a", JNum 1) ]) DEFAULT_OPTIONS)
     = Throw (Thrown (Example.failing 503)).
Proof.
  destruct (setJSON_post_after_join (Example.env Example.not_found JNull [])
              Example.privateKey "app" (JObj [ ("a", JNum 1) ]) DEFAULT_OPTIONS)
    as (_ & _ & Horders & _).
  destruct (setJSON_post_after_join (Example.offline 500 503)
              Example.privateKey "app" (JObj [ ("a", JNum 1) ]) DEFAULT_OPTIONS)
    as (_ & _ & _ & Hfail & _).
  assert (Hok : exists r,
             fst (@setJSON (Example.env Example.not_found JNull [])
                    Example.privateKey "app" (JObj [ ("a", JNum 1) ]) DEFAULT_OPTIONS)
             = Ok r) by (eexists; vm_compute; reflexivity).
  destruct Hok as [r Hok]. destruct (Horders r Hok) as [Hread Hupload].
  split; [exact Hread |]. split; [exact Hupload |].
  apply (Hfail (repeat x00 32 ++ repeat x11 32) (repeat x11 32) Example.url);
    vm_compute; reflexivity.
Defined.

(** Texts with three revision fields: the first is not a match (its value is
    not a number), the second is the leftmost match, with white space after
    the colon, and the third is a match that stays as it is. *)
Lemma revision_wire_format_witness :
  transformRequest
    (post_data [x11; x22] "6170" 18446744073709551615 (new_Uint8Array 2) [x01])
  = JSON_stringify
      (post_data_number [x11; x22] "6170" 18446744073709551615 (new_Uint8Array 2) [x01])
  /\ add_revision_quotes
       (JSON_stringify (entry_response "0000" (JNum 18446744073709551615) "01"))
     = JSON_stringify (entry_response "0000" (JStr "18446744073709551615") "01")
  /\ strip_revision_quotes
       ("{" ++ REVISION_KEY ++ String QUOTE ("x" ++ String QUOTE ",")
        ++ REVISION_KEY ++ String " " (String "009" (String QUOTE ("42" ++ String QUOTE ",")))
        ++ REVISION_KEY ++ String QUOTE ("7" ++ String QUOTE "}"))%string
     = ("{" ++ REVISION_KEY ++ String QUOTE ("x" ++ String QUOTE ",")
        ++ REVISION_KEY ++ "42,"
        ++ REVISION_KEY ++ String QUOTE ("7" ++ String QUOTE "}"))%string
  /\ add_revision_quotes
       ("{" ++ REVISION_KEY ++ String QUOTE ("x" ++ String QUOTE ",")
        ++ REVISION_KEY ++ String " " (String "009" "18446744073709551615,")
        ++ REVISION_KEY ++ "7}")%string
     = ("{" ++ REVISION_KEY ++ String QUOTE ("x" ++ String QUOTE ",")
        ++ REVISION_KEY ++ String QUOTE ("18446744073709551615" ++ String QUOTE ",")
        ++ REVISION_KEY ++ "7}")%string
  /\ strip_revision_quotes "{}" = "{}"%string
  /\ @signedEntryOfResponse (Example.env Example.not_found JNull []) "app"
       (@transformResponse (Example.env Example.not_found JNull [])
          (Some (JSON_stringify
                   (entry_response Example.skylink_string
                      (JNum 18446744073709551615) "01"))))
     = Ok ({| dataKey := "app"; data := Example.skylink;
              revision := 18446744073709551615 |}, [x01]).
Proof.
  destruct revision_wire_format
    as (Hreq & Hresp & _ & _ & Hnone & Hstrip & _ & Hadd & _ & _ & _ & Hread).
  split; [apply Hreq; lia |].
  split; [apply (Hresp "0000"%string 18446744073709551615 "01"%string); lia |].
  split.
  { apply (Hstrip
             ("{" ++ REVISION_KEY ++ String QUOTE ("x" ++ String QUOTE ","))%string
             (REVISION_KEY
              ++ String " " (String "009" (String QUOTE ("42" ++ String QUOTE ",")))
              ++ REVISION_KEY ++ String QUOTE ("7" ++ String QUOTE "}"))%string
             "42"%string
             ("," ++ REVISION_KEY ++ String QUOTE ("7" ++ String QUOTE "}"))%string).
    - exists (String " " (String "009" "")). repeat split; try reflexivity. discriminate.
    - apply no_match_starts_in_WITH_QUOTES. vm_compute. reflexivity. }
  split.
  { apply (Hadd
             ("{" ++ REVISION_KEY ++ String QUOTE ("x" ++ String QUOTE ","))%string
             (REVISION_KEY ++ String " " (String "009" "18446744073709551615,")
              ++ REVISION_KEY ++ "7}")%string
             "18446744073709551615"%string
             ("," ++ REVISION_KEY ++ "7}")%string).
    - exists (String " " (String "009" "")). repeat split; try reflexivity. discriminate.
    - apply no_match_starts_in_NO_QUOTES. vm_compute. reflexivity. }
  split.
  { apply Hnone. intros p q Hs (d & post & ws & Hq & _).
    rewrite Hq in Hs. unfold REVISION_KEY, QUOTE in Hs.
    destruct p as [| c1 [| c2 [| c3 p]]]; cbn in Hs; congruence. }
  apply (Hread (Example.env Example.not_found JNull []) "app"%string
           Example.skylink_string 18446744073709551615 "01"%string [x01]
           Example.skylink); try (vm_compute; reflexivity). lia.
Defined.

(** ** Further runs *)


Lemma getEntry_null_iff_404_witness :
  (@None RegistryEntry = None <-> @None Uint8Array = None)
  /\ (@None RegistryEntry = None <->
      exists url err r,
        @getEntryUrl (Example.env Example.not_found JNull [])
          Example.publicKey "app" DEFAULT_OPTIONS = Ok url
        /\ Example.not_found = Rejected err
        /\ response err = Some r /\ status r = Some 404).
Proof.
  apply (@getEntry_null_iff_404 (Example.env Example.not_found JNull [])
           Example.publicKey "app" DEFAULT_OPTIONS
           {| entry := None; signature := None |}).
  vm_compute. reflexivity.
Defined.

Lemma getEntry_incomplete_response_witness :
  @getEntry (Example.env (Fulfilled None) JNull []) Example.publicKey "app" DEFAULT_OPTIONS
  = (Throw IncompleteEntryResponse, GET Example.url)
  /\ @getEntry (Example.env (Fulfilled (Some "{}")) JNull [])
       Example.publicKey "app" DEFAULT_OPTIONS
     = (Throw IncompleteEntryResponse, GET Example.url).
Proof.
  split.
  - assert (Hurl : @getEntryUrl (Example.env (Fulfilled None) JNull [])
                     Example.publicKey "app" DEFAULT_OPTIONS = Ok Example.url)
      by (vm_compute; reflexivity).
    destruct (@getEntry_incomplete_response (Example.env (Fulfilled None) JNull [])
                Example.publicKey "app" DEFAULT_OPTIONS Example.url None Hurl eq_refl)
      as (H & _).
    apply H. reflexivity.
  - assert (Hurl : @getEntryUrl (Example.env (Fulfilled (Some "{}")) JNull [])
                     Example.publicKey "app" DEFAULT_OPTIONS = Ok Example.url)
      by (vm_compute; reflexivity).
    destruct (@getEntry_incomplete_response (Example.env (Fulfilled (Some "{}")) JNull [])
                Example.publicKey "app" DEFAULT_OPTIONS Example.url (Some "{}")
                Hurl eq_refl)
      as (_ & _ & H).
    apply (H "revision").
    + right. left. reflexivity.
    + intros s. vm_compute. discriminate.
Defined.

Lemma getJSON_result_shape_witness :
  let E := Example.env (Example.served (Example.stored Example.skylink 7))
             (JObj [("a", JNum 1)]) [] in
  let r := {| json_data := Some (JObj [("a", JNum 1)]);
              dataLink := Some ("sia:" ++ Example.skylink_string)%string |} in
  (json_data r = None /\ dataLink r = None)
  \/ (json_data r = None
      /\ exists link c,
           dataLink r = Some link /\ cachedDataLink DEFAULT_OPTIONS = Some c /\ c <> ""
           /\ forall l,
                ~ In (Start (Download l))
                    (snd (@getJSON E Example.publicKey "app" DEFAULT_OPTIONS)))
  \/ (exists d link,
        json_data r = Some d /\ dataLink r = Some link
        /\ not_an_object d = false
        /\ In (Done (Download link))
             (snd (@getJSON E Example.publicKey "app" DEFAULT_OPTIONS))).
Proof.
  intros E r.
  apply (@getJSON_result_shape E Example.publicKey "app" DEFAULT_OPTIONS r).
  vm_compute. reflexivity.
Defined.

Lemma entry_data_length_bounds_witness :
  @getRawBytes (Example.env (Example.served (Example.stored (repeat xab 46) 7)) JNull [])
    (fun _ => Ok [x01]) Example.publicKey "app" DEFAULT_OPTIONS
  = (Throw (ValidationError "entry.data"), GET Example.url)
  /\ (exists r,
        @parseDataLink
          (Example.env (Example.served (Example.stored (repeat xab 46) 7)) JNull [])
          (repeat xab 46) true = Ok r).
Proof.
  destruct (@entry_data_length_bounds
              (Example.env (Example.served (Example.stored (repeat xab 46) 7)) JNull [])
              (fun _ => Ok [x01]))
    as (Hparse & _ & Hraw & _).
  split.
  - apply (Hraw Example.publicKey "app" DEFAULT_OPTIONS
             (Example.stored (repeat xab 46) 7)
             (Some (Reference.detached
                      (Example.digest (Example.stored (repeat xab 46) 7))
                      Example.publicKeyArray))).
    + vm_compute. reflexivity.
    + vm_compute. discriminate.
  - apply Hparse. right. split; reflexivity.
Defined.

Lemma setDataLink_registry_only_witness :
  exists t,
    @setDataLink (Example.env (Example.served (Example.stored Example.skylink 7)) JNull [])
      Example.privateKey "app" ("sia:" ++ Example.skylink_string)%string DEFAULT_OPTIONS
    = (Ok tt, t)
    /\ exists sig,
         t = GET Example.url
             ++ POST "/skynet/registry"
                  (transformRequest
                     (post_data Example.publicKeyArray
                        (Reference.toHexString (Reference.hashDataKey "app")) 8
                        Example.skylink sig)).
Proof.
  destruct (@setDataLink
              (Example.env (Example.served (Example.stored Example.skylink 7)) JNull [])
              Example.privateKey "app" ("sia:" ++ Example.skylink_string)%string
              DEFAULT_OPTIONS)
    as [[[] | err] t] eqn:H; [| vm_compute in H; discriminate].
  exists t. split; [reflexivity |].
  destruct (@setDataLink_registry_only
              (Example.env (Example.served (Example.stored Example.skylink 7)) JNull [])
              Example.privateKey "app" ("sia:" ++ Example.skylink_string)%string
              DEFAULT_OPTIONS)
    as (_ & _ & _ & _ & Hok).
  destruct (Hok t H)
    as (ska & pka & key & raw & se & rev & sig
        & Hska & Hpka & Hkey & Hraw & Hse & Hrev & Ht).
  vm_compute in Hska. injection Hska as <-.
  vm_compute in Hpka. injection Hpka as <-.
  vm_compute in Hkey. injection Hkey as <-.
  vm_compute in Hraw. injection Hraw as <-.
  vm_compute in Hse. injection Hse as <-.
  vm_compute in Hrev. injection Hrev as <-.
  exists sig. rewrite Ht. reflexivity.
Defined.

Lemma setJSON_getJSON_round_trip_witness :
  let E := Example.env (Example.served (Example.stored Example.skylink 0))
             (fullData (JObj [("a", JNum 1)])) [] in
  exists r t,
    @setJSON E Example.privateKey "app" (JObj [("a", JNum 1)]) DEFAULT_OPTIONS = (Ok r, t)
    /\ json_data r = Some (JObj [("a", JNum 1)])
    /\ @getJSON E Example.publicKey "app" DEFAULT_OPTIONS
       = (Ok {| json_data := Some (JObj [("a", JNum 1)]);
                dataLink := Some ("sia:" ++ Example.skylink_string)%string |},
          GET Example.url
          ++ [Start (Download ("sia:" ++ Example.skylink_string)%string);
              Done (Download ("sia:" ++ Example.skylink_string)%string)]).
Proof.
  intros E.
  destruct (@setJSON E Example.privateKey "app" (JObj [("a", JNum 1)]) DEFAULT_OPTIONS)
    as [[r | err] t] eqn:H; [| vm_compute in H; discriminate].
  exists r, t. split; [reflexivity |].
  destruct (@setJSON_getJSON_round_trip E Example.privateKey "app"
              (JObj [("a", JNum 1)]) DEFAULT_OPTIONS r t H)
    as (Hr & _ & _ & Hget).
  split; [exact Hr |].
  apply (Hget Example.publicKey "app" DEFAULT_OPTIONS
           (Example.stored Example.skylink 0) (GET Example.url)
           Example.skylink_string ("sia:" ++ Example.skylink_string)%string);
    vm_compute; reflexivity.
Defined.

Lemma setJSON_posts_uploaded_link_witness :
  exists r t sig,
    @setJSON (Example.env (Example.served (Example.stored Example.skylink 7)) JNull [true])
      Example.privateKey "app" (JObj [("a", JNum 1)]) DEFAULT_OPTIONS
    = (Ok r, t)
    /\ dataLink r = Some ("sia:" ++ Example.skylink_string)%string
    /\ t = [Start (Upload (@uploaded_file
                             (Example.env
                                (Example.served (Example.stored Example.skylink 7))
                                JNull [true])
                             "app" (JObj [("a", JNum 1)]) DEFAULT_OPTIONS));
            Start (RegistryGet Example.url);
            Done (RegistryGet Example.url);
            Done (Upload (@uploaded_file
                            (Example.env
                               (Example.served (Example.stored Example.skylink 7))
                               JNull [true])
                            "app" (JObj [("a", JNum 1)]) DEFAULT_OPTIONS))]
           ++ POST "/skynet/registry"
                (transformRequest
                   (post_data Example.publicKeyArray
                      (Reference.toHexString (Reference.hashDataKey "app")) 8
                      Example.skylink sig)).
Proof.
  destruct (@setJSON
              (Example.env (Example.served (Example.stored Example.skylink 7)) JNull [true])
              Example.privateKey "app" (JObj [("a", JNum 1)]) DEFAULT_OPTIONS)
    as [[r | err] t] eqn:H; [| vm_compute in H; discriminate].
  destruct (@setJSON_posts_uploaded_link
              (Example.env (Example.served (Example.stored Example.skylink 7)) JNull [true])
              Example.privateKey "app" (JObj [("a", JNum 1)]) DEFAULT_OPTIONS r t H)
    as (ska & pka & key & se & skylink & rev & d & sig
        & Hska & Hpka & Hkey & Hse & Hrev & Hup & Hd & _ & Hr & Ht).
  vm_compute in Hska. injection Hska as <-.
  vm_compute in Hpka. injection Hpka as <-.
  vm_compute in Hkey. injection Hkey as <-.
  vm_compute in Hse. injection Hse as <-.
  vm_compute in Hrev. injection Hrev as <-.
  vm_compute in Hup. injection Hup as <-.
  vm_compute in Hd. injection Hd as <-.
  exists r, t, sig. split; [reflexivity |]. split.
  - rewrite Hr. vm_compute. reflexivity.
  - rewrite Ht. reflexivity.
Defined.

(** A deletion through MySky that the delegate signs, and writes through a
    delegate that refuses to sign. *)
Lemma mysky_writes_signed_by_delegate_witness :
  (let E := Example.env Example.not_found JNull [] in
   let t := snd (@MySky_deleteJSON E "profile" DEFAULT_OPTIONS) in
   exists body userID e sig key,
     nth_error t 6 = Some (Start (RegistryPost "/skynet/registry" body))
     /\ @mysky_userID E = Ok userID
     /\ @hexToUint8Array E userID = Ok key
     /\ @mysky_signRegistryEntry E e "profile" = Ok sig
     /\ In (Done (SignRegistryEntry e "profile")) (firstn 6 t)
     /\ dataKey e = @deriveDiscoverableFileTweak E "profile"
     /\ body = transformRequest (post_data key (dataKey e) (revision e) (data e) sig))
  /\ (let E := reference_env (fun _ => Example.not_found) (fun _ _ => None)
                 (fun _ => Ok ("sia:" ++ Example.skylink_string)%string)
                 (fun _ => Ok JNull) (Ok Example.publicKey)
                 (fun _ _ => Throw (BuiltinError "permission denied")) [] in
      no_post (snd (@MySky_deleteJSON E "profile" DEFAULT_OPTIONS))
      /\ no_post (snd (@MySky_setJSON E "profile" (JObj []) DEFAULT_OPTIONS))).
Proof.
  split.
  - intros E t.
    destruct (nth_error t 6) as [[[| ep body | | | |] |] |] eqn:Hn;
      try (vm_compute in Hn; discriminate).
    assert (Hep : ep = "/skynet/registry"%string).
    { vm_compute in Hn. injection Hn as <- _. reflexivity. }
    subst ep. exists body.
    destruct (@mysky_writes_signed_by_delegate E "profile" DEFAULT_OPTIONS) as (Hdel & _).
    destruct (Hdel (firstn 6 t) "/skynet/registry"%string body (skipn 7 t))
      as (userID & e & sig & key & H1 & H2 & H3 & H4 & H5 & H6).
    + fold t. rewrite <- (firstn_skipn 6 t) at 1. f_equal.
      assert (Hs : skipn 6 t = Start (RegistryPost "/skynet/registry" body) :: skipn 7 t).
      { clear Hdel. revert Hn. generalize t. intros l Hn.
        do 6 (destruct l as [| ? l]; [discriminate |]).
        destruct l as [| x l]; [discriminate |].
        cbn in Hn. injection Hn as ->. reflexivity. }
      exact Hs.
    + exists userID, e, sig, key. repeat split; auto.
  - intros E.
    destruct (@mysky_writes_signed_by_delegate E "profile" DEFAULT_OPTIONS)
      as (_ & _ & _ & _ & Hrefuse).
    destruct Hrefuse as (Hdel & _ & _ & Hset).
    + intros e. eexists. reflexivity.
    + split; [exact Hdel | apply Hset].
Defined.

Lemma mysky_reads_as_file_api_witness :
  let E := Example.env Example.not_found JNull [] in
  @MySky_getEntryData E "profile" DEFAULT_OPTIONS
  = (Ok {| entry_data := None |},
     [Start UserID; Done UserID]
     ++ GET (@entry_url E Example.publicKey
               (@deriveDiscoverableFileTweak E "profile") DEFAULT_OPTIONS))
  /\ fst (@MySky_getJSON E "profile" DEFAULT_OPTIONS)
     = Ok {| json_data := None; dataLink := None |}.
Proof.
  intros E.
  destruct (@mysky_reads_as_file_api E "profile" DEFAULT_OPTIONS) as (Hok & _ & Hurl).
  destruct (Hok Example.publicKey eq_refl) as (Hjson & Hdata).
  destruct (Hurl Example.publicKey) as (Hget & _); [vm_compute; reflexivity |].
  split.
  - rewrite Hdata, Hget. vm_compute. reflexivity.
  - rewrite Hjson. vm_compute. reflexivity.
Defined.


Lemma getRawBytes_as_getJSON_witness :
  let E := Example.env (Example.served (Example.stored Example.skylink 7))
             (JObj [("a", JNum 1)]) [] in
  snd (@getRawBytes E (fun _ => Ok [x01]) Example.publicKey "app" DEFAULT_OPTIONS)
  = GET Example.url
    ++ [Start (Download ("sia:" ++ Example.skylink_string)%string);
        Done (Download ("sia:" ++ Example.skylink_string)%string)].
Proof.
  intros E.
  destruct (@getRawBytes_as_getJSON E (fun _ => Ok [x01]) Example.publicKey "app"
              DEFAULT_OPTIONS) as (Hsame & _).
  rewrite Hsame.
  - vm_compute. reflexivity.
  - intros e He. vm_compute in He. injection He as <-. vm_compute. discriminate.
Defined.

Lemma portalUrl_resolved_once_witness :
  let executeRequest := fun _ : RequestConfig =>
    FulfilledWith
      {| response_headers := Some [("skynet-portal-api", "https://siasky.net")] |} in
  SkynetClient_portalUrl (fun s _ => s) executeRequest
    (new_SkynetClient "https://siasky.net" "https://my.portal") None
  = (FulfilledWith (Some "https://my.portal"), None, [])
  /\ snd (portalUrl_calls (fun s _ => s) executeRequest
            (repeat (new_SkynetClient "https://siasky.net" "") 3) None)
     = [{| config_method := "head";
           config_url := "https://siasky.net";
           config_endpointPath := "/" |}].
Proof.
  intros executeRequest.
  destruct (portalUrl_resolved_once "https://siasky.net" (fun s _ => s) executeRequest)
    as (Hcustom & _ & _ & _ & Hcalls).
  split.
  - apply Hcustom. discriminate.
  - apply (Hcalls 2%nat).
Defined.
